(** * ClusterManager (cts/lab/ClusterManager.py): node lifecycle and fencing
      reconciliation of Pacemaker's Cluster Test Suite.

    The Python class keeps, per node, the status the harness believes the
    node to be in ([ShouldBeStatus]) and talks to several collaborators:
    the remote shell, the log watcher, the node reachability monitor, the
    pattern templates and the methods a concrete cluster manager adds
    ([HasQuorum], [StataCM], [cluster_stable], [install_config]).

    The embedding is a state-and-exception monad over the fields of the
    object.  Every call to a collaborator is recorded in [history], and the
    answer of a collaborator is a function of the history so far, so that
    two calls of the same method may answer differently. *)

From Stdlib Require Import ZArith Ascii.
From stdpp Require Import base ssreflect strings gmap list pretty.

Local Open Scope Z_scope.
Set Warnings "-rewrite-rw".

(** ** Observable events *)

(** What the object does to the outside, newest event first in [history].
    An event that asks a collaborator carries the answer it got. *)
Inductive Event : Type :=
| Log (msg : string)                               (* self.logger.log(msg) *)
| Debug (msg : string)                             (* self.debug(msg) *)
| Print (msg : string)                             (* print(msg) *)
| Rsh (node cmd : string) (rc : Z)                 (* self.rsh(node, cmd) *)
| RshNoBlock (node cmd : string)                   (* self.rsh(node, cmd, synchronous=0) *)
| InstallConfig (node : string)                    (* self.install_config(node) *)
| Quorum (ans : bool)                              (* self.HasQuorum(None) *)
| Stat (node : string) (ans : bool)                (* self.StataCM(node) *)
| Stable (timeout : option Z) (ans : bool)         (* self.cluster_stable([timeout]) *)
| NewWatch (name : string) (patterns : list string) (timeout : Z)
                                                   (* LogWatcher(..., patterns, name, timeout, ...) *)
| SetWatch (name : string)                         (* watch.setwatch() *)
| Look (name : string) (timeout : Z) (shot : option string)
                                                   (* watch.look(timeout) *)
| LookForAll (name : string) (ans : bool)          (* watch.lookforall() *)
| WaitNodeUp (node : string) (timeout : Z)         (* self.ns.WaitForNodeToComeUp *)
| WaitAllUp (nodes : list string) (timeout : Z)    (* self.ns.WaitForAllNodesToComeUp *)
| Sleep (seconds : Z).                             (* time.sleep *)

(** ** The collaborators *)

(** Modelled from the spec: cts.watcher.LogWatcher is not part of this
    file.  A watch session has a name, the list [regexes] of expressions
    still outstanding, the index [whichmatch] of the expression the last
    reported line matched, the list [unmatched] that [lookforall] leaves,
    and [pending], the matches the session is going to report to [look], in
    order, each with the index it stores in [whichmatch]. *)
Record LogWatcher : Type := mkLogWatcher {
  w_name : string;
  regexes : list string;
  whichmatch : nat;
  unmatched : list string;
  pending : list (string * nat)
}.

(** The configuration ([self.Env]), the pattern templates
    ([self.templates]), the operations of the language the code uses on
    strings, and the answers of the collaborators. *)
Record Lab : Type := mkLab {
  Env_nodes : list string;            (* self.Env["nodes"] *)
  Env_at_boot : bool;                 (* self.Env["at-boot"] *)
  Env_StartTime : Z;                  (* self.Env["StartTime"] *)
  Env_DeadTime : Z;                   (* self.Env["DeadTime"] *)
  Env_Name : string;                  (* self.Env["Name"], also self["Name"] *)
  templates : string -> string;       (* self.templates[key]; a missing template is empty *)
  fmt : string -> list string -> string;   (* template % args *)
  repr : string -> string;            (* repr(line) *)
  repr_list : list string -> string;  (* repr(list of expressions) *)
  re_search : string -> string -> bool;    (* re.search(pattern, line) is not None *)
  rsh_rc : list Event -> string -> string -> Z;
  has_quorum : list Event -> bool;
  stat_cm : list Event -> string -> bool;
  stable : list Event -> option Z -> bool;
  watch_feed : list Event -> string -> list string -> list (string * nat);
  watch_all : list Event -> LogWatcher -> bool * list string
}.

(** ** The object and the monad *)

(** The mutable fields of a ClusterManager that the operations below use. *)
Record CM : Type := mkCM {
  ShouldBeStatus : gmap string string;
  instance_errorstoignore : list string;
  history : list Event
}.

(** The exceptions the code can raise on its own. *)
Inductive exn : Type :=
| KeyError (key : string)
| UnboundLocalError (var : string)
| IndexError.

Inductive outcome (A : Type) : Type :=
| Ret (a : A)
| Raise (e : exn).
Arguments Ret {A} a.
Arguments Raise {A} e.

Definition M (A : Type) : Type := CM -> outcome A * CM.

Definition ret {A : Type} (a : A) : M A := fun s => (Ret a, s).

Definition bind {A B : Type} (m : M A) (f : A -> M B) : M B :=
  fun s => match m s with
           | (Ret a, s') => f a s'
           | (Raise e, s') => (Raise e, s')
           end.

Definition raise {A : Type} (e : exn) : M A := fun s => (Raise e, s).

Declare Scope cm_scope.
Delimit Scope cm_scope with cm.
Notation "x ← y ; z" := (bind y (fun x : _ => z))
  (at level 20, y at level 100, z at level 200, only parsing) : cm_scope.
Notation "' x ← y ; z" := (bind y (fun x : _ => z))
  (at level 20, x pattern, y at level 100, z at level 200, only parsing) : cm_scope.
Notation "x ;; z" := (bind x (fun _ => z))
  (at level 100, z at level 200, only parsing, right associativity) : cm_scope.
Local Open Scope cm_scope.

(** The object after one more event. *)
Definition push (e : Event) (s : CM) : CM :=
  mkCM (ShouldBeStatus s) (instance_errorstoignore s) (e :: history s).

Definition emit (e : Event) : M unit := fun s => (Ret tt, push e s).

(** [self.ShouldBeStatus[node]]: a KeyError when the node has no entry. *)
Definition status_get (node : string) : M string :=
  fun s => match ShouldBeStatus s !! node with
           | Some st => (Ret st, s)
           | None => (Raise (KeyError node), s)
           end.

(** [self.ShouldBeStatus[node] = st] *)
Definition status_set (node st : string) : M unit :=
  fun s => (Ret tt, mkCM (<[node := st]> (ShouldBeStatus s)) (instance_errorstoignore s) (history s)).

(** [if not node in self.ShouldBeStatus: self.ShouldBeStatus[node] = st] *)
Definition status_default (node st : string) : M unit :=
  fun s => if decide (ShouldBeStatus s !! node = None)
           then status_set node st s
           else ret () s.

(** [self.__instance_errorstoignore.append(pat)] *)
Definition ignore_append (pat : string) : M unit :=
  fun s => (Ret tt, mkCM (ShouldBeStatus s) (instance_errorstoignore s ++ [pat]) (history s)).

(** [d[key]] on a local dictionary. *)
Definition getitem (d : gmap string string) (key : string) : M string :=
  match d !! key with
  | Some v => ret v
  | None => raise (KeyError key)
  end.

(** [del l[i]] for an index that is not negative. *)
Definition del_at (l : list string) (i : nat) : M (list string) :=
  if decide (i < length l)%nat then ret (delete i l) else raise IndexError.

(** The results of the methods: [1], [0] and [None]. *)
Definition py_1 : option Z := Some 1.
Definition py_0 : option Z := Some 0.

Section ClusterManager.

Variable lab : Lab.

Definition log (msg : string) : M unit := emit (Log msg).
Definition debug (msg : string) : M unit := emit (Debug msg).

(** [self.rsh(node, cmd)]: the remote shell runs the command on the node
    and answers its exit code. *)
Definition rsh (node cmd : string) : M Z :=
  fun s => let rc := rsh_rc lab (history s) node cmd in
           (Ret rc, push (Rsh node cmd rc) s).

(** [self.rsh(node, cmd, synchronous=0)]: the command is sent and not
    waited for. *)
Definition rsh_noblock (node cmd : string) : M unit := emit (RshNoBlock node cmd).

(** Modelled from the spec: install_config is defined by the concrete
    cluster managers; it pushes the current configuration to the node. *)
Definition install_config (node : string) : M unit := emit (InstallConfig node).

(** Modelled from the spec: HasQuorum is defined by the concrete cluster
    managers; the quorum predicate of the cluster configuration. *)
Definition HasQuorum : M bool :=
  fun s => let q := has_quorum lab (history s) in
           (Ret q, push (Quorum q) s).

(** Modelled from the spec: StataCM is defined by the concrete cluster
    managers, not here; the spec describes it as a liveness probe of the
    node, answering up or down, that does not touch the status table. *)
Definition StataCM (node : string) : M bool :=
  fun s => let a := stat_cm lab (history s) node in
           (Ret a, push (Stat node a) s).

(** Modelled from the spec: cluster_stable is defined by the concrete
    cluster managers; a check that answers whether the cluster settled
    within the timeout. *)
Definition cluster_stable (timeout : option Z) : M bool :=
  fun s => let a := stable lab (history s) timeout in
           (Ret a, push (Stable timeout a) s).

Definition key_for_node (node : string) : string := node.

(** *** The watch sessions *)

(** [LogWatcher(self.Env["LogFileName"], patterns, name, timeout, ...)].
    [whichmatch] is only read after a [look] has set it. *)
Definition new_watch (name : string) (patterns : list string) (timeout : Z) : M LogWatcher :=
  emit (NewWatch name patterns timeout);;
  ret (mkLogWatcher name patterns 0 [] []).

(** [watch.setwatch()]: from here on the session collects its matches. *)
Definition setwatch (w : LogWatcher) : M LogWatcher :=
  fun s => let feed := watch_feed lab (history s) (w_name w) (regexes w) in
           (Ret (mkLogWatcher (w_name w) (regexes w) (whichmatch w) (unmatched w) feed),
            push (SetWatch (w_name w)) s).

(** [watch.lookforall()]: whether every expression matched, and the
    expressions left in [watch.unmatched]. *)
Definition lookforall (w : LogWatcher) : M (bool * LogWatcher) :=
  fun s => let '(ans, um) := watch_all lab (history s) w in
           (Ret (ans, mkLogWatcher (w_name w) (regexes w) (whichmatch w) um (pending w)),
            push (LookForAll (w_name w) ans) s).

(** The session after [look] reported a match with index [which]. *)
Definition matched (w : LogWatcher) (which : nat) (rest : list (string * nat)) : LogWatcher :=
  mkLogWatcher (w_name w) (regexes w) which (unmatched w) rest.

Definition set_regexes (w : LogWatcher) (regs : list string) : LogWatcher :=
  mkLogWatcher (w_name w) regs (whichmatch w) (unmatched w) (pending w).

(** *** upcount *)

Fixpoint upcount_loop (nodes : list string) (count : Z) : M Z :=
  match nodes with
  | [] => ret count
  | node :: rest =>
      st ← status_get node;
      upcount_loop rest (if decide (st = "up") then count + 1 else count)
  end.

Definition upcount : M Z := upcount_loop (Env_nodes lab) 0.

(** *** prepare_fencing_watcher *)

Fixpoint stonith_patterns (nodes : list string) (stonithPats : list string) : M (list string) :=
  match nodes with
  | [] => ret stonithPats
  | peer :: rest =>
      st ← status_get peer;
      if decide (st ≠ "up") then
        stonith_patterns rest
          (stonithPats ++ [fmt lab (templates lab "Pat:Fencing_ok") [peer];
                           fmt lab (templates lab "Pat:Fencing_start") [peer]])
      else stonith_patterns rest stonithPats
  end.

Definition prepare_fencing_watcher (name : string) : M (option LogWatcher) :=
  q ← HasQuorum;
  if q then
    debug "Have quorum";;
    ret None
  else if decide (templates lab "Pat:Fencing_start" = "") then
    emit (Print "No start pattern");;
    ret None
  else if decide (templates lab "Pat:Fencing_ok" = "") then
    emit (Print "No ok pattern");;
    ret None
  else
    stonithPats ← stonith_patterns (Env_nodes lab) [];
    stonith ← new_watch "StartupFencing" stonithPats 0;
    stonith ← setwatch stonith;
    ret (Some stonith).

(** *** fencing_cleanup *)

(** Lines 237-247: the loop over the nodes that extracts the node name of
    one reported line.  [peer] is [None] as long as the local variable is
    unbound. *)
Fixpoint match_peers (nodes : list string) (shot : string)
    (peer : option string) (peer_state : gmap string string)
    : M (option string * gmap string string) :=
  match nodes with
  | [] => ret (peer, peer_state)
  | n :: rest =>
      if re_search lab (fmt lab (templates lab "Pat:Fencing_ok") [n]) shot then
        ignore_append (fmt lab (templates lab "Pat:Fencing_ok") [n]);;
        match_peers rest shot (Some n) (<[n := "complete"]> peer_state)
      else
        st ← getitem peer_state n;
        if bool_decide (st ≠ "complete")
           && re_search lab (fmt lab (templates lab "Pat:Fencing_start") [n]) shot then
          ignore_append (fmt lab (templates lab "Pat:Fencing_start") [n]);;
          match_peers rest shot (Some n) (<[n := "in-progress"]> peer_state)
        else match_peers rest shot peer peer_state
  end.

(** Lines 249-254, with the variables of the pass so far. *)
Definition record_peer (line : string) (peer : option string) (peer_list : list string)
    : M (list string) :=
  match peer with
  | None => raise (UnboundLocalError "peer")
  | Some p =>
      if decide (p = "") then
        log (fmt lab "ERROR: Unknown stonith match: %s" [line]);;
        ret peer_list
      else if decide (p ∉ peer_list) then
        debug ("Found peer: " +:+ p);;
        ret (peer_list ++ [p])
      else ret peer_list
  end.

(** Lines 230-257: [shot = stonith.look(timeout)] followed by the loop
    [while shot: ...; shot = stonith.look(60)], on the matches [feed] the
    session still has to report. *)
Fixpoint scan_loop (timeout : Z) (feed : list (string * nat)) (stonith : LogWatcher)
    (peer : option string) (peer_list : list string) (peer_state : gmap string string)
    : M (LogWatcher * (option string * list string * gmap string string)) :=
  match feed with
  | [] =>
      emit (Look (w_name stonith) timeout None);;
      ret (matched stonith (whichmatch stonith) [], (peer, peer_list, peer_state))
  | (shot, which) :: feed' =>
      emit (Look (w_name stonith) timeout (Some shot));;
      let stonith := matched stonith which feed' in
      if decide (shot = "") then ret (stonith, (peer, peer_list, peer_state))
      else
        let line := repr lab shot in
        debug ("Found: " +:+ line);;
        regs ← del_at (regexes stonith) (whichmatch stonith);
        let stonith := set_regexes stonith regs in
        '(peer, peer_state) ← match_peers (Env_nodes lab) shot peer peer_state;
        peer_list ← record_peer line peer peer_list;
        scan_loop 60 feed' stonith peer peer_list peer_state
  end.

(** Lines 269-274: [shot = stonith.look(60)] followed by
    [while len(stonith.regexes) and shot: ...; shot = stonith.look(60)]. *)
Fixpoint drain_loop (feed : list (string * nat)) (stonith : LogWatcher) : M LogWatcher :=
  match feed with
  | [] =>
      emit (Look (w_name stonith) 60 None);;
      ret (matched stonith (whichmatch stonith) [])
  | (shot, which) :: feed' =>
      emit (Look (w_name stonith) 60 (Some shot));;
      let stonith := matched stonith which feed' in
      if bool_decide (length (regexes stonith) ≠ 0%nat) && bool_decide (shot ≠ "") then
        debug ("Found: " +:+ repr lab shot);;
        regs ← del_at (regexes stonith) (whichmatch stonith);
        drain_loop feed' (set_regexes stonith regs)
      else ret stonith
  end.

(** Lines 259-288: the loop over [peer_list]; [peers] is what is left of
    the list.  The result is [None] after the early [return None]. *)
Fixpoint settle_peers (node : string) (peers : list string) (peer_list : list string)
    (peer_state : gmap string string) (stonith : LogWatcher)
    : M (option (list string) * LogWatcher) :=
  match peers with
  | [] => ret (Some peer_list, stonith)
  | peer :: rest =>
      st ← getitem peer_state peer;
      debug (fmt lab "   Peer %s was fenced as a result of %s starting: %s" [peer; node; st]);;
      status_set peer (if Env_at_boot lab then "up" else "down");;
      stonith ← (if decide (st = "in-progress")
                 then drain_loop (pending stonith) stonith
                 else ret stonith);
      emit (WaitNodeUp peer (Env_DeadTime lab));;
      if Env_at_boot lab then
        alive ← StataCM peer;
        (if alive then ret () else emit (Sleep (Env_StartTime lab)));;
        alive ← StataCM peer;
        if alive then settle_peers node rest peer_list peer_state stonith
        else
          log (fmt lab "ERROR: Peer %s failed to restart after being fenced" [peer]);;
          ret (None, stonith)
      else settle_peers node rest peer_list peer_state stonith
  end.

(** [peer_state[n] = "unknown"] for every configured node (lines 225-226). *)
Definition unknown_states (nodes : list string) : gmap string string :=
  foldl (fun peer_state n => <[n := "unknown"]> peer_state) ∅ nodes.

(** The result is the returned list ([None] for [return None]) together
    with the session object as the call leaves it. *)
Definition fencing_cleanup (node : string) (stonith : option LogWatcher)
    : M (option (list string) * option LogWatcher) :=
  debug (fmt lab "Looking for nodes that were fenced as a result of %s starting" [node]);;
  match stonith with
  | None =>
      debug "Nothing to do";;
      ret (Some [] : option (list string), None : option LogWatcher)
  | Some stonith =>
      q ← HasQuorum;
      if negb q && bool_decide (2 < length (Env_nodes lab))%nat then
        debug (fmt lab "Quorum: %d Len: %d"
                   [if q then "1" else "0"; pretty (length (Env_nodes lab))]);;
        ret (Some [], Some stonith)
      else
        let peer_state := unknown_states (Env_nodes lab) in
        debug ("looking for: " +:+ repr_list lab (regexes stonith));;
        '(stonith, (_, peer_list, peer_state)) ←
          scan_loop 0 (pending stonith) stonith None [] peer_state;
        '(result, stonith) ← settle_peers node peer_list peer_list peer_state stonith;
        ret (result, Some stonith)
  end.

(** *** Single-node operations *)

(** [a and b] on two calls: [b] is only made when [a] answered true. *)
Definition and_then (a b : M bool) : M bool :=
  x ← a;
  if x then b else ret false.

(** Whether a result counts as true in a condition. *)
Definition truthy (r : option Z) : bool :=
  match r with
  | Some z => bool_decide (z ≠ 0)
  | None => false
  end.

(** [for regex in watch.unmatched: self.logger.log("Warn: ...")] *)
Fixpoint warn_unmatched (regs : list string) : M unit :=
  match regs with
  | [] => ret ()
  | regex :: rest =>
      log (fmt lab "Warn: Startup pattern not found: %s" [regex]);;
      warn_unmatched rest
  end.

Definition StartaCM (node : string) (verbose : bool) : M (option Z) :=
  (if verbose
   then log (fmt lab "Starting %s on node %s" [templates lab "Name"; node])
   else debug (fmt lab "Starting %s on node %s" [templates lab "Name"; node]));;
  status_default node "down";;
  st ← status_get node;
  if decide (st ≠ "down") then ret py_1
  else
    up ← upcount;
    let patterns :=
      [fmt lab (templates lab "Pat:Local_started") [node];
       if decide (up = 0)
       then fmt lab (templates lab "Pat:DC_started") [node]
       else fmt lab (templates lab "Pat:NonDC_started") [node]] in
    watch ← new_watch "StartaCM" patterns (Env_StartTime lab + 10);
    install_config node;;
    status_set node "any";;
    started ← and_then (StataCM node) (cluster_stable (Some (Env_DeadTime lab)));
    if started then
      log (fmt lab "%s was already started" [node]);;
      ret py_1
    else
      stonith ← prepare_fencing_watcher node;
      watch ← setwatch watch;
      rc ← rsh node (templates lab "StartCmd");
      if decide (rc ≠ 0) then
        log (fmt lab "Warn: Start command failed on node %s" [node]);;
        fencing_cleanup node stonith;;
        ret None
      else
        status_set node "up";;
        '(watch_result, watch) ← lookforall watch;
        warn_unmatched (unmatched watch);;
        ok ← and_then (ret watch_result) (cluster_stable (Some (Env_DeadTime lab)));
        if ok then
          fencing_cleanup node stonith;;
          ret py_1
        else
          ok ← and_then (StataCM node) (cluster_stable (Some (Env_DeadTime lab)));
          if ok then
            fencing_cleanup node stonith;;
            ret py_1
          else
            log (fmt lab "Warn: Start failed for node %s" [node]);;
            ret None.

Definition StartaCMnoBlock (node : string) (verbose : bool) : M (option Z) :=
  (if verbose
   then log (fmt lab "Starting %s on node %s" [Env_Name lab; node])
   else debug (fmt lab "Starting %s on node %s" [Env_Name lab; node]));;
  install_config node;;
  rsh_noblock node (templates lab "StartCmd");;
  status_set node "up";;
  ret py_1.

Definition StopaCM (node : string) (verbose force : bool) : M (option Z) :=
  (if verbose
   then log (fmt lab "Stopping %s on node %s" [Env_Name lab; node])
   else debug (fmt lab "Stopping %s on node %s" [Env_Name lab; node]));;
  st ← status_get node;
  if bool_decide (st ≠ "up") && negb force then ret py_1
  else
    rc ← rsh node (templates lab "StopCmd");
    if decide (rc = 0) then
      status_set node "down";;
      cluster_stable (Some (Env_DeadTime lab));;
      ret py_1
    else
      log (fmt lab "ERROR: Could not stop %s on node %s" [Env_Name lab; node]);;
      ret None.

Definition RereadCM (node : string) : M (option Z) :=
  rc ← rsh node (templates lab "RereadCmd");
  if decide (rc = 0) then ret py_1
  else
    log (fmt lab "Could not force %s on node %s to reread its config" [Env_Name lab; node]);;
    ret None.

(** *** Operations on the whole cluster *)

(** [if not nodelist: nodelist = self.Env["nodes"]] *)
Definition default_nodes (nodelist : option (list string)) : list string :=
  match nodelist with
  | None | Some [] => Env_nodes lab
  | Some l => l
  end.

(** Lines 414-416.  The loop variable [node] stays bound after the loop;
    it is [None] while unbound. *)
Fixpoint wait_loop (nodelist rest : list string) (node : option string) : M (option string) :=
  match rest with
  | [] => ret node
  | n :: rest' =>
      st ← status_get n;
      (if decide (st = "down") then emit (WaitAllUp nodelist 300) else ret ());;
      wait_loop nodelist rest' (Some n)
  end.

(** Lines 427-431. *)
Definition fast_start_patterns (nodelist : list string) (first : string) : list string :=
  flat_map (fun node =>
              [fmt lab (templates lab "Pat:InfraUp") [node];
               fmt lab (templates lab "Pat:PacemakerUp") [node];
               fmt lab (templates lab "Pat:Local_started") [node];
               fmt lab (templates lab "Pat:They_up") [first; node]]) nodelist.

(** Lines 439-440. *)
Fixpoint noblock_loop (nodelist : list string) (verbose : bool) : M unit :=
  match nodelist with
  | [] => ret ()
  | node :: rest =>
      StartaCMnoBlock node verbose;;
      noblock_loop rest verbose
  end.

Definition startall (nodelist : option (list string)) (verbose quick : bool) : M (option Z) :=
  let nodelist := default_nodes nodelist in
  node ← wait_loop nodelist nodelist None;
  if negb quick then
    match node with
    | None => raise (UnboundLocalError "node")
    | Some node =>
        r ← StartaCM node verbose;
        if negb (truthy r) then ret py_0 else ret py_1
    end
  else
    let watchpats :=
      [templates lab "Pat:DC_IDLE"] ++ fast_start_patterns nodelist (hd "" nodelist) in
    watch ← new_watch "fast-start" watchpats (Env_DeadTime lab + 10);
    watch ← setwatch watch;
    match nodelist with
    | [] => raise IndexError
    | first :: _ =>
        r ← StartaCM first verbose;
        if negb (truthy r) then ret py_0
        else
          noblock_loop nodelist verbose;;
          '(_, watch) ← lookforall watch;
          warn_unmatched (unmatched watch);;
          settled ← cluster_stable None;
          if negb settled then
            log "Cluster did not stabilize";;
            ret py_0
          else ret py_1
    end.

(** Lines 463-466, with [ret] the local variable of that name. *)
Fixpoint stopall_loop (nodes : list string) (verbose force : bool) (ret_ : option Z)
    : M (option Z) :=
  match nodes with
  | [] => ret ret_
  | node :: rest =>
      st ← status_get node;
      if bool_decide (st = "up") || force then
        r ← StopaCM node verbose force;
        stopall_loop rest verbose force (if negb (truthy r) then py_0 else ret_)
      else stopall_loop rest verbose force ret_
  end.

Definition stopall (nodelist : option (list string)) (verbose force : bool) : M (option Z) :=
  let nodelist := default_nodes nodelist in
  stopall_loop (Env_nodes lab) verbose force py_1.

(** Lines 479-481. *)
Fixpoint rereadall_loop (nodes : list string) : M unit :=
  match nodes with
  | [] => ret ()
  | node :: rest =>
      st ← status_get node;
      (if decide (st = "up") then RereadCM node;; ret () else ret ());;
      rereadall_loop rest
  end.

Definition rereadall (nodelist : option (list string)) : M unit :=
  let nodelist := default_nodes nodelist in
  rereadall_loop (Env_nodes lab).

(** *** isolate_node *)

(** The loop of [isolate_node]: [None] is the early [return None]. *)
Fixpoint isolate_loop (target : string) (nodes : list string) : M (option Z) :=
  match nodes with
  | [] => ret py_1
  | node :: rest =>
      if decide (node ≠ target) then
        rc ← rsh target (fmt lab (templates lab "BreakCommCmd") [key_for_node node]);
        if decide (rc ≠ 0) then
          log (fmt lab "Could not break the communication between %s and %s: %d"
                   [target; node; pretty rc]);;
          ret None
        else
          debug (fmt lab "Communication cut between %s and %s" [target; node]);;
          isolate_loop target rest
      else isolate_loop target rest
  end.

Definition isolate_node (target : string) (nodes : option (list string)) : M (option Z) :=
  isolate_loop target (default_nodes nodes).

End ClusterManager.

(** ** The remaining operations on nodes *)

(** What a method that converts a configured value to a float ends with:
    it returns, or the conversion of the value raises ValueError. *)
Inductive converted (A : Type) : Type :=
| Converted (a : A)
| FloatError (value : string).
Arguments Converted {A} a.
Arguments FloatError {A} value.

Section Operations.

Variable lab : Lab.

(** [CTSvars.CRM_DAEMON_DIR] and [self.Env["oprofile"]]. *)
Variable CRM_DAEMON_DIR : string.
Variable Env_oprofile : list string.

(** [self.__instance_errorstoignore = []] *)
Definition instance_errorstoignore_clear : M unit :=
  fun s => (Ret tt, mkCM (ShouldBeStatus s) [] (history s)).

(** The method [instance_errorstoignore()], which returns the list. *)
Definition get_instance_errorstoignore : M (list string) :=
  fun s => (Ret (instance_errorstoignore s), s).

(** Lines 178-179.  The exit codes are not looked at. *)
Fixpoint install_support_loop (nodes : list string) (command : string) : M unit :=
  match nodes with
  | [] => ret ()
  | node :: rest =>
      rsh lab node (CRM_DAEMON_DIR +:+ "/cts-support " +:+ command);;
      install_support_loop rest command
  end.

(** [command] is [None] when the caller leaves it at its default. *)
Definition install_support (command : option string) : M unit :=
  install_support_loop (Env_nodes lab) (default "install" command).

Definition StopaCMnoBlock (node : string) : M (option Z) :=
  debug (fmt lab "Stopping %s on node %s" [Env_Name lab; node]);;
  rsh_noblock node (templates lab "StopCmd");;
  status_set node "down";;
  ret py_1.

(** Lines 492-496, with [result] the dictionary built so far. *)
Fixpoint statall_loop (nodelist : list string) (result : gmap string string)
    : M (gmap string string) :=
  match nodelist with
  | [] => ret result
  | node :: rest =>
      alive ← StataCM lab node;
      statall_loop rest (<[node := if alive then "up" else "down"]> result)
  end.

Definition statall (nodelist : option (list string)) : M (gmap string string) :=
  statall_loop (default_nodes lab nodelist) ∅.

(** Lines 519-527. *)
Fixpoint unisolate_loop (target : string) (nodes : list string) : M unit :=
  match nodes with
  | [] => ret ()
  | node :: rest =>
      (if decide (node ≠ target) then
         rsh_noblock target (fmt lab (templates lab "FixCommCmd") [key_for_node node]);;
         rsh_noblock node (fmt lab (templates lab "FixCommCmd") [key_for_node target]);;
         debug (fmt lab "Communication restored between %s and %s" [target; node])
       else ret ());;
      unisolate_loop target rest
  end.

Definition unisolate_node (target : string) (nodes : option (list string)) : M unit :=
  unisolate_loop target (default_nodes lab nodes).

(** *** oprofile *)

(** [not node] for a node name that defaults to [None].  Where it is
    false the node is a name, [default "" node] below. *)
Definition no_node (node : option string) : bool :=
  match node with
  | None => true
  | Some n => bool_decide (n = "")
  end.

(** The three oprofile methods call themselves for every node of
    [self.Env["oprofile"]] when they get no node.  [depth] is the number of
    calls the interpreter still allows to nest; the result is [None] when a
    call would exceed it (RecursionError), which ends the callers too. *)
Fixpoint for_each (f : string -> M (option unit)) (l : list string) : M (option unit) :=
  match l with
  | [] => ret (Some ())
  | n :: rest =>
      r ← f n;
      match r with
      | Some _ => for_each f rest
      | None => ret None
      end
  end.

Fixpoint oprofileStart (depth : nat) (node : option string) : M (option unit) :=
  match depth with
  | O => ret None
  | S depth =>
      if no_node node then
        for_each (fun n => oprofileStart depth (Some n)) Env_oprofile
      else if decide (default "" node ∈ Env_oprofile) then
        debug (fmt lab "Enabling oprofile on %s" [default "" node]);;
        rsh lab (default "" node) "opcontrol --init";;
        rsh lab (default "" node)
            "opcontrol --setup --no-vmlinux --separate=lib --callgraph=20 --image=all";;
        rsh lab (default "" node) "opcontrol --start";;
        rsh lab (default "" node) "opcontrol --reset";;
        ret (Some ())
      else ret (Some ())
  end.

Fixpoint oprofileStop (depth : nat) (node : option string) : M (option unit) :=
  match depth with
  | O => ret None
  | S depth =>
      if no_node node then
        for_each (fun n => oprofileStop depth (Some n)) Env_oprofile
      else if decide (default "" node ∈ Env_oprofile) then
        debug (fmt lab "Stopping oprofile on %s" [default "" node]);;
        rsh lab (default "" node) "opcontrol --reset";;
        rsh lab (default "" node) "opcontrol --shutdown 2>&1 > /dev/null";;
        ret (Some ())
      else ret (Some ())
  end.

(** The branch [if None:] of line 570 is never taken. *)
Fixpoint oprofileSave (depth : nat) (test : Z) (node : option string) : M (option unit) :=
  match depth with
  | O => ret None
  | S depth =>
      if no_node node then
        for_each (fun n => oprofileSave depth test (Some n)) Env_oprofile
      else if decide (default "" node ∈ Env_oprofile) then
        rsh lab (default "" node) "opcontrol --dump";;
        rsh lab (default "" node) (fmt lab "opcontrol --save=cts.%d" [pretty test]);;
        r ← oprofileStop depth node;
        match r with
        | Some _ => oprofileStart depth node
        | None => ret None
        end
      else ret (Some ())
  end.

(** *** The quality of the links *)

(** [self.Env["XmitLoss"]] and [self.Env["RecvLoss"]], and for such a
    value [x] whether [float(x) != 0]: [None] when [float(x)] raises
    ValueError. *)
Variable Env_XmitLoss Env_RecvLoss : string.
Variable float_ne0 : string -> option bool.

Definition reducecomm_node (node : string) : M (option Z) :=
  rc ← rsh lab node (fmt lab (templates lab "ReduceCommCmd") [Env_XmitLoss; Env_RecvLoss]);
  if decide (rc = 0) then ret py_1
  else
    log (fmt lab "Could not reduce the communication between the nodes from node: %s" [node]);;
    ret None.

(** The result is [Converted r] when the method returns [r], and
    [FloatError x] when the conversion of [x] raises. *)
Definition restorecomm_node (node : string) : M (converted (option Z)) :=
  match float_ne0 Env_XmitLoss with
  | None => ret (FloatError Env_XmitLoss)
  | Some xmit =>
      match (if xmit then Some true else float_ne0 Env_RecvLoss) with
      | None => ret (FloatError Env_RecvLoss)
      | Some lossy =>
          rc ← (if lossy then rsh lab node (templates lab "RestoreCommCmd") else ret 0);
          if decide (rc = 0) then ret (Converted py_1)
          else
            log (fmt lab "Could not restore the communication between the nodes from node: %s"
                     [node]);;
            ret (Converted None)
      end
  end.

End Operations.

(** ** The object as a dictionary *)

(** A dictionary that keeps its keys in the order of their first
    assignment, as [self.data] does. *)
Fixpoint dict_get {A : Type} (d : list (string * A)) (key : string) : option A :=
  match d with
  | [] => None
  | (k, v) :: d' => if decide (k = key) then Some v else dict_get d' key
  end.

Fixpoint dict_set {A : Type} (d : list (string * A)) (key : string) (value : A)
    : list (string * A) :=
  match d with
  | [] => [(key, value)]
  | (k, v) :: d' =>
      if decide (k = key) then (k, value) :: d' else (k, v) :: dict_set d' key value
  end.

(** What [_finalConditions] ends with: it returns, or raises ValueError
    with a message. *)
Inductive checked : Type :=
| Conforms
| ValueError (msg : string).

Section UserDict.

Variable lab : Lab.

(** The values of the dictionary are [None] or a value of [V].  A string
    is such a value; [str_value] is what [%s] makes of a value, [repr_self]
    is [repr(self)], and [get_patterns] is
    [self.templates.get_patterns(kind, key)]. *)
Variable V : Type.
Variable of_str : string -> V.
Variable str_value : option V -> string.
Variable repr_self : list (string * option V) -> string.
Variable get_patterns : string -> string -> option V.

(** [self[key]], on the dictionary [data]. *)
Definition __getitem__ (data : list (string * option V)) (key : string) : M (option V) :=
  if decide (key = "Name") then ret (Some (of_str (Env_Name lab)))
  else
    emit (Print (fmt lab "FIXME: Getting %s from %s" [key; repr_self data]));;
    match dict_get data key with
    | Some v => ret v
    | None => ret (get_patterns (Env_Name lab) key)
    end.

(** [self[key] = value]: the result is the dictionary after it. *)
Definition __setitem__ (data : list (string * option V)) (key : string) (value : option V)
    : M (list (string * option V)) :=
  emit (Print (fmt lab "FIXME: Setting %s=%s on %s" [key; str_value value; repr_self data]));;
  ret (dict_set data key value).

(** Lines 119-121, on the keys that are left. *)
Fixpoint finalConditions_loop (data : list (string * option V)) (keys : list string)
    : M checked :=
  match keys with
  | [] => ret Conforms
  | key :: rest =>
      v ← __getitem__ data key;
      match v with
      | None =>
          ret (ValueError ("Improper derivation: self[" +:+ key
                           +:+ "] must be overridden by subclass."))
      | Some _ => finalConditions_loop data rest
      end
  end.

Definition _finalConditions (data : list (string * option V)) : M checked :=
  finalConditions_loop data data.*1.

End UserDict.

(** ** Reading the history *)

(** The blocking remote commands of a history, oldest first, each with the
    node it ran on and its exit code. *)
Fixpoint rsh_calls (h : list Event) : list (string * string * Z) :=
  match h with
  | [] => []
  | Rsh node cmd rc :: h' => rsh_calls h' ++ [(node, cmd, rc)]
  | _ :: h' => rsh_calls h'
  end.

(** The remote commands sent without waiting, oldest first. *)
Fixpoint noblock_calls (h : list Event) : list (string * string) :=
  match h with
  | [] => []
  | RshNoBlock node cmd :: h' => noblock_calls h' ++ [(node, cmd)]
  | _ :: h' => noblock_calls h'
  end.

(** How often the history blocks in [lookforall] on the session [name]. *)
Fixpoint count_waits (name : string) (h : list Event) : nat :=
  match h with
  | [] => 0%nat
  | LookForAll n _ :: h' => ((if String.eqb n name then 1 else 0) + count_waits name h')%nat
  | _ :: h' => count_waits name h'
  end.

(** How often the history opens a session called [name]. *)
Fixpoint count_opened (name : string) (h : list Event) : nat :=
  match h with
  | [] => 0%nat
  | NewWatch n _ _ :: h' => ((if String.eqb n name then 1 else 0) + count_opened name h')%nat
  | _ :: h' => count_opened name h'
  end.

(** The lines [look] reported, oldest first (a poll that timed out reports
    nothing). *)
Fixpoint looks (h : list Event) : list (option string) :=
  match h with
  | [] => []
  | Look _ _ shot :: h' => looks h' ++ [shot]
  | _ :: h' => looks h'
  end.

(** The events [fencing_cleanup] can cause. *)
Definition fc_event (e : Event) : Prop :=
  match e with
  | Log _ | Debug _ | Quorum _ | Look _ _ _ | WaitNodeUp _ _ | Stat _ _ | Sleep _ => True
  | _ => False
  end.

(** [s'] is [s] after more events, all of them in [P]. *)
Definition extends (P : Event -> Prop) (s s' : CM) : Prop :=
  ∃ new, history s' = new ++ history s ∧ Forall P new.

(** Every entry of the status table is as before or has become [st]. *)
Definition marks (st : string) (s s' : CM) : Prop :=
  ∀ k, ShouldBeStatus s' !! k = ShouldBeStatus s !! k ∨ ShouldBeStatus s' !! k = Some st.

(** What [fencing_cleanup] may do to the object: cause events of
    [fc_event], and set entries of the status table to the status that the
    at-boot flag selects. *)
Definition fc_rel (lab : Lab) (s s' : CM) : Prop :=
  extends fc_event s s' ∧ marks (if Env_at_boot lab then "up" else "down") s s'.

(** What the two loops over the session do to the object: events of
    [fc_event] only, and the status table stays as it is. *)
Definition quiet (s s' : CM) : Prop :=
  extends fc_event s s' ∧ ShouldBeStatus s' = ShouldBeStatus s.

(** The relations between states that admit the steps of the scan: they
    are preorders, and hold across an event of [fc_event] and across an
    addition to the errors to ignore. *)
Class FencingSteps (R : relation CM) : Prop := {
  fs_preorder :: PreOrder R;
  fs_push : ∀ e s, fc_event e -> R s (push e s);
  fs_ignore : ∀ pat s,
    R s (mkCM (ShouldBeStatus s) (instance_errorstoignore s ++ [pat]) (history s))
}.

(** A computation whose final state is always related to its initial
    state, whatever it returns or raises. *)
Definition preserves {A : Type} (R : relation CM) (m : M A) : Prop :=
  ∀ s, R s (m s).2.

(** The command that cuts the target off from [peer]. *)
Definition break_cmd (lab : Lab) (peer : string) : string :=
  fmt lab (templates lab "BreakCommCmd") [key_for_node peer].

(** ** A small laboratory for the examples *)

(** [template % args] for templates that only use [%s] and [%d]. *)
Fixpoint subst (template : string) (args : list string) : string :=
  match template with
  | String "%"%char (String c rest) =>
      if bool_decide (c = "s"%char ∨ c = "d"%char) then
        match args with
        | a :: args' => a +:+ subst rest args'
        | [] => subst rest []
        end
      else String "%"%char (String c (subst rest args))
  | String c rest => String c (subst rest args)
  | EmptyString => EmptyString
  end.

Definition ex_templates (key : string) : string :=
  if String.eqb key "Pat:Fencing_ok" then "fenced %s"
  else if String.eqb key "Pat:Fencing_start" then "fencing %s"
  else if String.eqb key "StartCmd" then "start"
  else if String.eqb key "StopCmd" then "stop"
  else if String.eqb key "RereadCmd" then "reread"
  else if String.eqb key "BreakCommCmd" then "break %s"
  else if String.eqb key "Name" then "pacemaker"
  else if String.eqb key "Pat:DC_IDLE" then "idle"
  else if String.eqb key "Pat:They_up" then "%s sees %s"
  else key +:+ " %s".

(** Whether [pattern] occurs in [line]: [re.search] for an expression
    without special characters. *)
Fixpoint occurs (pattern line : string) : bool :=
  String.prefix pattern line
  || match line with
     | EmptyString => false
     | String _ rest => occurs pattern rest
     end.

Definition ex_repr (s : string) : string := "'" +:+ s +:+ "'".

Definition ex_repr_list (l : list string) : string :=
  "[" +:+ String.concat ", " (map ex_repr l) +:+ "]".

(** A laboratory in which a line matches an expression when it is that
    expression, the cluster always settles and [lookforall] finds every
    expression; the rest is given. *)
Definition ex_lab (nodes : list string) (at_boot : bool)
    (rc : list Event -> string -> string -> Z)
    (quorum : list Event -> bool)
    (alive : list Event -> string -> bool)
    (feed : list Event -> string -> list string -> list (string * nat)) : Lab :=
  mkLab nodes at_boot 60 30 "pacemaker" ex_templates subst ex_repr ex_repr_list String.eqb
        rc quorum alive (fun _ _ => true) feed (fun _ _ => (true, [])).

(** An object that has done nothing yet, with the given status table. *)
Definition ex_cm (table : list (string * string)) : CM :=
  mkCM (list_to_map table) [] [].

(** The number of blocking remote commands in a history. *)
Definition rsh_count (h : list Event) : nat := length (rsh_calls h).

(** The answer [HasQuorum] gives to [fencing_cleanup] when it is called
    for [node] in state [s]. *)
Definition cleanup_quorum (lab : Lab) (node : string) (s : CM) : bool :=
  has_quorum lab
    (Debug (fmt lab "Looking for nodes that were fenced as a result of %s starting" [node])
     :: history s).

(** The expressions of a peer. *)
Definition ok_pat (lab : Lab) (n : string) : string :=
  fmt lab (templates lab "Pat:Fencing_ok") [n].
Definition start_pat (lab : Lab) (n : string) : string :=
  fmt lab (templates lab "Pat:Fencing_start") [n].

(** A line that matches no expression of any configured node. *)
Definition unrecognized (lab : Lab) (line : string) : Prop :=
  ∀ n, n ∈ Env_nodes lab ->
       re_search lab (ok_pat lab n) line = false
       ∧ re_search lab (start_pat lab n) line = false.

(** The status the at-boot flag selects for a fenced peer. *)
Definition fenced_status (lab : Lab) : string :=
  if Env_at_boot lab then "up" else "down".

(** The events that end a pass on the peer [p] that did not restart: the
    liveness check fails, [StartTime] is slept, the check fails again (or
    the first check succeeds and the second fails), the error is logged. *)
Definition restart_failure (lab : Lab) (p : string) (h : list Event) : Prop :=
  ∃ h',
    h = Log (fmt lab "ERROR: Peer %s failed to restart after being fenced" [p])
        :: Stat p false :: Sleep (Env_StartTime lab) :: Stat p false :: h'
    ∨ h = Log (fmt lab "ERROR: Peer %s failed to restart after being fenced" [p])
          :: Stat p false :: Stat p true :: h'.

(** What the loop over the peers [peers] of lines 259-288 has done when it
    returns [r], from state [s] to state [s'].  With the list returned,
    every peer has the status the at-boot flag selects, no other entry
    changed, and with at-boot set a liveness check of every peer answered
    that it runs.  With None returned, at-boot is set; the loop stopped at a
    peer [p] that failed to restart; [p] and the peers before it are marked
    up and no other entry changed. *)
Definition settle_post (lab : Lab) (peers peer_list : list string) (s : CM)
    (r : option (list string)) (s' : CM) : Prop :=
  match r with
  | Some l =>
      l = peer_list
      ∧ (∀ p, p ∈ peers -> ShouldBeStatus s' !! p = Some (fenced_status lab))
      ∧ (∀ q, q ∉ peers -> ShouldBeStatus s' !! q = ShouldBeStatus s !! q)
      ∧ (Env_at_boot lab = true -> ∀ p, p ∈ peers -> Stat p true ∈ history s')
  | None =>
      Env_at_boot lab = true
      ∧ ∃ done p rest,
          peers = done ++ p :: rest
          ∧ (∀ q, q ∈ done ++ [p] -> ShouldBeStatus s' !! q = Some "up")
          ∧ (∀ q, q ∉ done ++ [p] -> ShouldBeStatus s' !! q = ShouldBeStatus s !! q)
          ∧ restart_failure lab p (history s')
  end.

(** What a pass of [fencing_cleanup] has done to the status table when it
    returns [r].  With a list returned, every peer of the list has the
    status the at-boot flag selects, and with at-boot set a liveness check
    of the peer answered that it runs.  None is only returned with at-boot
    set: the peers found, without repetition, are [done ++ p :: rest]; [p]
    failed to restart, which is the last thing the pass logs; [p] and the
    peers before it are marked up, the entries of the peers after it are as
    they were before the pass. *)
Definition cleanup_post (lab : Lab) (s : CM) (r : option (list string)) (s' : CM) : Prop :=
  match r with
  | Some l =>
      ∀ p, p ∈ l ->
           ShouldBeStatus s' !! p = Some (fenced_status lab)
           ∧ (Env_at_boot lab = true -> Stat p true ∈ history s')
  | None =>
      Env_at_boot lab = true
      ∧ ∃ done p rest,
          NoDup (done ++ p :: rest)
          ∧ (∀ q, q ∈ done ++ [p] -> ShouldBeStatus s' !! q = Some "up")
          ∧ (∀ q, q ∈ rest -> ShouldBeStatus s' !! q = ShouldBeStatus s !! q)
          ∧ restart_failure lab p (history s')
  end.

(** [line] reports that the fencing of [B] started, and nothing about any
    other configured node. *)
Definition reports_start (lab : Lab) (B line : string) : Prop :=
  ∀ n, n ∈ Env_nodes lab ->
       re_search lab (ok_pat lab n) line = false
       ∧ (re_search lab (start_pat lab n) line = true ↔ n = B).

(** [line] reports that the fencing of [B] completed, and nothing about
    any other configured node. *)
Definition reports_ok (lab : Lab) (B line : string) : Prop :=
  ∀ n, n ∈ Env_nodes lab ->
       (re_search lab (ok_pat lab n) line = true ↔ n = B)
       ∧ (n ≠ B -> re_search lab (start_pat lab n) line = false).

(** The events that run no remote command and do not concern the session
    that [startall] opens for all nodes. *)
Definition calm_event (e : Event) : Prop :=
  match e with
  | Rsh _ _ _ | RshNoBlock _ _ => False
  | NewWatch n _ _ | SetWatch n | LookForAll n _ => n ≠ "fast-start"
  | _ => True
  end.

(** The relations between states that hold across every event of
    [calm_event]. *)
Class CalmSteps (R : relation CM) : Prop := {
  cs_preorder :: PreOrder R;
  cs_push : ∀ e s, calm_event e -> R s (push e s)
}.

(** More events of [calm_event], and the same status table. *)
Definition calm (s s' : CM) : Prop :=
  extends calm_event s s' ∧ ShouldBeStatus s' = ShouldBeStatus s.

(** What a start of [node] may add to the history: no command sent without
    waiting, no wait on a session for all nodes and no such session opened,
    and at most one blocking command, the start command on [node]. *)
Definition start_rel (lab : Lab) (node : string) (s s' : CM) : Prop :=
  ∃ new,
    history s' = new ++ history s
    ∧ noblock_calls new = []
    ∧ count_waits "fast-start" new = 0%nat
    ∧ count_opened "fast-start" new = 0%nat
    ∧ (rsh_calls new = []
       ∨ ∃ rc, rsh_calls new = [(node, templates lab "StartCmd", rc)]).

(** Every value the computation returns satisfies [Q]. *)
Definition returns {A : Type} (Q : A -> Prop) (m : M A) : Prop :=
  ∀ s a s', m s = (Ret a, s') -> Q a.

(** The line [StartaCM] and [StopaCM] begin with. *)
Definition announce (verbose : bool) (msg : string) : Event :=
  if verbose then Log msg else Debug msg.

(** How a successful [StartaCM] on [node] leaves the status table, from
    state [s] to state [s']: the entry was not down and nothing changed; or
    the node was found running and its entry is any; or the start command
    was run and the entry is up; or the start command was run, at-boot is
    false and the entry is down (the fencing cleanup of the start found the
    node itself among the fenced peers). *)
Definition start_success (lab : Lab) (node : string) (s s' : CM) : Prop :=
  (∃ st, ShouldBeStatus s !! node = Some st ∧ st ≠ "down"
         ∧ ShouldBeStatus s' = ShouldBeStatus s
         ∧ rsh_calls (history s') = rsh_calls (history s))
  ∨ (ShouldBeStatus s' !! node = Some "any"
     ∧ (∃ h, history s' = Log (fmt lab "%s was already started" [node]) :: h)
     ∧ rsh_calls (history s') = rsh_calls (history s))
  ∨ (ShouldBeStatus s' !! node = Some "up"
     ∧ ∃ rc, rsh_calls (history s')
             = rsh_calls (history s) ++ [(node, templates lab "StartCmd", rc)])
  ∨ (Env_at_boot lab = false
     ∧ ShouldBeStatus s' !! node = Some "down"
     ∧ ∃ rc, rsh_calls (history s')
             = rsh_calls (history s) ++ [(node, templates lab "StartCmd", rc)]).

(** How a successful [StopaCM] on [node] leaves the status table: the stop
    command was run with exit code 0 and the entry is down; or the call was
    not forced, the entry was not up, and nothing changed. *)
Definition stop_success (lab : Lab) (node : string) (force : bool) (s s' : CM) : Prop :=
  (ShouldBeStatus s' !! node = Some "down"
   ∧ rsh_calls (history s')
     = rsh_calls (history s) ++ [(node, templates lab "StopCmd", 0)])
  ∨ (force = false
     ∧ ∃ st, ShouldBeStatus s !! node = Some st ∧ st ≠ "up"
             ∧ ShouldBeStatus s' = ShouldBeStatus s
             ∧ rsh_calls (history s') = rsh_calls (history s)).

(** The state in which [StartaCM] leaves the object when it only announces
    itself. *)
Definition announced (lab : Lab) (node : string) (verbose : bool) (s : CM) : CM :=
  push (announce verbose (fmt lab "Starting %s on node %s" [templates lab "Name"; node])) s.

(** What a quick [startall] of the nodes [nodelist], whose first is
    [first], has done when it returns [r].  It has opened the session for
    all nodes once, with the expressions of every node of the list.  It has
    run at most one blocking command, the start command on [first].  Then
    either the start of [first] failed: the result is 0, no command was sent
    without waiting and the session was not waited on; or the start command
    was sent without waiting to every node of the list, the first
    included, in list order, and the session was waited on once. *)
Definition quick_start_post (lab : Lab) (nodelist : list string) (first : string)
    (s : CM) (r : option Z) (s' : CM) : Prop :=
  count_opened "fast-start" (history s') = S (count_opened "fast-start" (history s))
  ∧ NewWatch "fast-start"
      ([templates lab "Pat:DC_IDLE"] ++ fast_start_patterns lab nodelist first)
      (Env_DeadTime lab + 10) ∈ history s'
  ∧ (rsh_calls (history s') = rsh_calls (history s)
     ∨ ∃ rc, rsh_calls (history s')
             = rsh_calls (history s) ++ [(first, templates lab "StartCmd", rc)])
  ∧ ((r = py_0
      ∧ noblock_calls (history s') = noblock_calls (history s)
      ∧ count_waits "fast-start" (history s') = count_waits "fast-start" (history s))
     ∨ (noblock_calls (history s')
        = noblock_calls (history s)
          ++ map (fun n => (n, templates lab "StartCmd")) nodelist
        ∧ count_waits "fast-start" (history s')
          = S (count_waits "fast-start" (history s)))).

(** ** What the statements about the remaining operations say *)

(** The first node of the list that has no entry in the status table. *)
Definition first_unknown (table : gmap string string) (nodes : list string) : option string :=
  head (filter (fun n => table !! n = None) nodes).

(** The nodes of the list whose entry is [st]. *)
Definition nodes_in (st : string) (table : gmap string string) (nodes : list string)
    : list string :=
  filter (fun n => table !! n = Some st) nodes.

(** The fencing expressions of the nodes of a list: for every node its
    [Pat:Fencing_ok] expression, followed by its [Pat:Fencing_start]
    expression. *)
Definition fencing_patterns_of (lab : Lab) (nodes : list string) : list string :=
  flat_map (fun n => [ok_pat lab n; start_pat lab n]) nodes.

(** The nodes of the list whose entry is not up. *)
Definition not_up (table : gmap string string) (nodes : list string) : list string :=
  filter (fun n => table !! n ≠ Some "up") nodes.

(** An expression that reports the fencing of a configured node. *)
Definition fencing_pattern (lab : Lab) (pat : string) : Prop :=
  ∃ n, n ∈ Env_nodes lab ∧ (pat = ok_pat lab n ∨ pat = start_pat lab n).

(** The list of errors to ignore has grown, by entries in [P]. *)
Definition adds (P : string -> Prop) (s s' : CM) : Prop :=
  ∃ new, instance_errorstoignore s' = instance_errorstoignore s ++ new ∧ Forall P new.

(** The line [StopaCM] begins with. *)
Definition stopping (lab : Lab) (node : string) (verbose : bool) : Event :=
  announce verbose (fmt lab "Stopping %s on node %s" [Env_Name lab; node]).

(** The word [statall] records for an answer of [StataCM]. *)
Definition status_word (alive : bool) : string := if alive then "up" else "down".

(** The command that restores the link to [peer]. *)
Definition fix_cmd (lab : Lab) (peer : string) : string :=
  fmt lab (templates lab "FixCommCmd") [key_for_node peer].

(** The commands that restore the links between [target] and the peers:
    for every peer the command on the target, then the command on the
    peer. *)
Definition fix_calls (lab : Lab) (target : string) (peers : list string)
    : list (string * string) :=
  flat_map (fun p => [(target, fix_cmd lab p); (p, fix_cmd lab target)]) peers.

(** The commands of [oprofileStart]. *)
Definition start_cmds : list string :=
  ["opcontrol --init";
   "opcontrol --setup --no-vmlinux --separate=lib --callgraph=20 --image=all";
   "opcontrol --start";
   "opcontrol --reset"].

(** The commands of [oprofileStop]. *)
Definition stop_cmds : list string :=
  ["opcontrol --reset"; "opcontrol --shutdown 2>&1 > /dev/null"].

(** The commands of [oprofileSave] for the test number [test]: it dumps
    and saves, then stops and starts the profiler again. *)
Definition save_cmds (lab : Lab) (test : Z) : list string :=
  ["opcontrol --dump"; fmt lab "opcontrol --save=cts.%d" [pretty test]]
  ++ stop_cmds ++ start_cmds.

(** The commands [cmds], in order, on the node [n]. *)
Definition on_node (cmds : list string) (n : string) : list (string * string) :=
  map (fun c => (n, c)) cmds.

(** What running [cmds] on the nodes [nodes], one node after the other,
    does to the object: the call returns, the blocking commands are these,
    and nothing else is sent or changed. *)
Definition runs (cmds : list string) (nodes : list string)
    (o : outcome (option unit) * CM) (s : CM) : Prop :=
  o.1 = Ret (Some ())
  ∧ ShouldBeStatus o.2 = ShouldBeStatus s
  ∧ (rsh_calls (history o.2)).*1
    = (rsh_calls (history s)).*1 ++ flat_map (on_node cmds) nodes
  ∧ noblock_calls (history o.2) = noblock_calls (history s).

(** A call that returns (it raises nothing), with whatever result. *)
Definition returns_some {A : Type} (m : M A) : Prop := ∀ s, ∃ r, (m s).1 = Ret r.

(** Whether the check of [_finalConditions] fails on [key]: the key is not
    ["Name"] and the dictionary holds [None] for it. *)
Definition unset {A : Type} (data : list (string * option A)) (key : string) : bool :=
  bool_decide (key ≠ "Name")
  && match dict_get data key with
     | Some None => true
     | _ => false
     end.

(** The first key of the dictionary, in the order of the keys, on which
    the check fails. *)
Definition first_None {A : Type} (data : list (string * option A)) : option string :=
  head (filter (unset data) data.*1).

(** An event that prints. *)
Definition prints (e : Event) : Prop :=
  match e with
  | Print _ => True
  | _ => False
  end.

(** Every entry of a node other than [node] is as before or has become the
    status the at-boot flag selects for a fenced peer. *)
Definition others_marked (lab : Lab) (node : string) (s s' : CM) : Prop :=
  ∀ k, k ≠ node ->
       ShouldBeStatus s' !! k = ShouldBeStatus s !! k
       ∨ ShouldBeStatus s' !! k = Some (fenced_status lab).

(** The history has grown. *)
Definition grows (s s' : CM) : Prop := extends (fun _ => True) s s'.

(** The expressions [StartaCM] watches for on [node], given the status
    table it is called with. *)
Definition start_patterns (lab : Lab) (node : string) (table : gmap string string)
    : list string :=
  [fmt lab (templates lab "Pat:Local_started") [node];
   if decide (nodes_in "up" table (Env_nodes lab) = [])
   then fmt lab (templates lab "Pat:DC_started") [node]
   else fmt lab (templates lab "Pat:NonDC_started") [node]].

(** The nodes [stopall] stops: all of them when forced, otherwise those
    whose entry is up. *)
Definition to_stop (force : bool) (table : gmap string string) (nodes : list string)
    : list string :=
  if force then nodes else nodes_in "up" table nodes.

(** The peers of the list are configured nodes, with a name. *)
Definition listed (lab : Lab) (l : list string) : Prop :=
  Forall (fun p => p ∈ Env_nodes lab ∧ p ≠ "") l.

(** The line a start logs for an expression its session did not find. *)
Definition not_found (lab : Lab) (regex : string) : Event :=
  Log (fmt lab "Warn: Startup pattern not found: %s" [regex]).

(** The events of a start of [node] from its wait on the session to its
    end, newest first, when nothing confirmed the start: the session
    answered [ans] and left the expressions [um] unmatched, which are
    logged; the session did not find all expressions, or it did and the
    cluster did not settle; the node did not answer the liveness check, or
    it did and the cluster did not settle; the failure is logged. *)
Definition unconfirmed (lab : Lab) (node : string) (new : list Event) : Prop :=
  ∃ ans um first second,
    new = Log (fmt lab "Warn: Start failed for node %s" [node])
          :: second ++ first ++ reverse (not_found lab <$> um)
          ++ [LookForAll "StartaCM" ans]
    ∧ first = (if ans then [Stable (Some (Env_DeadTime lab)) false] else [])
    ∧ (second = [Stat node false]
       ∨ second = [Stable (Some (Env_DeadTime lab)) false; Stat node true]).

(** The run of a quick [startall] of the nodes [nodelist], whose first is
    [first], from [s] to the result [r] and the state [s'].  After the
    wait for the nodes that are down, which leaves [sw], the session for
    all nodes is opened and armed, and [StartaCM] is run on [first], from
    that state; it returns [r1] and leaves [s1].  Either that start
    failed: [r1] is None, the result is 0 and nothing was done after it.
    Or it succeeded: [r1] is 1, the start command is sent without waiting
    to the nodes of the list, which leaves [s2]; the session is waited
    on, a warning is logged for each expression it left unmatched, and
    the cluster is checked once for having settled; the result is 1 if it
    has, and 0, with a line in the log, if it has not. *)
Definition quick_start_run (lab : Lab) (nodelist : list string) (first : string)
    (verbose : bool) (s : CM) (r : option Z) (s' : CM) : Prop :=
  ∃ node sw r1 s1,
    wait_loop nodelist nodelist None s = (Ret node, sw)
    ∧ StartaCM lab first verbose
        (push (SetWatch "fast-start")
           (push (NewWatch "fast-start"
                    ([templates lab "Pat:DC_IDLE"] ++ fast_start_patterns lab nodelist first)
                    (Env_DeadTime lab + 10)) sw))
      = (Ret r1, s1)
    ∧ ((r1 = None ∧ r = py_0 ∧ s' = s1)
       ∨ (r1 = py_1
          ∧ ∃ s2 (ans : bool) (um : list string) (settled : bool),
              noblock_loop lab nodelist verbose s1 = (Ret (), s2)
              ∧ ShouldBeStatus s' = ShouldBeStatus s2
              ∧ instance_errorstoignore s' = instance_errorstoignore s2
              ∧ history s'
                = (if settled then [] else [Log "Cluster did not stabilize"])
                  ++ Stable None settled :: reverse (not_found lab <$> um)
                  ++ LookForAll "fast-start" ans :: history s2
              ∧ r = (if settled then py_1 else py_0))).

(** * Properties *)

Lemma rsh_calls_app (h1 h2 : list Event) :
  rsh_calls (h1 ++ h2) = rsh_calls h2 ++ rsh_calls h1.
Proof.
  induction h1 as [|e h1 IH]; simpl.
  - by rewrite app_nil_r.
  - destruct e; rewrite ?IH ?app_assoc; done.
Qed.

Lemma noblock_calls_app (h1 h2 : list Event) :
  noblock_calls (h1 ++ h2) = noblock_calls h2 ++ noblock_calls h1.
Proof.
  induction h1 as [|e h1 IH]; simpl.
  - by rewrite app_nil_r.
  - destruct e; rewrite ?IH ?app_assoc; done.
Qed.

(** ** isolate_node *)

Section Isolate.

Variable lab : Lab.

Lemma isolate_loop_calls (target : string) (nodes : list string) (s : CM) :
  ∃ r new,
    isolate_loop lab target nodes s
      = (Ret r, mkCM (ShouldBeStatus s) (instance_errorstoignore s) (new ++ history s))
    ∧ ((r = py_1
        ∧ rsh_calls new
          = map (fun p => (target, break_cmd lab p, 0)) (filter (.≠ target) nodes))
       ∨ (∃ done p rest rc,
            filter (.≠ target) nodes = done ++ p :: rest
            ∧ rc ≠ 0 ∧ r = None
            ∧ rsh_calls new
              = map (fun p => (target, break_cmd lab p, 0)) done ++ [(target, break_cmd lab p, rc)])).
Proof.
  revert s. induction nodes as [|n nodes IH]; intros s.
  - exists py_1, []. split; [by destruct s|]. left. done.
  - cbn [isolate_loop]. destruct (decide (n ≠ target)) as [Hn|Hn].
    + rewrite filter_cons_True //.
      unfold bind at 1, rsh; cbn.
      set (rc := rsh_rc lab (history s) target _).
      destruct (decide (rc ≠ 0)) as [Hrc|Hrc].
      * eexists None, [Log _; Rsh _ _ rc]. split; [reflexivity|].
        right. exists [], n, (filter (.≠ target) nodes), rc. done.
      * apply dec_stable in Hrc.
        unfold bind, log, debug, emit; cbn.
        edestruct (IH (mkCM (ShouldBeStatus s) (instance_errorstoignore s)
                         (Debug (fmt lab "Communication cut between %s and %s" [target; n])
                          :: Rsh target (break_cmd lab n) rc :: history s)))
          as (r & new & Heq & Hcases).
        cbn in Heq. unfold break_cmd, key_for_node in Heq.
        exists r, (new ++ [Debug (fmt lab "Communication cut between %s and %s" [target; n]);
                           Rsh target (break_cmd lab n) rc]).
        split.
        { unfold break_cmd, key_for_node. fold rc. rewrite Heq -app_assoc //. }
        rewrite rsh_calls_app. cbn. rewrite Hrc.
        destruct Hcases as [[-> Hc]|(done & p & rest & rc' & Hf & Hne & -> & Hc)].
        -- left. rewrite Hc //.
        -- right. exists (n :: done), p, rest, rc'. rewrite Hf Hc //.
    + rewrite filter_cons_False; [apply IH | done].
Qed.

End Isolate.

(** ** Relating the state before and after a computation *)

Section Preserves.

Context {R : relation CM} `{!PreOrder R}.

Lemma preserves_ret {A : Type} (a : A) : preserves R (ret a).
Proof. intros s. reflexivity. Qed.

Lemma preserves_raise {A : Type} (e : exn) : preserves R (@raise A e).
Proof. intros s. reflexivity. Qed.

Lemma preserves_bind {A B : Type} (m : M A) (f : A -> M B) :
  preserves R m -> (∀ a, preserves R (f a)) -> preserves R (bind m f).
Proof.
  intros Hm Hf s. unfold bind. specialize (Hm s).
  destruct (m s) as [[a|e] s1]; cbn in *; [|done].
  etrans; [exact Hm|apply Hf].
Qed.

Lemma preserves_status_get (node : string) : preserves R (status_get node).
Proof. intros s. unfold status_get. by destruct (_ !! _). Qed.

Lemma preserves_getitem (d : gmap string string) (key : string) :
  preserves R (getitem d key).
Proof. intros s. unfold getitem. by destruct (_ !! _). Qed.

Lemma preserves_del_at (l : list string) (i : nat) : preserves R (del_at l i).
Proof. intros s. unfold del_at. by destruct (decide _). Qed.

End Preserves.

#[global] Instance extends_preorder (P : Event -> Prop) : PreOrder (extends P).
Proof.
  split.
  - intros s. by exists [].
  - intros s1 s2 s3 (n1 & H1 & F1) (n2 & H2 & F2).
    exists (n2 ++ n1). rewrite H2 H1 app_assoc. split; [done|]. by apply Forall_app.
Qed.

#[global] Instance marks_preorder (st : string) : PreOrder (marks st).
Proof.
  split.
  - intros s k. by left.
  - intros s1 s2 s3 H1 H2 k.
    destruct (H2 k) as [->| ->]; [apply H1|by right].
Qed.

#[global] Instance fc_rel_preorder (lab : Lab) : PreOrder (fc_rel lab).
Proof.
  split.
  - intros s. split; reflexivity.
  - intros s1 s2 s3 [E1 M1] [E2 M2]. split; etrans; eauto.
Qed.

Lemma extends_push (P : Event -> Prop) (e : Event) (s : CM) :
  P e -> extends P s (push e s).
Proof. intros He. exists [e]. split; [done|]. by constructor. Qed.

Lemma extends_elem (P : Event -> Prop) (s s' : CM) (e : Event) :
  extends P s s' -> e ∈ history s -> e ∈ history s'.
Proof. intros (new & -> & _) He. apply elem_of_app. by right. Qed.

Lemma extends_weaken (P Q : Event -> Prop) (s s' : CM) :
  (∀ e, P e -> Q e) -> extends P s s' -> extends Q s s'.
Proof. intros HPQ (new & H & F). exists new. split; [done|]. eapply Forall_impl; eauto. Qed.

(** ** What fencing_cleanup can do to the object *)

#[global] Instance quiet_preorder : PreOrder quiet.
Proof.
  split.
  - intros s. split; reflexivity.
  - intros s1 s2 s3 [E1 T1] [E2 T2]. split; [by etrans|congruence].
Qed.

#[global] Instance quiet_steps : FencingSteps quiet.
Proof.
  split; [apply _| |].
  - intros e s He. split; [by apply extends_push|done].
  - intros pat s. split; [by exists []|done].
Qed.

#[global] Instance fc_rel_steps (lab : Lab) : FencingSteps (fc_rel lab).
Proof.
  split; [apply _| |].
  - intros e s He. split; [by apply extends_push|]. intros k. by left.
  - intros pat s. split; [by exists []|]. intros k. by left.
Qed.

Section FencingFrame.

Variable lab : Lab.
Context {R : relation CM} `{!FencingSteps R}.

Lemma fc_emit (e : Event) : fc_event e -> preserves R (emit e).
Proof. intros He s. by apply fs_push. Qed.

Lemma fc_ignore_append (pat : string) : preserves R (ignore_append pat).
Proof. intros s. apply fs_ignore. Qed.

Lemma fc_HasQuorum : preserves R (HasQuorum lab).
Proof. intros s. by apply fs_push. Qed.

Lemma fc_StataCM (node : string) : preserves R (StataCM lab node).
Proof. intros s. by apply fs_push. Qed.

Ltac fc_step :=
  first
    [ apply preserves_ret | apply preserves_raise
    | apply preserves_getitem | apply preserves_del_at
    | apply fc_ignore_append
    | apply fc_HasQuorum | apply fc_StataCM
    | apply fc_emit; exact I
    | apply preserves_bind;
      [|intros ?; repeat match goal with x : (_ * _)%type |- _ => destruct x end]
    | match goal with
      | |- preserves _ (if ?c then _ else _) => destruct c
      | |- preserves _ (match ?c with _ => _ end) => destruct c
      | IH : ∀ _, _ |- _ => apply IH
      end ].

Lemma fc_match_peers (nodes : list string) (shot : string)
    (peer : option string) (peer_state : gmap string string) :
  preserves R (match_peers lab nodes shot peer peer_state).
Proof.
  revert peer peer_state. induction nodes as [|n nodes IH]; intros peer peer_state; cbn;
    repeat fc_step.
Qed.

Lemma fc_record_peer (line : string) (peer : option string) (peer_list : list string) :
  preserves R (record_peer lab line peer peer_list).
Proof. unfold record_peer, log, debug. repeat fc_step. Qed.

Lemma fc_scan_loop (timeout : Z) (feed : list (string * nat)) (stonith : LogWatcher)
    (peer : option string) (peer_list : list string) (peer_state : gmap string string) :
  preserves R (scan_loop lab timeout feed stonith peer peer_list peer_state).
Proof.
  revert timeout stonith peer peer_list peer_state.
  induction feed as [|[shot which] feed IH]; intros timeout stonith peer peer_list peer_state;
    cbn; unfold debug;
    repeat first [apply fc_match_peers | apply fc_record_peer | fc_step].
Qed.

Lemma fc_drain_loop (feed : list (string * nat)) (stonith : LogWatcher) :
  preserves R (drain_loop lab feed stonith).
Proof.
  revert stonith. induction feed as [|[shot which] feed IH]; intros stonith;
    cbn; unfold debug; repeat fc_step.
Qed.

(** The loop over the peers, for a relation that also holds across the
    assignments to the status table. *)
Hypothesis fs_status_set : ∀ peer,
  preserves R (status_set peer (if Env_at_boot lab then "up" else "down")).

Lemma fc_settle_peers (node : string) (peers peer_list : list string)
    (peer_state : gmap string string) (stonith : LogWatcher) :
  preserves R (settle_peers lab node peers peer_list peer_state stonith).
Proof.
  revert stonith. induction peers as [|peer peers IH]; intros stonith;
    cbn; unfold debug, log;
    repeat first [apply fc_drain_loop | apply fs_status_set | fc_step].
Qed.

Lemma fc_fencing_cleanup (node : string) (stonith : option LogWatcher) :
  preserves R (fencing_cleanup lab node stonith).
Proof.
  unfold fencing_cleanup, debug.
  repeat first [apply fc_scan_loop | apply fc_settle_peers | fc_step].
Qed.

End FencingFrame.

Lemma fc_rel_status_set (lab : Lab) (peer : string) :
  preserves (fc_rel lab) (status_set peer (if Env_at_boot lab then "up" else "down")).
Proof.
  intros s. split; [by exists []|]. intros k. cbn.
  destruct (decide (peer = k)) as [->|Hne].
  - right. by rewrite lookup_insert_eq.
  - left. by rewrite lookup_insert_ne.
Qed.

Lemma settle_peers_preserves (lab : Lab) (node : string) (peers peer_list : list string)
    (peer_state : gmap string string) (stonith : LogWatcher) :
  preserves (fc_rel lab) (settle_peers lab node peers peer_list peer_state stonith).
Proof. apply fc_settle_peers; [apply _|apply fc_rel_status_set]. Qed.

Lemma fencing_cleanup_preserves (lab : Lab) (node : string) (stonith : option LogWatcher) :
  preserves (fc_rel lab) (fencing_cleanup lab node stonith).
Proof. apply fc_fencing_cleanup; [apply _|apply fc_rel_status_set]. Qed.

(** ** Taking a computation apart *)

Lemma bind_Ret_inv {A B : Type} (m : M A) (f : A -> M B) (s s' : CM) (b : B) :
  bind m f s = (Ret b, s') ->
  ∃ a s1, m s = (Ret a, s1) ∧ f a s1 = (Ret b, s').
Proof.
  unfold bind. destruct (m s) as [[a|e] s1]; [|done]. intros H. by exists a, s1.
Qed.

Lemma bind_Ret {A B : Type} (m : M A) (f : A -> M B) (s s1 : CM) (a : A) :
  m s = (Ret a, s1) -> bind m f s = f a s1.
Proof. unfold bind. by intros ->. Qed.

Lemma bind_Raise {A B : Type} (m : M A) (f : A -> M B) (s s1 : CM) (e : exn) :
  m s = (Raise e, s1) -> bind m f s = (Raise e, s1).
Proof. unfold bind. by intros ->. Qed.

(** ** C9: isolate_node *)

(** C9.  [isolate_node] never raises and leaves the status table alone.
    Either every command returned 0: then it returns 1 and has issued one
    break-communication command, on the target, per peer of the list other
    than the target, in list order.  Or some command returned non-zero:
    then it returns None, and the commands issued are those for the peers
    up to and including the failing one, none for the peers after it. *)
Theorem isolate_node_commands (lab : Lab) (target : string)
    (nodes : option (list string)) (s : CM) :
  ∃ r new,
    isolate_node lab target nodes s
      = (Ret r, mkCM (ShouldBeStatus s) (instance_errorstoignore s) (new ++ history s))
    ∧ ((r = py_1
        ∧ rsh_calls new
          = map (fun p => (target, break_cmd lab p, 0))
                (filter (.≠ target) (default_nodes lab nodes)))
       ∨ (∃ done p rest rc,
            filter (.≠ target) (default_nodes lab nodes) = done ++ p :: rest
            ∧ rc ≠ 0 ∧ r = None
            ∧ rsh_calls new
              = map (fun p => (target, break_cmd lab p, 0)) done
                ++ [(target, break_cmd lab p, rc)])).
Proof. apply isolate_loop_calls. Qed.

(** With three peers and a failure of the second command, the third
    command is not issued. *)
Example isolate_second_of_three :
  let lab := ex_lab ["T"; "A"; "B"; "C"] false
               (fun h _ _ => if decide (rsh_count h = 1%nat) then 1 else 0)
               (fun _ => true) (fun _ _ => true) (fun _ _ _ => []) in
  let r := isolate_node lab "T" (Some ["A"; "B"; "C"]) (ex_cm []) in
  r.1 = Ret None
  ∧ rsh_calls (history r.2) = [("T", "break A", 0); ("T", "break B", 1)].
Proof. vm_compute. done. Qed.

(** ** C7: fencing_cleanup without quorum *)

(** C7.  When the cluster has no quorum and more than two nodes are
    configured, [fencing_cleanup] with a session returns the empty list;
    the session object is as it was (outstanding expressions and matches
    not yet reported), no [look] is made, and the status table and the
    list of errors to ignore are unchanged. *)
Theorem fencing_cleanup_no_quorum (lab : Lab) (node : string) (stonith : LogWatcher) (s : CM) :
  cleanup_quorum lab node s = false ->
  (2 < length (Env_nodes lab))%nat ->
  ∃ s',
    fencing_cleanup lab node (Some stonith) s = (Ret (Some [], Some stonith), s')
    ∧ looks (history s') = looks (history s)
    ∧ ShouldBeStatus s' = ShouldBeStatus s
    ∧ instance_errorstoignore s' = instance_errorstoignore s.
Proof.
  intros Hq Hlen. unfold cleanup_quorum in Hq.
  unfold fencing_cleanup, bind, debug, emit, HasQuorum. cbn.
  rewrite Hq. rewrite bool_decide_true //. cbn.
  eexists. split; [reflexivity|]. done.
Qed.

Lemma fencing_cleanup_no_quorum_witness :
  let lab := ex_lab ["A"; "B"; "C"] false (fun _ _ _ => 0) (fun _ => false)
               (fun _ _ => true) (fun _ _ _ => []) in
  let w := mkLogWatcher "StartupFencing" ["fenced B"; "fencing B"] 0 [] [("fenced B", 0%nat)] in
  let s := ex_cm [("A", "up"); ("B", "down"); ("C", "down")] in
  cleanup_quorum lab "A" s = false
  ∧ (2 < length (Env_nodes lab))%nat
  ∧ ∃ s',
      fencing_cleanup lab "A" (Some w) s = (Ret (Some [], Some w), s')
      ∧ looks (history s') = looks (history s)
      ∧ ShouldBeStatus s' = ShouldBeStatus s
      ∧ instance_errorstoignore s' = instance_errorstoignore s.
Proof.
  split; [reflexivity|]. split; [simpl; lia|].
  apply (fencing_cleanup_no_quorum
           (ex_lab ["A"; "B"; "C"] false (fun _ _ _ => 0) (fun _ => false)
                   (fun _ _ => true) (fun _ _ _ => []))).
  - reflexivity.
  - simpl. lia.
Defined.

(** ** The scan of fencing_cleanup *)

Lemma unknown_states_lookup (nodes : list string) (n : string) :
  n ∈ nodes -> unknown_states nodes !! n = Some "unknown".
Proof.
  unfold unknown_states.
  assert (∀ (m : gmap string string),
            (n ∈ nodes ∨ m !! n = Some "unknown") ->
            foldl (fun ps k => <[k := "unknown"]> ps) m nodes !! n = Some "unknown") as H.
  { induction nodes as [|k nodes IH]; intros m [Hin|Hm]; cbn; try done.
    - by apply elem_of_nil in Hin.
    - apply IH. apply elem_of_cons in Hin as [->|Hin]; [right|by left].
      by rewrite lookup_insert_eq.
    - apply IH. right. destruct (decide (k = n)) as [->|Hne].
      + by rewrite lookup_insert_eq.
      + by rewrite lookup_insert_ne. }
  intros Hin. apply H. by left.
Qed.

Section Scan.

Variable lab : Lab.

(** A line that matches nothing leaves the variables of the pass alone. *)
Lemma match_peers_unrecognized (nodes : list string) (shot : string)
    (peer : option string) (peer_state : gmap string string) (s : CM) :
  (∀ n, n ∈ nodes ->
        re_search lab (ok_pat lab n) shot = false
        ∧ re_search lab (start_pat lab n) shot = false) ->
  (∀ n, n ∈ nodes -> is_Some (peer_state !! n)) ->
  match_peers lab nodes shot peer peer_state s = (Ret (peer, peer_state), s).
Proof.
  induction nodes as [|n nodes IH]; intros Hno Hps; cbn; [done|].
  destruct (Hno n) as [Hok Hst]; [by left|].
  unfold ok_pat, start_pat in Hok, Hst. rewrite Hok.
  destruct (Hps n) as [st Hn]; [by left|].
  unfold bind at 1, getitem. rewrite Hn. cbn. rewrite Hst andb_false_r.
  apply IH; intros k Hk; [apply Hno|apply Hps]; by right.
Qed.

(** The peer list never holds a node twice. *)
Lemma record_peer_NoDup (line : string) (peer : option string) (peer_list l : list string)
    (s s' : CM) :
  NoDup peer_list ->
  record_peer lab line peer peer_list s = (Ret l, s') ->
  NoDup l.
Proof.
  intros Hnd. unfold record_peer. destruct peer as [p|]; [|done].
  unfold bind, log, debug, emit, ret.
  repeat case_decide; intros [= <- <-]; try done.
  apply NoDup_app. split; [done|]. split; [|apply NoDup_singleton].
  intros x Hx ->%list_elem_of_singleton. done.
Qed.

Lemma scan_loop_NoDup (timeout : Z) (feed : list (string * nat)) (stonith w' : LogWatcher)
    (peer peer' : option string) (peer_list l : list string)
    (peer_state ps' : gmap string string) (s s' : CM) :
  NoDup peer_list ->
  scan_loop lab timeout feed stonith peer peer_list peer_state s
    = (Ret (w', (peer', l, ps')), s') ->
  NoDup l.
Proof.
  revert timeout stonith peer peer_list peer_state s.
  induction feed as [|[shot which] feed IH];
    intros timeout stonith peer peer_list peer_state s Hnd; cbn [scan_loop].
  - unfold bind, emit, ret. by intros [= <- <- <- <- <-].
  - intros H. apply bind_Ret_inv in H as ([] & s1 & _ & H).
    case_decide; [by injection H as <- <- <- <- <-|].
    apply bind_Ret_inv in H as ([] & s2 & _ & H).
    apply bind_Ret_inv in H as (regs & s3 & _ & H).
    apply bind_Ret_inv in H as ([peer1 ps1] & s4 & _ & H).
    apply bind_Ret_inv in H as (pl1 & s5 & Hrec & H).
    eapply IH; [|exact H]. by eapply record_peer_NoDup.
Qed.

Lemma settle_peers_result (node : string) (peers peer_list l : list string)
    (peer_state : gmap string string) (stonith w' : LogWatcher) (s s' : CM) :
  settle_peers lab node peers peer_list peer_state stonith s = (Ret (Some l, w'), s') ->
  l = peer_list.
Proof.
  revert stonith s. induction peers as [|peer peers IH]; intros stonith s; cbn [settle_peers].
  - unfold ret. by intros [= <- <- <-].
  - intros H.
    apply bind_Ret_inv in H as (st & s1 & _ & H).
    apply bind_Ret_inv in H as ([] & s2 & _ & H).
    apply bind_Ret_inv in H as ([] & s3 & _ & H).
    apply bind_Ret_inv in H as (w1 & s4 & _ & H).
    apply bind_Ret_inv in H as ([] & s5 & _ & H).
    destruct (Env_at_boot lab); [|by eapply IH].
    apply bind_Ret_inv in H as (a1 & s6 & _ & H).
    apply bind_Ret_inv in H as ([] & s7 & _ & H).
    apply bind_Ret_inv in H as (a2 & s8 & _ & H).
    destruct a2; [by eapply IH|].
    apply bind_Ret_inv in H as ([] & s9 & _ & H). done.
Qed.

(** What a call that gets past the quorum check consists of. *)
Lemma fencing_cleanup_Ret_inv (node : string) (stonith : LogWatcher)
    (r : option (list string)) (w' : option LogWatcher) (s s' : CM) :
  fencing_cleanup lab node (Some stonith) s = (Ret (r, w'), s') ->
  (r = Some [] ∧ w' = Some stonith)
  ∨ ∃ s0 w1 peer peer_list peer_state s1 w2,
      scan_loop lab 0 (pending stonith) stonith None [] (unknown_states (Env_nodes lab)) s0
        = (Ret (w1, (peer, peer_list, peer_state)), s1)
      ∧ ShouldBeStatus s0 = ShouldBeStatus s
      ∧ settle_peers lab node peer_list peer_list peer_state w1 s1 = (Ret (r, w2), s')
      ∧ w' = Some w2.
Proof.
  unfold fencing_cleanup. intros H.
  apply bind_Ret_inv in H as ([] & s1 & H1 & H). injection H1 as <-.
  apply bind_Ret_inv in H as (q & s2 & H2 & H). injection H2 as <- <-.
  destruct (_ && _).
  { apply bind_Ret_inv in H as ([] & s3 & _ & H). injection H as <- <- <-. by left. }
  apply bind_Ret_inv in H as ([] & s3 & H3 & H). injection H3 as <-.
  apply bind_Ret_inv in H as ([w1 [[peer peer_list] peer_state]] & s4 & Hscan & H).
  apply bind_Ret_inv in H as ([r2 w2] & s5 & Hsettle & H). injection H as <- <- <-.
  right. eexists _, w1, peer, peer_list, peer_state, s4, w2. done.
Qed.

End Scan.

(** ** C3: a reported line that no peer's expression matches *)

(** C3 (the code departs from the claim).  When the first line the session
    reports matches no expression of any configured node, the pass does
    not log the line and go on: the local variable [peer] is still unbound
    when it is tested, and the call raises UnboundLocalError. *)
Theorem fencing_cleanup_first_unrecognized (lab : Lab) (node : string)
    (stonith : LogWatcher) (line : string) (which : nat) (rest : list (string * nat))
    (s : CM) :
  (cleanup_quorum lab node s = true ∨ (length (Env_nodes lab) <= 2)%nat) ->
  pending stonith = (line, which) :: rest ->
  line ≠ "" ->
  (which < length (regexes stonith))%nat ->
  unrecognized lab line ->
  (fencing_cleanup lab node (Some stonith) s).1 = Raise (UnboundLocalError "peer").
Proof.
  intros Hgate Hfeed Hline Hwhich Hun.
  unfold fencing_cleanup, cleanup_quorum in *.
  do 2 (erewrite bind_Ret; [|reflexivity]).
  assert (negb (has_quorum lab (history (push
            (Debug (fmt lab "Looking for nodes that were fenced as a result of %s starting"
                        [node])) s)))
          && bool_decide (2 < length (Env_nodes lab))%nat = false) as ->.
  { cbn [history push]. destruct Hgate as [->|Hlen]; [done|].
    rewrite bool_decide_false; [by rewrite andb_false_r|lia]. }
  erewrite bind_Ret; [|reflexivity].
  erewrite bind_Raise; [done|].
  rewrite Hfeed. cbn [scan_loop].
  erewrite bind_Ret; [|reflexivity].
  rewrite decide_False //.
  erewrite bind_Ret; [|reflexivity].
  erewrite bind_Ret; [|unfold del_at; rewrite decide_True //].
  erewrite bind_Ret.
  2:{ apply match_peers_unrecognized; [done|].
      intros n Hn. rewrite unknown_states_lookup //. }
  cbv beta iota. erewrite bind_Raise; reflexivity.
Qed.

Lemma fencing_cleanup_first_unrecognized_witness :
  let lab := ex_lab ["A"; "B"] false (fun _ _ _ => 0) (fun _ => false)
               (fun _ _ => true) (fun _ _ _ => []) in
  let w := mkLogWatcher "StartupFencing" ["fenced B"; "fencing B"; "fence agent missing"] 0 []
             [("fence agent missing", 2%nat)] in
  (fencing_cleanup lab "A" (Some w) (ex_cm [("A", "up"); ("B", "down")])).1
    = Raise (UnboundLocalError "peer").
Proof.
  apply (fencing_cleanup_first_unrecognized
           (ex_lab ["A"; "B"] false (fun _ _ _ => 0) (fun _ => false)
                   (fun _ _ => true) (fun _ _ _ => []))
           "A" _ "fence agent missing" 2 []).
  - right. simpl. lia.
  - reflexivity.
  - done.
  - simpl. lia.
  - intros n Hn. vm_compute in Hn.
    apply elem_of_cons in Hn as [->|Hn]; [by vm_compute|].
    apply elem_of_cons in Hn as [->|Hn]; [by vm_compute|].
    by apply elem_of_nil in Hn.
Defined.

(** Once a line has been attributed to a peer, [peer] keeps that value: a
    later line that matches nothing is not logged either, it is taken for
    the peer of the line before. *)
Example unrecognized_after_match_is_silent :
  let lab := ex_lab ["A"; "B"] false (fun _ _ _ => 0) (fun _ => false)
               (fun _ _ => true) (fun _ _ _ => []) in
  let w := mkLogWatcher "StartupFencing" ["fenced B"; "fence agent missing"] 0 []
             [("fenced B", 0%nat); ("fence agent missing", 0%nat)] in
  let r := fencing_cleanup lab "A" (Some w) (ex_cm [("A", "up"); ("B", "down")]) in
  (∃ w', r.1 = Ret (Some ["B"], w'))
  ∧ Forall (fun e => ¬ ∃ msg, e = Log msg) (history r.2).
Proof.
  vm_compute. split; [by eexists|].
  repeat (constructor; [by intros [? [=]]|]). constructor.
Qed.

(** ** C6: no peer is reported twice *)

(** C6.  The list a pass returns holds no node twice, whatever lines the
    session reports. *)
Theorem fencing_cleanup_no_duplicates (lab : Lab) (node : string)
    (stonith w' : option LogWatcher) (l : list string) (s s' : CM) :
  fencing_cleanup lab node stonith s = (Ret (Some l, w'), s') ->
  NoDup l.
Proof.
  destruct stonith as [w|].
  - intros H. apply fencing_cleanup_Ret_inv in H
      as [[Hr _]|(s0 & w1 & peer & pl & ps & s1 & w2 & Hscan & _ & Hsettle & _)].
    + injection Hr as ->. apply NoDup_nil_2.
    + apply settle_peers_result in Hsettle as ->.
      eapply scan_loop_NoDup; [|exact Hscan]. apply NoDup_nil_2.
  - unfold fencing_cleanup, bind, debug, emit, ret. intros [= <- _ _]. apply NoDup_nil_2.
Qed.

Lemma fencing_cleanup_no_duplicates_witness :
  let lab := ex_lab ["A"; "B"] false (fun _ _ _ => 0) (fun _ => false)
               (fun _ _ => true) (fun _ _ _ => []) in
  let w := mkLogWatcher "StartupFencing" ["fenced B"; "fencing B"] 0 []
             [("fencing B", 1%nat); ("fenced B", 0%nat)] in
  (fencing_cleanup lab "A" (Some w) (ex_cm [("A", "up"); ("B", "down")])).1
    = Ret (Some ["B"], Some (mkLogWatcher "StartupFencing" [] 0 [] []))
  ∧ NoDup ["B"].
Proof.
  split; [by vm_compute|].
  eapply (fencing_cleanup_no_duplicates
            (ex_lab ["A"; "B"] false (fun _ _ _ => 0) (fun _ => false)
                    (fun _ _ => true) (fun _ _ _ => []))
            "A"
            (Some (mkLogWatcher "StartupFencing" ["fenced B"; "fencing B"] 0 []
                     [("fencing B", 1%nat); ("fenced B", 0%nat)]))
            _ ["B"] (ex_cm [("A", "up"); ("B", "down")])).
  vm_compute. reflexivity.
Defined.

(** ** The steps of the object, read backwards *)

Lemma emit_inv (e : Event) (s s1 : CM) (a : unit) :
  emit e s = (Ret a, s1) -> s1 = push e s.
Proof. by intros [= <-]. Qed.

Lemma status_set_inv (node st : string) (s s1 : CM) (a : unit) :
  status_set node st s = (Ret a, s1) ->
  s1 = mkCM (<[node := st]> (ShouldBeStatus s)) (instance_errorstoignore s) (history s).
Proof. by intros [= <-]. Qed.

Lemma status_get_inv (node st : string) (s s1 : CM) :
  status_get node s = (Ret st, s1) -> s1 = s ∧ ShouldBeStatus s !! node = Some st.
Proof. unfold status_get. destruct (_ !! _); [|done]. by intros [= <- <-]. Qed.

Lemma getitem_inv (d : gmap string string) (key v : string) (s s1 : CM) :
  getitem d key s = (Ret v, s1) -> s1 = s ∧ d !! key = Some v.
Proof. unfold getitem. destruct (_ !! _); [|done]. by intros [= <- <-]. Qed.

Lemma StataCM_inv (lab : Lab) (node : string) (a : bool) (s s1 : CM) :
  StataCM lab node s = (Ret a, s1) -> s1 = push (Stat node a) s.
Proof. by intros [= <- <-]. Qed.

Lemma del_at_ok (l : list string) (i : nat) (s : CM) :
  (i < length l)%nat -> del_at l i s = (Ret (delete i l), s).
Proof. intros Hi. unfold del_at. by rewrite decide_True. Qed.

Lemma preserves_at {A : Type} (R : relation CM) (m : M A) (s s' : CM) (o : outcome A) :
  preserves R m -> m s = (o, s') -> R s s'.
Proof. intros Hm Heq. specialize (Hm s). by rewrite Heq in Hm. Qed.

(** ** C5: the status of the fenced peers *)

Section Settle.

Variable lab : Lab.

Lemma settle_peers_spec (node : string) (peers peer_list : list string)
    (peer_state : gmap string string) (stonith w' : LogWatcher)
    (r : option (list string)) (s s' : CM) :
  settle_peers lab node peers peer_list peer_state stonith s = (Ret (r, w'), s') ->
  settle_post lab peers peer_list s r s'.
Proof.
  revert stonith s. induction peers as [|peer peers IH]; intros stonith s;
    cbn [settle_peers].
  { intros [= <- <- <-]. split; [done|].
    split; [intros p Hp; by apply elem_of_nil in Hp|].
    split; [done|]. intros _ p Hp. by apply elem_of_nil in Hp. }
  intros H.
  apply bind_Ret_inv in H as (st & s1 & H1 & H). apply getitem_inv in H1 as [-> _].
  apply bind_Ret_inv in H as ([] & s2 & H2 & H). apply emit_inv in H2 as ->.
  apply bind_Ret_inv in H as ([] & s3 & H3 & H). apply status_set_inv in H3.
  apply bind_Ret_inv in H as (w1 & s4 & H4 & H).
  assert (quiet s3 s4) as [_ T4].
  { destruct (decide _).
    - eapply preserves_at; [|exact H4]. apply fc_drain_loop. apply _.
    - injection H4 as <- <-. reflexivity. }
  apply bind_Ret_inv in H as ([] & s5 & H5 & H). apply emit_inv in H5 as ->.
  assert (∀ q, ShouldBeStatus s4 !! q
               = if decide (peer = q) then Some (fenced_status lab)
                 else ShouldBeStatus s !! q) as Htab.
  { intros q. rewrite T4 H3. cbn. destruct (decide (peer = q)) as [<-|Hq].
    - by rewrite lookup_insert_eq.
    - by rewrite lookup_insert_ne. }
  clear H3 T4 H4.
  assert (∀ (s6 : CM),
            ShouldBeStatus s6 = ShouldBeStatus s4 ->
            (Env_at_boot lab = true -> Stat peer true ∈ history s6) ->
            settle_peers lab node peers peer_list peer_state w1 s6 = (Ret (r, w'), s') ->
            settle_post lab (peer :: peers) peer_list s r s') as Hrest.
  { intros s6 T6 Hlive Hs.
    destruct (preserves_at _ _ _ _ _ (settle_peers_preserves lab node peers peer_list
                                         peer_state w1) Hs) as [E6 _].
    apply IH in Hs. unfold settle_post in *. destruct r as [l|].
    - destruct Hs as (-> & Hin & Hout & Hal). split; [done|]. split; [|split].
      + intros p Hp. destruct (decide (p ∈ peers)) as [Hpp|Hpp]; [by apply Hin|].
        apply elem_of_cons in Hp as [->|Hp]; [|done].
        rewrite Hout // T6 Htab decide_True //.
      + intros q Hq. apply not_elem_of_cons in Hq as [Hne Hq].
        rewrite Hout // T6 Htab decide_False //.
      + intros Hb p Hp. apply elem_of_cons in Hp as [->|Hp]; [|by apply Hal].
        eapply extends_elem; [exact E6|by apply Hlive].
    - destruct Hs as (Hb & done & p & rest & -> & Hin & Hout & Hh).
      split; [done|]. exists (peer :: done), p, rest.
      split; [done|]. split; [|split; [|done]].
      + intros q Hq. destruct (decide (q ∈ done ++ [p])) as [Hqq|Hqq]; [by apply Hin|].
        cbn in Hq. apply elem_of_cons in Hq as [->|Hq]; [|done].
        rewrite Hout // T6 Htab decide_True //. unfold fenced_status. by rewrite Hb.
      + intros q Hq. cbn in Hq. apply not_elem_of_cons in Hq as [Hne Hq].
        rewrite Hout // T6 Htab decide_False //. }
  assert (Env_at_boot lab = true ∨ Env_at_boot lab = false) as [Hboot|Hboot]
    by (destruct (Env_at_boot lab); auto);
    rewrite Hboot in H; [|by eapply Hrest; [| |exact H]; [done|congruence]].
  apply bind_Ret_inv in H as (a1 & s6 & H6 & H). apply StataCM_inv in H6 as ->.
  apply bind_Ret_inv in H as ([] & s7 & H7 & H).
  assert (ShouldBeStatus s7 = ShouldBeStatus s4
          ∧ ∃ h', history s7 = Sleep (Env_StartTime lab) :: Stat peer false :: h'
                  ∨ history s7 = Stat peer true :: h') as [T7 [h' Hh7]].
  { destruct a1; [injection H7 as <-|apply emit_inv in H7 as ->];
      (split; [done|]); eexists; [by right|by left]. }
  apply bind_Ret_inv in H as (a2 & s8 & H8 & H). apply StataCM_inv in H8 as ->.
  destruct a2.
  { eapply Hrest; [| |exact H]; [done|]. intros _. cbn. by left. }
  apply bind_Ret_inv in H as ([] & s9 & H9 & H). apply emit_inv in H9 as ->.
  injection H as <- <- <-. split; [done|].
  exists [], peer, peers. split; [done|]. split; [|split].
  - intros q Hq. cbn in Hq. apply list_elem_of_singleton in Hq as ->.
    cbn. rewrite T7 Htab decide_True //. unfold fenced_status. by rewrite Hboot.
  - intros q Hq. cbn in Hq. apply not_elem_of_cons in Hq as [Hne _].
    cbn. rewrite T7 Htab decide_False //.
  - exists h'. cbn. destruct Hh7 as [-> | ->]; [by left|by right].
Qed.

End Settle.

(** The scan leaves the status table alone. *)
Lemma scan_loop_quiet (lab : Lab) (timeout : Z) (feed : list (string * nat))
    (stonith : LogWatcher) (peer : option string) (peer_list : list string)
    (peer_state : gmap string string) :
  preserves quiet (scan_loop lab timeout feed stonith peer peer_list peer_state).
Proof. apply fc_scan_loop. apply _. Qed.

(** C5.  When a pass returns the list of fenced peers, every peer of the
    list has status down if at-boot is false; if at-boot is true it has
    status up and a liveness check of it has succeeded.  A pass returns
    None only when at-boot is true: it has marked a peer up whose liveness
    check failed, also after the wait of StartTime (or succeeded and then
    failed); it has logged the restart error as its last act, and has left
    the entries of the peers after that one untouched. *)
Theorem fencing_cleanup_fenced_status (lab : Lab) (node : string)
    (stonith w' : option LogWatcher) (r : option (list string)) (s s' : CM) :
  fencing_cleanup lab node stonith s = (Ret (r, w'), s') ->
  cleanup_post lab s r s'.
Proof.
  destruct stonith as [w|].
  2:{ unfold fencing_cleanup, bind, debug, emit, ret. intros [= <- _ _].
      intros p Hp. by apply elem_of_nil in Hp. }
  intros H. apply fencing_cleanup_Ret_inv in H
    as [[-> _]|(s0 & w1 & peer & pl & ps & s1 & w2 & Hscan & T0 & Hsettle & _)].
  { intros p Hp. by apply elem_of_nil in Hp. }
  assert (NoDup pl) as Hnd.
  { eapply scan_loop_NoDup; [|exact Hscan]. apply NoDup_nil_2. }
  assert (ShouldBeStatus s1 = ShouldBeStatus s) as T1.
  { rewrite -T0. eapply (preserves_at quiet); [apply scan_loop_quiet|exact Hscan]. }
  apply settle_peers_spec in Hsettle. unfold settle_post, cleanup_post in *.
  destruct r as [l|].
  - destruct Hsettle as (-> & Hin & _ & Hal). intros p Hp. split; [by apply Hin|].
    intros Hb. by apply Hal.
  - destruct Hsettle as (Hb & done & p & rest & -> & Hin & Hout & Hh).
    split; [done|]. exists done, p, rest. split; [done|]. split; [done|]. split; [|done].
    intros q Hq. rewrite -T1. apply Hout.
    rewrite (assoc app done [p] rest) in Hnd. apply NoDup_app in Hnd as (_ & Hdis & _).
    intros Hq'. by eapply Hdis.
Qed.

Lemma fencing_cleanup_fenced_status_witness :
  let lab := ex_lab ["A"; "B"] true (fun _ _ _ => 0) (fun _ => false)
               (fun _ _ => false) (fun _ _ _ => []) in
  let w := mkLogWatcher "StartupFencing" ["fenced B"; "fencing B"] 0 [] [("fenced B", 0%nat)] in
  let s := ex_cm [("A", "up"); ("B", "down")] in
  (fencing_cleanup lab "A" (Some w) s).1
    = Ret (None, Some (mkLogWatcher "StartupFencing" ["fencing B"] 0 [] []))
  ∧ cleanup_post lab s None (fencing_cleanup lab "A" (Some w) s).2.
Proof.
  split; [by vm_compute|].
  eapply (fencing_cleanup_fenced_status
            (ex_lab ["A"; "B"] true (fun _ _ _ => 0) (fun _ => false)
                    (fun _ _ => false) (fun _ _ _ => []))
            "A"
            (Some (mkLogWatcher "StartupFencing" ["fenced B"; "fencing B"] 0 []
                     [("fenced B", 0%nat)]))
            _ None (ex_cm [("A", "up"); ("B", "down")])).
  vm_compute. reflexivity.
Defined.

(** ** C4: a fencing that starts and then completes *)

Section StartedThenCompleted.

Variable lab : Lab.
Variable B : string.

(** A line about the start of the fencing of [B] puts [B] in progress. *)
Lemma match_peers_start (nodes : list string) (line : string)
    (peer : option string) (peer_state : gmap string string) (s : CM) :
  (∀ n, n ∈ nodes ->
        re_search lab (ok_pat lab n) line = false
        ∧ (re_search lab (start_pat lab n) line = true ↔ n = B)) ->
  (∀ n, n ∈ nodes -> is_Some (peer_state !! n)) ->
  peer_state !! B ≠ Some "complete" ->
  ∃ s',
    match_peers lab nodes line peer peer_state s
    = (Ret (if decide (B ∈ nodes) then Some B else peer,
            if decide (B ∈ nodes) then <[B := "in-progress"]> peer_state else peer_state),
       s').
Proof.
  revert peer peer_state s.
  induction nodes as [|n nodes IH]; intros peer peer_state s Hre Hps HB; cbn [match_peers].
  { exists s. destruct (decide (B ∈ [])) as [H|H]; [by apply elem_of_nil in H|done]. }
  destruct (Hre n) as [Hok Hst]; [by left|].
  unfold ok_pat, start_pat in Hok, Hst. rewrite Hok.
  destruct (Hps n) as [st Hn]; [by left|].
  erewrite bind_Ret; [|unfold getitem; by rewrite Hn].
  assert (∀ k, k ∈ nodes ->
               re_search lab (ok_pat lab k) line = false
               ∧ (re_search lab (start_pat lab k) line = true ↔ k = B)) as Hre'.
  { intros k Hk. apply Hre. by right. }
  destruct (decide (n = B)) as [->|Hne].
  - rewrite (proj2 Hst eq_refl). rewrite bool_decide_true; [|congruence]. cbn [andb].
    erewrite bind_Ret; [|reflexivity].
    edestruct (IH (Some B) (<[B := "in-progress"]> peer_state)) as [s' ->]; [done| |..].
    + intros k Hk. destruct (decide (B = k)) as [<-|Hk'].
      * rewrite lookup_insert_eq. by eexists.
      * rewrite lookup_insert_ne //. apply Hps. by right.
    + by rewrite lookup_insert_eq.
    + exists s'. destruct (decide (B ∈ B :: nodes)) as [_|Hn']; [|exfalso; apply Hn'; by left].
      destruct (decide (B ∈ nodes)); [|done]. by rewrite insert_insert_eq.
  - assert (re_search lab (fmt lab (templates lab "Pat:Fencing_start") [n]) line = false)
      as ->.
    { apply not_true_is_false. by intros E%Hst. }
    rewrite andb_false_r.
    edestruct (IH peer peer_state) as [s' ->]; [done| |done|].
    + intros k Hk. apply Hps. by right.
    + exists s'. destruct (decide (B ∈ nodes)) as [Hin|Hin];
        destruct (decide (B ∈ n :: nodes)) as [Hin'|Hin']; try done.
      * exfalso. apply Hin'. by right.
      * apply elem_of_cons in Hin' as [?|?]; done.
Qed.

(** A line about the completion of the fencing of [B] marks [B] complete. *)
Lemma match_peers_ok (nodes : list string) (line : string)
    (peer : option string) (peer_state : gmap string string) (s : CM) :
  (∀ n, n ∈ nodes ->
        (re_search lab (ok_pat lab n) line = true ↔ n = B)
        ∧ (n ≠ B -> re_search lab (start_pat lab n) line = false)) ->
  (∀ n, n ∈ nodes -> is_Some (peer_state !! n)) ->
  ∃ s',
    match_peers lab nodes line peer peer_state s
    = (Ret (if decide (B ∈ nodes) then Some B else peer,
            if decide (B ∈ nodes) then <[B := "complete"]> peer_state else peer_state),
       s').
Proof.
  revert peer peer_state s.
  induction nodes as [|n nodes IH]; intros peer peer_state s Hre Hps; cbn [match_peers].
  { exists s. destruct (decide (B ∈ [])) as [H|H]; [by apply elem_of_nil in H|done]. }
  destruct (Hre n) as [Hok Hst]; [by left|].
  unfold ok_pat, start_pat in Hok, Hst.
  assert (∀ k, k ∈ nodes ->
               (re_search lab (ok_pat lab k) line = true ↔ k = B)
               ∧ (k ≠ B -> re_search lab (start_pat lab k) line = false)) as Hre'.
  { intros k Hk. apply Hre. by right. }
  destruct (decide (n = B)) as [->|Hne].
  - rewrite (proj2 Hok eq_refl).
    erewrite bind_Ret; [|reflexivity].
    edestruct (IH (Some B) (<[B := "complete"]> peer_state)) as [s' ->]; [done| |].
    + intros k Hk. destruct (decide (B = k)) as [<-|Hk'].
      * rewrite lookup_insert_eq. by eexists.
      * rewrite lookup_insert_ne //. apply Hps. by right.
    + exists s'. destruct (decide (B ∈ B :: nodes)) as [_|Hn']; [|exfalso; apply Hn'; by left].
      destruct (decide (B ∈ nodes)); [|done]. by rewrite insert_insert_eq.
  - assert (re_search lab (fmt lab (templates lab "Pat:Fencing_ok") [n]) line = false) as ->.
    { apply not_true_is_false. by intros E%Hok. }
    destruct (Hps n) as [st Hn]; [by left|].
    erewrite bind_Ret; [|unfold getitem; by rewrite Hn].
    rewrite (Hst Hne) andb_false_r.
    edestruct (IH peer peer_state) as [s' ->]; [done| |].
    + intros k Hk. apply Hps. by right.
    + exists s'. destruct (decide (B ∈ nodes)) as [Hin|Hin];
        destruct (decide (B ∈ n :: nodes)) as [Hin'|Hin']; try done.
      * exfalso. apply Hin'. by right.
      * apply elem_of_cons in Hin' as [?|?]; done.
Qed.

(** A peer marked complete stays complete. *)
Lemma match_peers_complete_stays (nodes : list string) (line n : string)
    (peer peer' : option string) (peer_state ps' : gmap string string) (s s' : CM) :
  peer_state !! n = Some "complete" ->
  match_peers lab nodes line peer peer_state s = (Ret (peer', ps'), s') ->
  ps' !! n = Some "complete".
Proof.
  revert peer peer_state s.
  induction nodes as [|k nodes IH]; intros peer peer_state s Hn; cbn [match_peers].
  { by intros [= _ <- _]. }
  destruct (re_search lab _ line).
  - intros H. apply bind_Ret_inv in H as ([] & s1 & _ & H).
    eapply IH; [|exact H]. destruct (decide (k = n)) as [->|Hk].
    + by rewrite lookup_insert_eq.
    + by rewrite lookup_insert_ne.
  - intros H. apply bind_Ret_inv in H as (st & s1 & H1 & H).
    apply getitem_inv in H1 as [-> Hk].
    destruct (bool_decide (st ≠ "complete")) eqn:Hst; cbn [andb] in H.
    + apply bool_decide_eq_true in Hst.
      destruct (re_search lab _ line); [|by eapply IH].
      apply bind_Ret_inv in H as ([] & s2 & _ & H).
      eapply IH; [|exact H]. rewrite lookup_insert_ne //. congruence.
    + by eapply IH.
Qed.

Lemma scan_loop_complete_stays (timeout : Z) (feed : list (string * nat)) (n : string)
    (stonith w' : LogWatcher) (peer peer' : option string) (peer_list l : list string)
    (peer_state ps' : gmap string string) (s s' : CM) :
  peer_state !! n = Some "complete" ->
  scan_loop lab timeout feed stonith peer peer_list peer_state s
    = (Ret (w', (peer', l, ps')), s') ->
  ps' !! n = Some "complete".
Proof.
  revert timeout stonith peer peer_list peer_state s.
  induction feed as [|[shot which] feed IH];
    intros timeout stonith peer peer_list peer_state s Hn; cbn [scan_loop].
  - unfold bind, emit, ret. by intros [= <- <- <- <- <-].
  - intros H. apply bind_Ret_inv in H as ([] & s1 & _ & H).
    case_decide; [by injection H as <- <- <- <- <-|].
    apply bind_Ret_inv in H as ([] & s2 & _ & H).
    apply bind_Ret_inv in H as (regs & s3 & _ & H).
    apply bind_Ret_inv in H as ([peer1 ps1] & s4 & Hm & H).
    apply bind_Ret_inv in H as (pl1 & s5 & _ & H).
    eapply IH; [|exact H]. by eapply match_peers_complete_stays.
Qed.

Lemma record_peer_new (line p : string) (peer_list : list string) (s : CM) :
  p ≠ "" -> p ∉ peer_list ->
  record_peer lab line (Some p) peer_list s
  = (Ret (peer_list ++ [p]), push (Debug ("Found peer: " +:+ p)) s).
Proof.
  intros Hp Hnew. unfold record_peer.
  destruct (decide (p = "")) as [E|_]; [by destruct Hp|].
  destruct (decide (p ∉ peer_list)) as [_|E]; [done|by destruct E].
Qed.

Lemma record_peer_old (line p : string) (peer_list : list string) (s : CM) :
  p ≠ "" -> p ∈ peer_list ->
  record_peer lab line (Some p) peer_list s = (Ret peer_list, s).
Proof.
  intros Hp Hold. unfold record_peer.
  destruct (decide (p = "")) as [E|_]; [by destruct Hp|].
  destruct (decide (p ∉ peer_list)) as [E|_]; [by destruct E|done].
Qed.

(** The scan of the two lines. *)
Lemma scan_started_then_completed (stonith : LogWatcher) (l1 l2 : string) (i1 i2 : nat)
    (s : CM) :
  B ∈ Env_nodes lab -> B ≠ "" -> l1 ≠ "" -> l2 ≠ "" ->
  (i1 < length (regexes stonith))%nat ->
  (S i2 < length (regexes stonith))%nat ->
  reports_start lab B l1 -> reports_ok lab B l2 ->
  ∃ w1 peer_state s1,
    scan_loop lab 0 [(l1, i1); (l2, i2)] stonith None [] (unknown_states (Env_nodes lab)) s
      = (Ret (w1, (Some B, [B], peer_state)), s1)
    ∧ peer_state !! B = Some "complete".
Proof.
  intros HB HBne Hl1 Hl2 Hi1 Hi2 Hstart Hok.
  cbn [scan_loop].
  erewrite bind_Ret; [|reflexivity].
  destruct (decide (l1 = "")) as [E|_]; [by destruct Hl1|].
  erewrite bind_Ret; [|reflexivity].
  erewrite bind_Ret; [|by apply del_at_ok].
  edestruct (match_peers_start (Env_nodes lab) l1 None (unknown_states (Env_nodes lab)))
    as [sA HA]; [exact Hstart| |by rewrite unknown_states_lookup|].
  { intros n Hn. rewrite unknown_states_lookup //. }
  erewrite bind_Ret; [|exact HA]. clear HA.
  destruct (decide (B ∈ Env_nodes lab)) as [_|E]; [|by destruct E].
  erewrite bind_Ret; [|apply record_peer_new; [done|apply not_elem_of_nil]].
  erewrite bind_Ret; [|reflexivity].
  destruct (decide (l2 = "")) as [E|_]; [by destruct Hl2|].
  erewrite bind_Ret; [|reflexivity].
  erewrite bind_Ret.
  2:{ apply del_at_ok. cbn. rewrite length_delete; [lia|]. apply lookup_lt_is_Some. lia. }
  edestruct (match_peers_ok (Env_nodes lab) l2 (Some B)
               (<[B := "in-progress"]> (unknown_states (Env_nodes lab))))
    as [sB HB']; [exact Hok| |].
  { intros n Hn. destruct (decide (B = n)) as [<-|Hne].
    - rewrite lookup_insert_eq. by eexists.
    - rewrite lookup_insert_ne // unknown_states_lookup //. }
  erewrite bind_Ret; [|exact HB']. clear HB'.
  destruct (decide (B ∈ Env_nodes lab)) as [_|E]; [|by destruct E].
  erewrite bind_Ret; [|apply record_peer_old; [done|by left]].
  erewrite bind_Ret; [|reflexivity].
  eexists _, _, _. split; [reflexivity|]. by rewrite lookup_insert_eq.
Qed.

(** The loop over the one peer found, whose fencing completed. *)
Lemma settle_single_complete (node : string) (peer_state : gmap string string)
    (stonith : LogWatcher) (s : CM) :
  peer_state !! B = Some "complete" ->
  (Env_at_boot lab = false ∨ ∀ h, stat_cm lab h B = true) ->
  ∃ s', settle_peers lab node [B] [B] peer_state stonith s = (Ret (Some [B], stonith), s').
Proof.
  intros Hps Halive. cbn [settle_peers].
  erewrite bind_Ret; [|unfold getitem; by rewrite Hps].
  do 2 (erewrite bind_Ret; [|reflexivity]).
  destruct (decide ("complete" = "in-progress")) as [|_]; [done|].
  do 2 (erewrite bind_Ret; [|reflexivity]).
  destruct Halive as [-> | Halive]; [by eexists|].
  destruct (Env_at_boot lab); [|by eexists].
  erewrite bind_Ret; [|reflexivity]. rewrite Halive.
  erewrite bind_Ret; [|reflexivity].
  erewrite bind_Ret; [|reflexivity]. rewrite Halive.
  by eexists.
Qed.

End StartedThenCompleted.

(** C4 (amended).  Let the session report two lines, not empty, and then
    nothing: first one about the start of the fencing of the configured
    node [B], whose name is not empty, then one about its completion,
    neither matching an expression of another configured node, and each
    with the index of an expression the session still has.  If the pass
    gets past the quorum check (there is quorum, or at most two nodes
    are configured), and at-boot is not set or [B] answers the liveness
    check, then the scan ends with the list [[B]] and the phase complete
    for [B], and the pass returns [[B]].  Moreover, in any scan, a node
    whose phase is complete keeps that phase whatever lines follow. *)
Theorem fencing_cleanup_started_then_completed (lab : Lab) (node B : string)
    (stonith : LogWatcher) (l1 l2 : string) (i1 i2 : nat) (s : CM) :
  B ∈ Env_nodes lab -> B ≠ "" -> l1 ≠ "" -> l2 ≠ "" ->
  pending stonith = [(l1, i1); (l2, i2)] ->
  (i1 < length (regexes stonith))%nat ->
  (S i2 < length (regexes stonith))%nat ->
  reports_start lab B l1 -> reports_ok lab B l2 ->
  (cleanup_quorum lab node s = true ∨ (length (Env_nodes lab) <= 2)%nat) ->
  (Env_at_boot lab = false ∨ ∀ h, stat_cm lab h B = true) ->
  (∃ s0 w1 peer_state s1 s',
     scan_loop lab 0 (pending stonith) stonith None [] (unknown_states (Env_nodes lab)) s0
       = (Ret (w1, (Some B, [B], peer_state)), s1)
     ∧ peer_state !! B = Some "complete"
     ∧ fencing_cleanup lab node (Some stonith) s = (Ret (Some [B], Some w1), s'))
  ∧ (∀ timeout feed n w w' peer peer' peer_list l peer_state ps' s0 s1,
       peer_state !! n = Some "complete" ->
       scan_loop lab timeout feed w peer peer_list peer_state s0
         = (Ret (w', (peer', l, ps')), s1) ->
       ps' !! n = Some "complete").
Proof.
  intros HB HBne Hl1 Hl2 Hfeed Hi1 Hi2 Hstart Hok Hgate Halive.
  split; [|intros; by eapply scan_loop_complete_stays].
  unfold fencing_cleanup, cleanup_quorum in *.
  do 2 (erewrite bind_Ret; [|reflexivity]).
  assert (negb (has_quorum lab (history (push
            (Debug (fmt lab "Looking for nodes that were fenced as a result of %s starting"
                        [node])) s)))
          && bool_decide (2 < length (Env_nodes lab))%nat = false) as ->.
  { cbn [history push]. destruct Hgate as [->|Hlen]; [done|].
    rewrite bool_decide_false; [by rewrite andb_false_r|lia]. }
  erewrite bind_Ret; [|reflexivity].
  rewrite Hfeed.
  edestruct (scan_started_then_completed lab B stonith l1 l2 i1 i2)
    as (w1 & ps & s1 & Hscan & Hps); [done..|].
  edestruct (settle_single_complete lab B node ps w1 s1) as [s' Hsettle]; [done..|].
  eexists _, w1, ps, s1, s'. split; [exact Hscan|]. split; [done|].
  erewrite bind_Ret; [|exact Hscan]. cbv beta iota.
  erewrite bind_Ret; [|exact Hsettle]. reflexivity.
Qed.

(** Without these conditions the pass need not return [[B]].  With the
    nodes node10 and node1 and expressions that are searched for in the
    line, the two lines about node10 match the expressions of node1 as
    well, and the pass returns the list with node1 alone.  And when
    at-boot is set and [B] does not answer the liveness check, the pass
    returns None, although the two lines match no expression of another
    node. *)
Lemma fencing_cleanup_started_then_completed_counterexample :
  let near := mkLab ["node10"; "node1"; "node2"] false 60 30 "pacemaker" ex_templates subst
                ex_repr ex_repr_list occurs (fun _ _ _ => 0) (fun _ => true)
                (fun _ _ => true) (fun _ _ => true) (fun _ _ _ => [])
                (fun _ _ => (true, [])) in
  let w := mkLogWatcher "StartupFencing"
             ["fenced node10"; "fencing node10"; "fenced node1"; "fencing node1"] 0 []
             [("fencing node10", 1%nat); ("fenced node10", 0%nat)] in
  let s := ex_cm [("node10", "down"); ("node1", "down"); ("node2", "down")] in
  let boot := ex_lab ["A"; "B"] true (fun _ _ _ => 0) (fun _ => true)
                (fun _ _ => false) (fun _ _ _ => []) in
  let w' := mkLogWatcher "StartupFencing" ["fenced B"; "fencing B"] 0 []
              [("fencing B", 1%nat); ("fenced B", 0%nat)] in
  let s' := ex_cm [("A", "up"); ("B", "down")] in
  (re_search near (start_pat near "node10") "fencing node10" = true
   ∧ re_search near (ok_pat near "node10") "fenced node10" = true
   ∧ ∃ w1 s1, fencing_cleanup near "node2" (Some w) s = (Ret (Some ["node1"], w1), s1))
  ∧ (reports_start boot "B" "fencing B"
     ∧ reports_ok boot "B" "fenced B"
     ∧ ∃ w1 s1, fencing_cleanup boot "A" (Some w') s' = (Ret (None, w1), s1)).
Proof.
  cbv zeta. split.
  - split; [by vm_compute|]. split; [by vm_compute|].
    do 2 eexists. vm_compute. reflexivity.
  - split; [|split].
    + intros n Hn. vm_compute in Hn.
      apply elem_of_cons in Hn as [->|Hn]; [by vm_compute|].
      apply elem_of_cons in Hn as [->|Hn]; [by vm_compute|].
      by apply elem_of_nil in Hn.
    + intros n Hn. vm_compute in Hn.
      apply elem_of_cons in Hn as [->|Hn]; [by vm_compute|].
      apply elem_of_cons in Hn as [->|Hn]; [by vm_compute|].
      by apply elem_of_nil in Hn.
    + do 2 eexists. vm_compute. reflexivity.
Qed.

Lemma fencing_cleanup_started_then_completed_witness :
  let lab := ex_lab ["A"; "B"] false (fun _ _ _ => 0) (fun _ => false)
               (fun _ _ => true) (fun _ _ _ => []) in
  let w := mkLogWatcher "StartupFencing" ["fenced B"; "fencing B"] 0 []
             [("fencing B", 1%nat); ("fenced B", 0%nat)] in
  ∃ w1 s',
    fencing_cleanup lab "A" (Some w) (ex_cm [("A", "up"); ("B", "down")])
    = (Ret (Some ["B"], Some w1), s').
Proof.
  destruct (fencing_cleanup_started_then_completed
              (ex_lab ["A"; "B"] false (fun _ _ _ => 0) (fun _ => false)
                      (fun _ _ => true) (fun _ _ _ => []))
              "A" "B"
              (mkLogWatcher "StartupFencing" ["fenced B"; "fencing B"] 0 []
                 [("fencing B", 1%nat); ("fenced B", 0%nat)])
              "fencing B" "fenced B" 1 0 (ex_cm [("A", "up"); ("B", "down")]))
    as [(s0 & w1 & ps & s1 & s' & _ & _ & H) _].
  - apply elem_of_cons. right. apply elem_of_cons. by left.
  - done.
  - done.
  - done.
  - reflexivity.
  - simpl. lia.
  - simpl. lia.
  - intros n Hn. vm_compute in Hn.
    apply elem_of_cons in Hn as [->|Hn]; [by vm_compute|].
    apply elem_of_cons in Hn as [->|Hn]; [by vm_compute|].
    by apply elem_of_nil in Hn.
  - intros n Hn. vm_compute in Hn.
    apply elem_of_cons in Hn as [->|Hn]; [by vm_compute|].
    apply elem_of_cons in Hn as [->|Hn]; [by vm_compute|].
    by apply elem_of_nil in Hn.
  - right. simpl. lia.
  - by left.
  - by exists w1, s'.
Defined.

(** ** C10: stopall and rereadall go over the configured nodes *)

Section WholeCluster.

Variable lab : Lab.

Lemma rsh_inv (node cmd : string) (rc : Z) (s s1 : CM) :
  rsh lab node cmd s = (Ret rc, s1) -> s1 = push (Rsh node cmd rc) s.
Proof. by intros [= <- <-]. Qed.

(** A forced stop of a node that has an entry issues the stop command once
    and keeps every entry of the table in place. *)
Lemma StopaCM_force (node : string) (verbose : bool) (s : CM) :
  is_Some (ShouldBeStatus s !! node) ->
  ∃ r s1 rc,
    StopaCM lab node verbose true s = (Ret r, s1)
    ∧ rsh_calls (history s1) = rsh_calls (history s) ++ [(node, templates lab "StopCmd", rc)]
    ∧ (∀ k, is_Some (ShouldBeStatus s !! k) -> is_Some (ShouldBeStatus s1 !! k)).
Proof.
  intros [st Hst]. unfold StopaCM.
  destruct verbose; cbv iota.
  all: erewrite bind_Ret; [|reflexivity].
  all: erewrite bind_Ret; [|unfold status_get; cbn; by rewrite Hst].
  all: rewrite andb_false_r.
  all: erewrite bind_Ret; [|reflexivity].
  all: set (rc := rsh_rc lab _ node _).
  all: destruct (decide (rc = 0)) as [Hrc|Hrc].
  all: try (do 2 (erewrite bind_Ret; [|reflexivity])).
  all: try (erewrite bind_Ret; [|reflexivity]).
  all: eexists _, _, rc; (split; [reflexivity|]); (split; [done|]).
  all: intros k Hk; cbn; try done.
  all: destruct (decide (node = k)) as [->|Hne];
    [rewrite lookup_insert_eq; by eexists|by rewrite lookup_insert_ne].
Qed.

Lemma stopall_loop_force (nodes : list string) (verbose : bool) (ret_ : option Z) (s : CM) :
  (∀ n, n ∈ nodes -> is_Some (ShouldBeStatus s !! n)) ->
  ∃ r s',
    stopall_loop lab nodes verbose true ret_ s = (Ret r, s')
    ∧ (rsh_calls (history s')).*1
      = (rsh_calls (history s)).*1 ++ map (fun n => (n, templates lab "StopCmd")) nodes.
Proof.
  revert ret_ s. induction nodes as [|n nodes IH]; intros ret_ s Hall; cbn [stopall_loop].
  { exists ret_, s. by rewrite app_nil_r. }
  destruct (Hall n) as [st Hst]; [by left|].
  erewrite bind_Ret; [|unfold status_get; by rewrite Hst].
  rewrite orb_true_r.
  destruct (StopaCM_force n verbose s) as (r1 & s1 & rc & Hstop & Hcalls & Hkeep);
    [by eexists|].
  erewrite bind_Ret; [|exact Hstop].
  edestruct (IH (if negb (truthy r1) then py_0 else ret_) s1) as (r & s' & Hloop & Hrest).
  { intros k Hk. apply Hkeep, Hall. by right. }
  exists r, s'. split; [exact Hloop|].
  rewrite Hrest Hcalls fmap_app. cbn. by rewrite -app_assoc.
Qed.

Lemma RereadCM_calls (node : string) (s : CM) :
  ∃ r s1 rc,
    RereadCM lab node s = (Ret r, s1)
    ∧ ShouldBeStatus s1 = ShouldBeStatus s
    ∧ rsh_calls (history s1) = rsh_calls (history s) ++ [(node, templates lab "RereadCmd", rc)].
Proof.
  unfold RereadCM. erewrite bind_Ret; [|reflexivity].
  set (rc := rsh_rc lab _ node _).
  destruct (decide (rc = 0)).
  - by eexists _, _, rc.
  - erewrite bind_Ret; [|reflexivity]. by eexists _, _, rc.
Qed.

Lemma rereadall_loop_calls (nodes : list string) (s : CM) :
  (∀ n, n ∈ nodes -> is_Some (ShouldBeStatus s !! n)) ->
  ∃ s',
    rereadall_loop lab nodes s = (Ret (), s')
    ∧ ShouldBeStatus s' = ShouldBeStatus s
    ∧ (rsh_calls (history s')).*1
      = (rsh_calls (history s)).*1
        ++ map (fun n => (n, templates lab "RereadCmd"))
               (filter (fun n => ShouldBeStatus s !! n = Some "up") nodes).
Proof.
  revert s. induction nodes as [|n nodes IH]; intros s Hall; cbn [rereadall_loop].
  { exists s. by rewrite app_nil_r. }
  destruct (Hall n) as [st Hst]; [by left|].
  erewrite bind_Ret; [|unfold status_get; by rewrite Hst].
  destruct (decide (st = "up")) as [->|Hup].
  - destruct (RereadCM_calls n s) as (r1 & s1 & rc & Hre & Htab & Hcalls).
    erewrite bind_Ret; [|erewrite bind_Ret; [reflexivity|exact Hre]].
    edestruct (IH s1) as (s' & Hloop & Htab' & Hrest).
    { intros k Hk. rewrite Htab. apply Hall. by right. }
    exists s'. split; [exact Hloop|]. split; [congruence|].
    rewrite filter_cons_True; [|done].
    rewrite Hrest Hcalls fmap_app Htab. cbn. by rewrite -app_assoc.
  - erewrite bind_Ret; [|reflexivity].
    edestruct (IH s) as (s' & Hloop & Htab' & Hrest).
    { intros k Hk. apply Hall. by right. }
    exists s'. split; [exact Hloop|]. split; [done|].
    rewrite filter_cons_False; [done|]. congruence.
Qed.

End WholeCluster.

(** C10.  [stopall] and [rereadall] do not use their node list: for every
    list passed, they do what they do for no list.  When every configured
    node has an entry in the status table, [stopall] with force runs the
    stop command once on every configured node, in the configured order,
    and [rereadall] runs the reread command once on every configured node
    whose status is up, leaving the status table as it is. *)
Theorem stopall_rereadall_whole_cluster (lab : Lab) (nodelist : option (list string))
    (verbose : bool) (s : CM) :
  (∀ n, n ∈ Env_nodes lab -> is_Some (ShouldBeStatus s !! n)) ->
  (∀ force, stopall lab nodelist verbose force s = stopall lab None verbose force s)
  ∧ rereadall lab nodelist s = rereadall lab None s
  ∧ (∃ r s',
       stopall lab nodelist verbose true s = (Ret r, s')
       ∧ (rsh_calls (history s')).*1
         = (rsh_calls (history s)).*1
           ++ map (fun n => (n, templates lab "StopCmd")) (Env_nodes lab))
  ∧ (∃ s',
       rereadall lab nodelist s = (Ret (), s')
       ∧ ShouldBeStatus s' = ShouldBeStatus s
       ∧ (rsh_calls (history s')).*1
         = (rsh_calls (history s)).*1
           ++ map (fun n => (n, templates lab "RereadCmd"))
                  (filter (fun n => ShouldBeStatus s !! n = Some "up") (Env_nodes lab))).
Proof.
  intros Hall. split; [done|]. split; [done|]. split.
  - by apply stopall_loop_force.
  - by apply rereadall_loop_calls.
Qed.

Lemma stopall_rereadall_whole_cluster_witness :
  let lab := ex_lab ["A"; "B"; "C"] false (fun _ _ _ => 0) (fun _ => true)
               (fun _ _ => true) (fun _ _ _ => []) in
  let s := ex_cm [("A", "up"); ("B", "down"); ("C", "up")] in
  (∃ r s',
     stopall lab (Some ["B"]) false true s = (Ret r, s')
     ∧ (rsh_calls (history s')).*1 = [("A", "stop"); ("B", "stop"); ("C", "stop")])
  ∧ (∃ s',
       rereadall lab (Some ["B"]) s = (Ret (), s')
       ∧ (rsh_calls (history s')).*1 = [("A", "reread"); ("C", "reread")]).
Proof.
  destruct (stopall_rereadall_whole_cluster
              (ex_lab ["A"; "B"; "C"] false (fun _ _ _ => 0) (fun _ => true)
                      (fun _ _ => true) (fun _ _ _ => []))
              (Some ["B"]) false (ex_cm [("A", "up"); ("B", "down"); ("C", "up")]))
    as (_ & _ & (r & s1 & Hstop & Hcalls) & (s2 & Hre & _ & Hcalls')).
  - intros n Hn. vm_compute in Hn.
    apply elem_of_cons in Hn as [->|Hn]; [eexists; vm_compute; reflexivity|].
    apply elem_of_cons in Hn as [->|Hn]; [eexists; vm_compute; reflexivity|].
    apply elem_of_cons in Hn as [->|Hn]; [eexists; vm_compute; reflexivity|].
    by apply elem_of_nil in Hn.
  - split.
    + exists r, s1. split; [exact Hstop|]. rewrite Hcalls. reflexivity.
    + exists s2. split; [exact Hre|]. rewrite Hcalls'. vm_compute. reflexivity.
Defined.

(** ** Steps that run no command *)

#[global] Instance extends_calm_steps : CalmSteps (extends calm_event).
Proof. split; [apply _|]. intros e s He. by apply extends_push. Qed.

#[global] Instance calm_preorder : PreOrder calm.
Proof.
  split.
  - intros s. split; reflexivity.
  - intros s1 s2 s3 [E1 T1] [E2 T2]. split; [by etrans|congruence].
Qed.

#[global] Instance calm_steps : CalmSteps calm.
Proof. split; [apply _|]. intros e s He. split; [by apply extends_push|done]. Qed.

Lemma count_waits_app (name : string) (h1 h2 : list Event) :
  count_waits name (h1 ++ h2) = (count_waits name h1 + count_waits name h2)%nat.
Proof.
  induction h1 as [|e h1 IH]; [done|]. destruct e; cbn; rewrite ?IH; lia.
Qed.

(** Events of [calm_event] add nothing to what the history says about
    commands and about the session for all nodes. *)
Lemma count_opened_app (name : string) (h1 h2 : list Event) :
  count_opened name (h1 ++ h2) = (count_opened name h1 + count_opened name h2)%nat.
Proof.
  induction h1 as [|e h1 IH]; [done|]. destruct e; cbn; rewrite ?IH; lia.
Qed.

Lemma calm_events_calls (new : list Event) :
  Forall calm_event new ->
  rsh_calls new = [] ∧ noblock_calls new = []
  ∧ count_waits "fast-start" new = 0%nat ∧ count_opened "fast-start" new = 0%nat.
Proof.
  induction 1 as [|e new He _ (IH1 & IH2 & IH3 & IH4)]; [done|].
  destruct e; cbn in *; try done.
  - repeat split; try done.
    rewrite IH4. destruct (String.eqb_spec name "fast-start"); [done|lia].
  - repeat split; try done.
    rewrite IH3. destruct (String.eqb_spec name "fast-start"); [done|lia].
Qed.

Lemma fc_event_calm (e : Event) : fc_event e -> calm_event e.
Proof. by destruct e. Qed.

Section CalmFrame.

Variable lab : Lab.
Context {R : relation CM} `{!CalmSteps R}.

Lemma calm_emit (e : Event) : calm_event e -> preserves R (emit e).
Proof. intros He s. by apply cs_push. Qed.

Lemma calm_HasQuorum : preserves R (HasQuorum lab).
Proof. intros s. by apply cs_push. Qed.

Lemma calm_StataCM (node : string) : preserves R (StataCM lab node).
Proof. intros s. by apply cs_push. Qed.

Lemma calm_cluster_stable (timeout : option Z) : preserves R (cluster_stable lab timeout).
Proof. intros s. by apply cs_push. Qed.

Lemma calm_new_watch (name : string) (patterns : list string) (timeout : Z) :
  name ≠ "fast-start" -> preserves R (new_watch name patterns timeout).
Proof. intros Hn s. by apply cs_push. Qed.

Lemma calm_setwatch (w : LogWatcher) :
  w_name w ≠ "fast-start" -> preserves R (setwatch lab w).
Proof. intros Hn s. by apply cs_push. Qed.

Lemma calm_lookforall (w : LogWatcher) :
  w_name w ≠ "fast-start" -> preserves R (lookforall lab w).
Proof.
  intros Hn s. unfold lookforall. destruct (watch_all lab (history s) w). by apply cs_push.
Qed.

Lemma preserves_bind_val {A B : Type} (Q : A -> Prop) (m : M A) (f : A -> M B) :
  preserves R m -> returns Q m -> (∀ a, Q a -> preserves R (f a)) -> preserves R (bind m f).
Proof.
  intros Hm HQ Hf s. unfold bind. specialize (Hm s). specialize (HQ s).
  destruct (m s) as [[a|e] s1]; cbn in *; [|done].
  etrans; [exact Hm|]. eapply Hf, HQ. done.
Qed.

Lemma returns_new_watch (name : string) (patterns : list string) (timeout : Z) :
  returns (fun w => w_name w = name) (new_watch name patterns timeout).
Proof. intros s a s'. unfold new_watch, bind, emit, ret. by intros [= <- _]. Qed.

Lemma returns_setwatch (w : LogWatcher) :
  returns (fun w' => w_name w' = w_name w) (setwatch lab w).
Proof. intros s a s'. unfold setwatch. by intros [= <- _]. Qed.

Lemma returns_lookforall (w : LogWatcher) :
  returns (fun r => w_name r.2 = w_name w) (lookforall lab w).
Proof.
  intros s a s'. unfold lookforall. destruct (watch_all lab (history s) w).
  by intros [= <- _].
Qed.

End CalmFrame.

Ltac calm_side H :=
  first [ exact I | apply _ | rewrite H; done | done ].

Ltac calm_step :=
  first
    [ assumption
    | match goal with |- CalmSteps _ => apply _ end
    | apply preserves_ret | apply preserves_raise
    | apply preserves_status_get
    | apply calm_HasQuorum | apply calm_StataCM | apply calm_cluster_stable
    | apply calm_emit; first [exact I | apply _ | done]
    | match goal with
      | |- preserves _ (bind (new_watch ?n _ _) _) =>
          apply (preserves_bind_val (fun w => w_name w = n));
          [apply calm_new_watch; first [apply _ | done]
          |apply returns_new_watch | intros ? ?]
      | H : w_name ?w = _ |- preserves _ (bind (setwatch _ ?w) _) =>
          apply (preserves_bind_val (fun w' => w_name w' = w_name w));
          [apply calm_setwatch; calm_side H | apply returns_setwatch
          |let Hw := fresh in intros ? Hw; rewrite H in Hw]
      | H : w_name ?w = _ |- preserves _ (bind (lookforall _ ?w) _) =>
          apply (preserves_bind_val (fun r => w_name r.2 = w_name w));
          [apply calm_lookforall; calm_side H | apply returns_lookforall
          |let Hw := fresh in intros [? ?] Hw; cbn in Hw; rewrite H in Hw]
      end
    | apply preserves_bind; [|intros ?]
    | match goal with
      | |- preserves _ (if ?c then _ else _) => destruct c
      | IH : ∀ _, _ |- _ => apply IH
      end ].

Section CalmLoops.

Variable lab : Lab.
Context {R : relation CM} `{!CalmSteps R}.

Lemma calm_upcount_loop (nodes : list string) (count : Z) :
  preserves R (upcount_loop nodes count).
Proof. revert count. induction nodes as [|n nodes IH]; intros count; cbn; repeat calm_step. Qed.

Lemma calm_stonith_patterns (nodes pats : list string) :
  preserves R (stonith_patterns lab nodes pats).
Proof. revert pats. induction nodes as [|n nodes IH]; intros pats; cbn; repeat calm_step. Qed.

Lemma calm_warn_unmatched (regs : list string) : preserves R (warn_unmatched lab regs).
Proof. induction regs as [|r regs IH]; cbn; unfold log; repeat calm_step. Qed.

Lemma calm_and_then (a b : M bool) :
  preserves R a -> preserves R b -> preserves R (and_then a b).
Proof. intros Ha Hb. unfold and_then. apply preserves_bind; [done|]. by intros []; [|calm_step]. Qed.

Lemma calm_prepare_fencing_watcher (name : string) :
  preserves R (prepare_fencing_watcher lab name).
Proof.
  unfold prepare_fencing_watcher, debug.
  repeat first [apply calm_stonith_patterns | calm_step].
Qed.

End CalmLoops.

(** ** What a start adds to the history *)

Section StartHistory.

Variable lab : Lab.
Variable node : string.

Lemma calm0_status_set (n st : string) : preserves (extends calm_event) (status_set n st).
Proof. intros s. by exists []. Qed.

Lemma calm0_status_default (n st : string) :
  preserves (extends calm_event) (status_default n st).
Proof. intros s. unfold status_default. destruct (decide _); by exists []. Qed.

Lemma calm0_fencing_cleanup (n : string) (stonith : option LogWatcher) :
  preserves (extends calm_event) (fencing_cleanup lab n stonith).
Proof.
  intros s. destruct (fencing_cleanup_preserves lab n stonith s) as [E _].
  eapply extends_weaken; [apply fc_event_calm|done].
Qed.

Lemma calm_start_rel (s s' : CM) : extends calm_event s s' -> start_rel lab node s s'.
Proof.
  intros (new & Hh & Hnew). apply calm_events_calls in Hnew as (H1 & H2 & H3 & H4).
  exists new. repeat split; try done. by left.
Qed.

Lemma start_rel_pre (s s1 s' : CM) :
  extends calm_event s s1 -> start_rel lab node s1 s' -> start_rel lab node s s'.
Proof.
  intros (n1 & Hh1 & Hn1) (n2 & Hh2 & Hnb & Hcw & Hco & Hrsh).
  apply calm_events_calls in Hn1 as (H1 & H2 & H3 & H4).
  exists (n2 ++ n1). rewrite Hh2 Hh1 app_assoc. split; [done|].
  rewrite noblock_calls_app count_waits_app count_opened_app rsh_calls_app
    H1 H2 H3 H4 Hnb Hcw Hco.
  repeat split; try done.
Qed.

Lemma start_rel_post (s s1 s' : CM) :
  start_rel lab node s s1 -> extends calm_event s1 s' -> start_rel lab node s s'.
Proof.
  intros (n1 & Hh1 & Hnb & Hcw & Hco & Hrsh) (n2 & Hh2 & Hn2).
  apply calm_events_calls in Hn2 as (H1 & H2 & H3 & H4).
  exists (n2 ++ n1). rewrite Hh2 Hh1 app_assoc. split; [done|].
  rewrite noblock_calls_app count_waits_app count_opened_app rsh_calls_app
    H1 H2 H3 H4 Hnb Hcw Hco !app_nil_r.
  repeat split; try done.
Qed.

Lemma start_bind_pre {A B : Type} (Q : A -> Prop) (m : M A) (f : A -> M B) :
  preserves (extends calm_event) m -> returns Q m ->
  (∀ a, Q a -> preserves (start_rel lab node) (f a)) ->
  preserves (start_rel lab node) (bind m f).
Proof.
  intros Hm HQ Hf s. unfold bind. specialize (Hm s). specialize (HQ s).
  destruct (m s) as [[a|e] s1]; cbn in *.
  - eapply start_rel_pre; [exact Hm|]. eapply Hf, HQ. done.
  - by apply calm_start_rel.
Qed.

Lemma start_bind_post {A B : Type} (m : M A) (f : A -> M B) :
  preserves (start_rel lab node) m ->
  (∀ a, preserves (extends calm_event) (f a)) ->
  preserves (start_rel lab node) (bind m f).
Proof.
  intros Hm Hf s. unfold bind. specialize (Hm s).
  destruct (m s) as [[a|e] s1]; cbn in *; [|done].
  eapply start_rel_post; [exact Hm|]. apply Hf.
Qed.

Lemma start_rsh : preserves (start_rel lab node) (rsh lab node (templates lab "StartCmd")).
Proof.
  intros s. cbn. eexists [_]. split; [done|]. cbn. repeat split; try done.
  right. by eexists.
Qed.

Lemma returns_any {A : Type} (m : M A) : returns (fun _ => True) m.
Proof. by intros s a s' _. Qed.

Lemma start_ret {A : Type} (a : A) : preserves (start_rel lab node) (ret a).
Proof. intros s. apply calm_start_rel. reflexivity. Qed.

(** [StartaCM] sends no command without waiting, does not wait on the
    session for all nodes, and runs at most one blocking command, the start
    command on its node. *)
Lemma StartaCM_start_rel (verbose : bool) :
  preserves (start_rel lab node) (StartaCM lab node verbose).
Proof.
  unfold StartaCM, log, debug, upcount, install_config.
  apply (start_bind_pre (fun _ => True)); [repeat calm_step|apply returns_any|intros _ _].
  apply (start_bind_pre (fun _ => True));
    [apply calm0_status_default|apply returns_any|intros _ _].
  apply (start_bind_pre (fun _ => True)); [repeat calm_step|apply returns_any|intros st _].
  destruct (decide (st ≠ "down")); [apply start_ret|].
  apply (start_bind_pre (fun _ => True));
    [apply calm_upcount_loop; apply _|apply returns_any|intros up _].
  apply (start_bind_pre (fun w => w_name w = "StartaCM"));
    [apply calm_new_watch; first [apply _|done]|apply returns_new_watch|intros watch Hw].
  apply (start_bind_pre (fun _ => True)); [repeat calm_step|apply returns_any|intros _ _].
  apply (start_bind_pre (fun _ => True));
    [apply calm0_status_set|apply returns_any|intros _ _].
  apply (start_bind_pre (fun _ => True));
    [apply calm_and_then; try apply _; repeat calm_step|apply returns_any|intros started _].
  destruct started.
  { apply (start_bind_pre (fun _ => True)); [repeat calm_step|apply returns_any|intros _ _].
    apply start_ret. }
  apply (start_bind_pre (fun _ => True));
    [apply calm_prepare_fencing_watcher; apply _|apply returns_any|intros stonith _].
  apply (start_bind_pre (fun w => w_name w = w_name watch));
    [apply calm_setwatch; first [apply _|by rewrite Hw]|apply returns_setwatch
    |intros watch' Hw'].
  rewrite Hw in Hw'.
  apply start_bind_post; [apply start_rsh|intros rc].
  destruct (decide (rc ≠ 0)).
  { repeat first [apply calm0_fencing_cleanup | calm_step]. }
  repeat first [ apply calm0_fencing_cleanup | apply calm0_status_set
               | apply calm_warn_unmatched; apply _
               | apply calm_and_then; try apply _
               | calm_step ].
Qed.

End StartHistory.

(** ** How a start leaves the status table *)

Lemma calm_rsh_calls (s s' : CM) :
  extends calm_event s s' -> rsh_calls (history s') = rsh_calls (history s).
Proof.
  intros (new & -> & Hnew). apply calm_events_calls in Hnew as (H1 & _).
  by rewrite rsh_calls_app H1 app_nil_r.
Qed.

Lemma calm_calls (s s' : CM) :
  extends calm_event s s' ->
  rsh_calls (history s') = rsh_calls (history s)
  ∧ noblock_calls (history s') = noblock_calls (history s)
  ∧ count_waits "fast-start" (history s') = count_waits "fast-start" (history s)
  ∧ count_opened "fast-start" (history s') = count_opened "fast-start" (history s).
Proof.
  intros (new & -> & Hnew). apply calm_events_calls in Hnew as (H1 & H2 & H3 & H4).
  by rewrite rsh_calls_app noblock_calls_app count_waits_app count_opened_app
       H1 H2 H3 H4 !app_nil_r.
Qed.

Lemma start_rel_calls (lab : Lab) (node : string) (s s' : CM) :
  start_rel lab node s s' ->
  (rsh_calls (history s') = rsh_calls (history s)
   ∨ ∃ rc, rsh_calls (history s')
           = rsh_calls (history s) ++ [(node, templates lab "StartCmd", rc)])
  ∧ noblock_calls (history s') = noblock_calls (history s)
  ∧ count_waits "fast-start" (history s') = count_waits "fast-start" (history s)
  ∧ count_opened "fast-start" (history s') = count_opened "fast-start" (history s).
Proof.
  intros (new & -> & H2 & H3 & H4 & H1).
  rewrite rsh_calls_app noblock_calls_app count_waits_app count_opened_app H2 H3 H4 !app_nil_r.
  split; [|done]. destruct H1 as [-> | [rc ->]]; [left; by rewrite app_nil_r|right; by exists rc].
Qed.

Section StartTable.

Variable lab : Lab.
Variable node : string.

Lemma announce_inv (verbose : bool) (msg : string) (s s1 : CM) (a : unit) :
  (if verbose then log msg else debug msg) s = (Ret a, s1) ->
  s1 = push (announce verbose msg) s.
Proof. destruct verbose; by intros [= <-]. Qed.

Lemma status_default_inv (n st : string) (s s1 : CM) (a : unit) :
  status_default n st s = (Ret a, s1) ->
  history s1 = history s
  ∧ (ShouldBeStatus s1 = ShouldBeStatus s ∧ is_Some (ShouldBeStatus s !! n)
     ∨ ShouldBeStatus s1 !! n = Some st).
Proof.
  unfold status_default. destruct (decide _) as [Hnone|Hsome].
  - intros H. apply status_set_inv in H as ->. split; [done|]. right. cbn.
    by rewrite lookup_insert_eq.
  - unfold ret. intros H. assert (s1 = s) as -> by congruence.
    split; [done|]. left. split; [done|]. by apply not_eq_None_Some.
Qed.

(** The part of [StartaCM] after the start command succeeded (lines
    329-346): when it returns 1, the entry of the node is up, or down if
    at-boot is false, and no further command has been run. *)
Lemma StartaCM_tail (stonith : option LogWatcher) (watch : LogWatcher)
    (r : option Z) (s s' : CM) :
  w_name watch = "StartaCM" ->
  (status_set node "up";;
   '(watch_result, watch) ← lookforall lab watch;
   warn_unmatched lab (unmatched watch);;
   ok ← and_then (ret watch_result) (cluster_stable lab (Some (Env_DeadTime lab)));
   if ok then
     fencing_cleanup lab node stonith;;
     ret py_1
   else
     ok ← and_then (StataCM lab node) (cluster_stable lab (Some (Env_DeadTime lab)));
     if ok then
       fencing_cleanup lab node stonith;;
       ret py_1
     else
       log (fmt lab "Warn: Start failed for node %s" [node]);;
       ret None)%cm s = (Ret r, s') ->
  rsh_calls (history s') = rsh_calls (history s)
  ∧ (r = py_1 ->
     ShouldBeStatus s' !! node = Some "up"
     ∨ (Env_at_boot lab = false ∧ ShouldBeStatus s' !! node = Some "down")).
Proof.
  intros Hw H.
  apply bind_Ret_inv in H as ([] & s1 & H1 & H). apply status_set_inv in H1.
  apply bind_Ret_inv in H as ([wr w1] & s2 & H2 & H).
  assert (calm s1 s2) as C2.
  { eapply preserves_at; [|exact H2]. apply calm_lookforall; [apply _|by rewrite Hw]. }
  apply bind_Ret_inv in H as ([] & s3 & H3 & H).
  assert (calm s2 s3) as C3.
  { eapply preserves_at; [|exact H3]. apply calm_warn_unmatched. apply _. }
  apply bind_Ret_inv in H as (ok & s4 & H4 & H).
  assert (calm s3 s4) as C4.
  { eapply preserves_at; [|exact H4]. apply calm_and_then; repeat calm_step. }
  assert (calm s1 s4) as C14 by (etrans; [exact C2|]; etrans; done).
  assert (∀ s5 s6 x,
            calm s4 s5 -> fencing_cleanup lab node stonith s5 = (Ret x, s6) ->
            rsh_calls (history s6) = rsh_calls (history s)
            ∧ (ShouldBeStatus s6 !! node = Some "up"
               ∨ (Env_at_boot lab = false ∧ ShouldBeStatus s6 !! node = Some "down")))
    as Hfc.
  { intros s5 s6 x C5 Hx.
    assert (calm s1 s5) as [E15 T15] by (etrans; done).
    destruct (preserves_at (fc_rel lab) _ _ _ _ (fencing_cleanup_preserves lab node stonith) Hx)
      as [E56 M56].
    split.
    - assert (rsh_calls (history s6) = rsh_calls (history s5)) as ->.
      { apply calm_rsh_calls. eapply extends_weaken; [apply fc_event_calm|done]. }
      rewrite (calm_rsh_calls s1 s5) // H1 //.
    - destruct (M56 node) as [-> | ->].
      + left. rewrite T15 H1. cbn. by rewrite lookup_insert_eq.
      + destruct (Env_at_boot lab); [by left|right; done]. }
  destruct ok.
  { apply bind_Ret_inv in H as (x & s5 & H5 & H). injection H as <- <-.
    destruct (Hfc s4 s5 x) as [Hr Ht]; [reflexivity|done|]. done. }
  apply bind_Ret_inv in H as (ok2 & s5 & H5 & H).
  assert (calm s4 s5) as C5.
  { eapply preserves_at; [|exact H5]. apply calm_and_then; repeat calm_step. }
  destruct ok2.
  { apply bind_Ret_inv in H as (x & s6 & H6 & H). injection H as <- <-.
    destruct (Hfc s5 s6 x) as [Hr Ht]; [done..|]. done. }
  apply bind_Ret_inv in H as ([] & s6 & H6 & H). apply emit_inv in H6 as ->.
  injection H as <- <-. split; [|done].
  assert (calm s1 s5) as [E15 _] by (etrans; done).
  cbn. rewrite (calm_rsh_calls s1 s5) // H1 //.
Qed.

(** On a node whose entry is not down, [StartaCM] only announces itself. *)
Lemma StartaCM_not_down (verbose : bool) (st : string) (s : CM) :
  ShouldBeStatus s !! node = Some st -> st ≠ "down" ->
  StartaCM lab node verbose s
  = (Ret py_1,
     push (announce verbose (fmt lab "Starting %s on node %s" [templates lab "Name"; node])) s).
Proof.
  intros Hst Hne. unfold StartaCM, announce. destruct verbose.
  all: erewrite bind_Ret; [|reflexivity].
  all: erewrite bind_Ret;
    [|unfold status_default; cbn; rewrite Hst;
      destruct (decide _) as [E|_]; [discriminate E|reflexivity]].
  all: erewrite bind_Ret; [|unfold status_get; cbn; rewrite Hst; reflexivity].
  all: destruct (decide (st ≠ "down")) as [_|E]; [|by destruct E].
  all: reflexivity.
Qed.

Lemma StartaCM_success (verbose : bool) (r : option Z) (s s' : CM) :
  StartaCM lab node verbose s = (Ret r, s') -> r = py_1 ->
  start_success lab node s s'.
Proof.
  unfold StartaCM. intros H Hr.
  apply bind_Ret_inv in H as ([] & s1 & H1 & H). apply announce_inv in H1.
  apply bind_Ret_inv in H as ([] & s2 & H2 & H).
  apply status_default_inv in H2 as [Hh2 Ht2].
  apply bind_Ret_inv in H as (st & s3 & H3 & H). apply status_get_inv in H3 as [-> Hst].
  destruct (decide (st ≠ "down")) as [Hne|Hdown].
  { injection H as <- <-. left. destruct Ht2 as [[T2 _]|Hd]; [|congruence].
    exists st. rewrite -Hst T2 Hh2 H1. split; [done|]. split; [done|]. split; [done|].
    by destruct verbose. }
  assert (rsh_calls (history s2) = rsh_calls (history s)) as Hc2.
  { rewrite Hh2 H1. by destruct verbose. }
  clear H1 Hh2 Ht2 Hst Hdown s1.
  apply bind_Ret_inv in H as (up & s3 & H3 & H).
  assert (calm s2 s3) as [E3 _].
  { eapply preserves_at; [|exact H3]. apply calm_upcount_loop; apply _. }
  apply bind_Ret_inv in H as (watch & s4 & H4 & H).
  assert (w_name watch = "StartaCM") as Hw by (by eapply returns_new_watch).
  assert (calm s3 s4) as [E4 _].
  { eapply preserves_at; [|exact H4]. apply calm_new_watch; first [apply _|done]. }
  apply bind_Ret_inv in H as ([] & s5 & H5 & H). apply emit_inv in H5 as ->.
  apply bind_Ret_inv in H as ([] & s6 & H6 & H). apply status_set_inv in H6.
  assert (rsh_calls (history s6) = rsh_calls (history s)) as Hc6.
  { rewrite H6. cbn. rewrite (calm_rsh_calls s3 s4) // (calm_rsh_calls s2 s3) //. }
  assert (ShouldBeStatus s6 !! node = Some "any") as Ht6.
  { rewrite H6. cbn. by rewrite lookup_insert_eq. }
  clear H6 E3 E4 H3 H4 Hc2.
  apply bind_Ret_inv in H as (started & s7 & H7 & H).
  assert (calm s6 s7) as [E7 T7].
  { eapply preserves_at; [|exact H7]. apply calm_and_then; repeat calm_step. }
  destruct started.
  { apply bind_Ret_inv in H as ([] & s8 & H8 & H). apply emit_inv in H8 as ->.
    injection H as <- <-. right. left. cbn. rewrite T7. split; [done|]. split; [by eexists|].
    by rewrite (calm_rsh_calls s6 s7). }
  apply bind_Ret_inv in H as (stonith & s8 & H8 & H).
  assert (calm s7 s8) as [E8 _].
  { eapply preserves_at; [|exact H8]. apply calm_prepare_fencing_watcher; apply _. }
  apply bind_Ret_inv in H as (watch' & s9 & H9 & H).
  assert (w_name watch' = "StartaCM") as Hw'.
  { rewrite -Hw. by eapply returns_setwatch. }
  assert (calm s8 s9) as [E9 _].
  { eapply preserves_at; [|exact H9]. apply calm_setwatch; first [apply _|by rewrite Hw]. }
  apply bind_Ret_inv in H as (rc & s10 & H10 & H). apply rsh_inv in H10.
  assert (rsh_calls (history s10)
          = rsh_calls (history s) ++ [(node, templates lab "StartCmd", rc)]) as Hc10.
  { rewrite H10. cbn.
    rewrite (calm_rsh_calls s8 s9) // (calm_rsh_calls s7 s8) // (calm_rsh_calls s6 s7) //.
    by rewrite Hc6. }
  destruct (decide (rc ≠ 0)).
  { apply bind_Ret_inv in H as ([] & s11 & _ & H).
    apply bind_Ret_inv in H as (x & s12 & _ & H). injection H as <- <-. done. }
  apply StartaCM_tail in H as [Hc Ht]; [|done].
  right. right. destruct (Ht Hr) as [Hup|[Hb Hdn]]; [left|right].
  - split; [done|]. exists rc. by rewrite Hc.
  - split; [done|]. split; [done|]. exists rc. by rewrite Hc.
Qed.

End StartTable.

(** ** C1: the status after a successful stop or start *)

Lemma StopaCM_success (lab : Lab) (node : string) (verbose force : bool)
    (r : option Z) (s s' : CM) :
  StopaCM lab node verbose force s = (Ret r, s') -> r = py_1 ->
  stop_success lab node force s s'.
Proof.
  unfold StopaCM. intros H Hr.
  apply bind_Ret_inv in H as ([] & s1 & H1 & H). apply announce_inv in H1.
  apply bind_Ret_inv in H as (st & s2 & H2 & H). apply status_get_inv in H2 as [-> Hst].
  assert (rsh_calls (history s1) = rsh_calls (history s)
          ∧ ShouldBeStatus s1 = ShouldBeStatus s) as [Hc1 Ht1].
  { rewrite H1. by destruct verbose. }
  destruct (bool_decide (st ≠ "up") && negb force) eqn:Hskip.
  { injection H as <- <-. apply andb_true_iff in Hskip as [Hup Hf].
    apply bool_decide_eq_true in Hup. apply negb_true_iff in Hf. right.
    split; [done|]. exists st. by rewrite -Ht1. }
  apply bind_Ret_inv in H as (rc & s3 & H3 & H). apply (rsh_inv lab) in H3 as ->.
  destruct (decide (rc = 0)) as [Hrc|Hrc].
  - apply bind_Ret_inv in H as ([] & s4 & H4 & H). apply status_set_inv in H4 as ->.
    apply bind_Ret_inv in H as (b & s5 & H5 & H). injection H5 as <- <-.
    injection H as <- <-. left. cbn. rewrite lookup_insert_eq Hc1 Hrc //.
  - apply bind_Ret_inv in H as ([] & s4 & _ & H). injection H as <- <-. done.
Qed.

(** C1 (amended).  When [StopaCM] returns 1, the entry of the node is down
    and the stop command was run with exit code 0, or the call was not
    forced and found an entry other than up, which it left alone.  When
    [StartaCM] returns 1, the entry of the node is up and the start command
    was run, except in three cases: the entry was not down before the call
    and the table is unchanged; the node was found running after the entry
    was set to any, and any is what the entry stays; at-boot is false and
    the entry is down (the fencing cleanup that ends the start reported the
    node itself). *)
Theorem success_status (lab : Lab) (node : string) (verbose force : bool)
    (s s' : CM) :
  (StopaCM lab node verbose force s = (Ret py_1, s') -> stop_success lab node force s s')
  ∧ (StartaCM lab node verbose s = (Ret py_1, s') -> start_success lab node s s').
Proof.
  split; intros H.
  - by eapply StopaCM_success.
  - by eapply StartaCM_success.
Qed.

(** The claim fails on both sides.  On an entry that is neither up nor
    down, a start and a stop that is not forced both return 1 and leave the
    entry as it is.  And a start of a node that is down but found running
    returns 1 and leaves the entry any. *)
Lemma success_status_counterexample :
  let lab := ex_lab ["A"; "B"] false (fun _ _ _ => 0) (fun _ => true)
               (fun _ _ => true) (fun _ _ _ => []) in
  let s := ex_cm [("A", "unknown"); ("B", "down")] in
  let started := StartaCM lab "A" false s in
  let stopped := StopaCM lab "A" false false s in
  let running := StartaCM lab "B" false s in
  started.1 = Ret py_1
  ∧ ShouldBeStatus started.2 !! "A" = Some "unknown"
  ∧ ShouldBeStatus started.2 !! "A" ≠ Some "up"
  ∧ stopped.1 = Ret py_1
  ∧ ShouldBeStatus stopped.2 !! "A" = Some "unknown"
  ∧ ShouldBeStatus stopped.2 !! "A" ≠ Some "down"
  ∧ running.1 = Ret py_1
  ∧ ShouldBeStatus running.2 !! "B" = Some "any"
  ∧ ShouldBeStatus running.2 !! "B" ≠ Some "up".
Proof. vm_compute. repeat split; done. Qed.

Lemma success_status_witness :
  let lab := ex_lab ["A"; "B"] false (fun _ _ _ => 0) (fun _ => true)
               (fun _ _ => false) (fun _ _ _ => []) in
  let s := ex_cm [("A", "down"); ("B", "down")] in
  let started := (StartaCM lab "A" false s).2 in
  start_success lab "A" s started
  ∧ stop_success lab "A" false started (StopaCM lab "A" false false started).2.
Proof.
  split.
  - apply (proj2 (success_status
                    (ex_lab ["A"; "B"] false (fun _ _ _ => 0) (fun _ => true)
                            (fun _ _ => false) (fun _ _ _ => []))
                    "A" false false (ex_cm [("A", "down"); ("B", "down")]) _)).
    vm_compute. reflexivity.
  - apply (proj1 (success_status
                    (ex_lab ["A"; "B"] false (fun _ _ _ => 0) (fun _ => true)
                            (fun _ _ => false) (fun _ _ _ => []))
                    "A" false false _ _)).
    vm_compute. reflexivity.
Defined.

(** ** C8: starting a node whose entry is not down *)

(** C8 (amended).  On a node whose entry is not down, [StartaCM] returns 1
    and only announces itself: no command, no session, nothing else in the
    history, and the same status table.  A call that follows a successful
    start is such a call, unless at-boot is false and the successful start
    left the entry down. *)
Theorem StartaCM_idempotent (lab : Lab) (node : string) (verbose : bool) (s : CM) :
  (∀ st, ShouldBeStatus s !! node = Some st -> st ≠ "down" ->
         StartaCM lab node verbose s = (Ret py_1, announced lab node verbose s))
  ∧ (∀ s', StartaCM lab node verbose s = (Ret py_1, s') ->
           StartaCM lab node verbose s' = (Ret py_1, announced lab node verbose s')
           ∨ (Env_at_boot lab = false ∧ ShouldBeStatus s' !! node = Some "down")).
Proof.
  split.
  - intros st Hst Hne. by apply StartaCM_not_down with st.
  - intros s' H. apply StartaCM_success in H; [|done].
    destruct H as [(st & Hst & Hne & T & _)|[(Hany & _)|[(Hup & _)|(Hb & Hdn & _)]]].
    + left. apply StartaCM_not_down with st; [by rewrite T|done].
    + left. by apply StartaCM_not_down with "any".
    + left. by apply StartaCM_not_down with "up".
    + by right.
Qed.

(** A start that succeeds can leave the entry down: here the session that
    watches for fencing reports the fencing of the node being started, and
    at-boot is false.  The next call runs the start command again. *)
Lemma StartaCM_idempotent_counterexample :
  let lab := ex_lab ["A"; "B"] false (fun _ _ _ => 0) (fun _ => false)
               (fun _ _ => false)
               (fun _ name _ => if String.eqb name "StartupFencing"
                                then [("fenced A", 0%nat)] else []) in
  let first := StartaCM lab "A" false (ex_cm [("A", "down"); ("B", "down")]) in
  let second := StartaCM lab "A" false first.2 in
  first.1 = Ret py_1
  ∧ ShouldBeStatus first.2 !! "A" = Some "down"
  ∧ second.1 = Ret py_1
  ∧ rsh_calls (history first.2) = [("A", "start", 0)]
  ∧ rsh_calls (history second.2) = [("A", "start", 0); ("A", "start", 0)]
  ∧ second.2 ≠ announced lab "A" false first.2.
Proof.
  vm_compute. repeat split; done.
Qed.

Lemma StartaCM_idempotent_witness :
  let lab := ex_lab ["A"; "B"] false (fun _ _ _ => 0) (fun _ => true)
               (fun _ _ => false) (fun _ _ _ => []) in
  let s := ex_cm [("A", "up"); ("B", "down")] in
  StartaCM lab "A" false s = (Ret py_1, announced lab "A" false s).
Proof.
  apply (proj1 (StartaCM_idempotent
                  (ex_lab ["A"; "B"] false (fun _ _ _ => 0) (fun _ => true)
                          (fun _ _ => false) (fun _ _ _ => []))
                  "A" false (ex_cm [("A", "up"); ("B", "down")])) "up").
  - vm_compute. reflexivity.
  - done.
Defined.

(** ** C2: the quick start of all nodes *)

(** The warnings for the expressions a session left unmatched. *)
Lemma warn_unmatched_logs (lab : Lab) (regs : list string) (s : CM) :
  warn_unmatched lab regs s
  = (Ret (), mkCM (ShouldBeStatus s) (instance_errorstoignore s)
               (reverse (not_found lab <$> regs) ++ history s)).
Proof.
  revert s. induction regs as [|regex regs IH]; intros s.
  { by destruct s. }
  cbn [warn_unmatched]. erewrite bind_Ret; [|reflexivity].
  rewrite IH fmap_cons reverse_cons -app_assoc. reflexivity.
Qed.

(** [StartaCM] returns 1 or None. *)
Lemma StartaCM_result (lab : Lab) (node : string) (verbose : bool) (r : option Z)
    (s s' : CM) :
  StartaCM lab node verbose s = (Ret r, s') -> r = py_1 ∨ r = None.
Proof.
  unfold StartaCM. intros H.
  repeat match type of H with
         | bind _ _ _ = (Ret _, _) => apply bind_Ret_inv in H as (? & ? & _ & H)
         | (if ?c then _ else _) _ = _ => destruct c
         | (let '(_, _) := ?p in _) _ = _ => destruct p
         end.
  all: injection H as <- _; auto.
Qed.

Section QuickStart.

Variable lab : Lab.

Lemma calm_wait_loop {R : relation CM} `{!CalmSteps R}
    (nodelist rest : list string) (node : option string) :
  preserves R (wait_loop nodelist rest node).
Proof.
  revert node. induction rest as [|n rest IH]; intros node; cbn; repeat calm_step.
Qed.

(** The loop that starts the nodes without waiting sends the start command
    to every node of the list, in order, and does nothing else that
    counts. *)
Lemma noblock_loop_calls (nodelist : list string) (verbose : bool) (s : CM) :
  ∃ s',
    noblock_loop lab nodelist verbose s = (Ret (), s')
    ∧ noblock_calls (history s')
      = noblock_calls (history s) ++ map (fun n => (n, templates lab "StartCmd")) nodelist
    ∧ rsh_calls (history s') = rsh_calls (history s)
    ∧ count_waits "fast-start" (history s') = count_waits "fast-start" (history s)
    ∧ count_opened "fast-start" (history s') = count_opened "fast-start" (history s)
    ∧ (∀ e, e ∈ history s -> e ∈ history s').
Proof.
  revert s. induction nodelist as [|n nodelist IH]; intros s; cbn [noblock_loop].
  { exists s. by rewrite app_nil_r. }
  unfold StartaCMnoBlock, install_config, rsh_noblock.
  destruct verbose.
  all: erewrite bind_Ret; [|reflexivity].
  all: edestruct IH as (s' & -> & Hnb & Hrsh & Hcw & Hco & Hin).
  all: exists s'; split; [done|].
  all: rewrite Hnb Hrsh Hcw Hco; cbn; rewrite -app_assoc; repeat split; try done.
  all: intros e He; apply Hin; cbn; do 3 right; done.
Qed.

Lemma start_rel_elem (node : string) (s s' : CM) (e : Event) :
  start_rel lab node s s' -> e ∈ history s -> e ∈ history s'.
Proof. intros (new & -> & _) He. apply elem_of_app. by right. Qed.

Lemma lookforall_inv (w w' : LogWatcher) (ans : bool) (s s1 : CM) :
  lookforall lab w s = (Ret (ans, w'), s1) ->
  s1 = push (LookForAll (w_name w) ans) s.
Proof.
  unfold lookforall. destruct (watch_all lab (history s) w). by intros [= <- _ <-].
Qed.

Lemma startall_quick_post (nodelist : option (list string)) (first : string)
    (rest : list string) (verbose : bool) (r : option Z) (s s' : CM) :
  default_nodes lab nodelist = first :: rest ->
  startall lab nodelist verbose true s = (Ret r, s') ->
  quick_start_post lab (first :: rest) first s r s'.
Proof.
  unfold startall. intros -> H. cbn [negb hd] in H.
  apply bind_Ret_inv in H as (node & s1 & H1 & H).
  assert (extends calm_event s s1) as E1.
  { eapply preserves_at; [|exact H1]. apply calm_wait_loop; apply _. }
  destruct (calm_calls _ _ E1) as (Hr1 & Hn1 & Hw1 & Ho1).
  apply bind_Ret_inv in H as (watch & s2 & H2 & H).
  assert (w_name watch = "fast-start") as Hw by (by eapply returns_new_watch).
  unfold new_watch in H2. apply bind_Ret_inv in H2 as ([] & s2' & H2 & H2').
  apply emit_inv in H2 as ->. injection H2' as _ <-.
  apply bind_Ret_inv in H as (watch' & s3 & H3 & H).
  assert (w_name watch' = "fast-start") as Hw'.
  { rewrite -Hw. by eapply returns_setwatch. }
  assert (s3 = push (SetWatch (w_name watch)) (push (NewWatch "fast-start"
            ([templates lab "Pat:DC_IDLE"] ++ fast_start_patterns lab (first :: rest) first)
            (Env_DeadTime lab + 10)) s1)) as ->.
  { unfold setwatch in H3. by injection H3 as _ <-. }
  clear H3.
  apply bind_Ret_inv in H as (r1 & s4 & H4 & H).
  assert (start_rel lab first
            (push (SetWatch (w_name watch)) (push (NewWatch "fast-start"
               ([templates lab "Pat:DC_IDLE"] ++ fast_start_patterns lab (first :: rest) first)
               (Env_DeadTime lab + 10)) s1)) s4) as S4.
  { eapply preserves_at; [|exact H4]. apply StartaCM_start_rel. }
  destruct (start_rel_calls _ _ _ _ S4) as (Hr4 & Hn4 & Hw4 & Ho4).
  cbn in Hr4, Hn4, Hw4, Ho4. rewrite Hr1 in Hr4. rewrite Hn1 in Hn4.
  rewrite Hw1 in Hw4. rewrite Ho1 in Ho4.
  assert (NewWatch "fast-start"
            ([templates lab "Pat:DC_IDLE"] ++ fast_start_patterns lab (first :: rest) first)
            (Env_DeadTime lab + 10) ∈ history s4) as Hin4.
  { eapply start_rel_elem; [exact S4|]. cbn. right. by left. }
  destruct (truthy r1); cbn [negb] in H.
  2:{ injection H as <- <-. split; [done|]. split; [done|]. split; [done|]. by left. }
  apply bind_Ret_inv in H as ([] & s5 & H5 & H).
  destruct (noblock_loop_calls (first :: rest) verbose s4)
    as (s5' & H5' & Hn5 & Hr5 & Hw5 & Ho5 & Hin5).
  rewrite H5 in H5'. injection H5' as <-.
  apply bind_Ret_inv in H as ([ans watch''] & s6 & H6 & H).
  apply lookforall_inv in H6 as ->. rewrite Hw' in H.
  apply bind_Ret_inv in H as ([] & s7 & H7 & H).
  assert (extends calm_event (push (LookForAll "fast-start" ans) s5) s7) as E7.
  { eapply preserves_at; [|exact H7]. apply calm_warn_unmatched; apply _. }
  destruct (calm_calls _ _ E7) as (Hr7 & Hn7 & Hw7 & Ho7).
  cbn in Hr7, Hn7, Hw7, Ho7.
  assert (NewWatch "fast-start"
            ([templates lab "Pat:DC_IDLE"] ++ fast_start_patterns lab (first :: rest) first)
            (Env_DeadTime lab + 10) ∈ history s7) as Hin7.
  { eapply extends_elem; [exact E7|]. cbn. right. by apply Hin5. }
  apply bind_Ret_inv in H as (settled & s8 & H8 & H). injection H8 as <- <-.
  destruct (stable lab (history s7) None); cbn [negb] in H.
  - injection H as <- <-.
    unfold quick_start_post. cbn. rewrite Ho7 Ho5 Ho4 Hr7 Hr5 Hn7 Hn5 Hn4 Hw7 Hw5 Hw4.
    split; [done|]. split; [by right|]. split; [done|]. right. done.
  - apply bind_Ret_inv in H as ([] & s9 & H9 & H). apply emit_inv in H9 as ->.
    injection H as <- <-.
    unfold quick_start_post. cbn. rewrite Ho7 Ho5 Ho4 Hr7 Hr5 Hn7 Hn5 Hn4 Hw7 Hw5 Hw4.
    split; [done|]. split; [right; by right|]. split; [done|]. right. done.
Qed.

End QuickStart.

(** A quick [startall] that returns has run as [quick_start_run] says. *)
Lemma startall_quick_run (lab : Lab) (nodelist : option (list string)) (first : string)
    (rest : list string) (verbose : bool) (r : option Z) (s s' : CM) :
  default_nodes lab nodelist = first :: rest ->
  startall lab nodelist verbose true s = (Ret r, s') ->
  quick_start_run lab (first :: rest) first verbose s r s'.
Proof.
  unfold startall. intros -> H. cbn [negb hd] in H.
  apply bind_Ret_inv in H as (node & s1 & H1 & H).
  apply bind_Ret_inv in H as (watch & s2 & H2 & H).
  assert (w_name watch = "fast-start") as Hw by exact (returns_new_watch _ _ _ _ _ _ H2).
  unfold new_watch in H2. apply bind_Ret_inv in H2 as ([] & s2' & H2 & H2').
  apply emit_inv in H2 as ->. injection H2' as _ <-.
  apply bind_Ret_inv in H as (watch' & s3 & H3 & H).
  assert (w_name watch' = "fast-start") as Hw'.
  { rewrite -Hw. exact (returns_setwatch _ _ _ _ _ H3). }
  assert (s3 = push (SetWatch "fast-start") (push (NewWatch "fast-start"
            ([templates lab "Pat:DC_IDLE"] ++ fast_start_patterns lab (first :: rest) first)
            (Env_DeadTime lab + 10)) s1)) as ->.
  { unfold setwatch in H3. rewrite -{1}Hw. by injection H3 as _ <-. }
  clear H3.
  apply bind_Ret_inv in H as (r1 & s4 & H4 & H).
  exists node, s1, r1, s4. split; [done|]. split; [done|].
  destruct (StartaCM_result _ _ _ _ _ _ H4) as [-> | ->]; cbn [truthy negb] in H.
  2:{ left. by injection H as <- <-. }
  right. split; [done|]. revert H. rewrite /truthy /py_1 /=. intros H.
  apply bind_Ret_inv in H as ([] & s5 & H5 & H).
  apply bind_Ret_inv in H as ([ans watch''] & s6 & H6 & H).
  pose proof H6 as H6'. apply lookforall_inv in H6' as ->. rewrite Hw' in H.
  rewrite /bind warn_unmatched_logs /= in H.
  exists s5, ans, (unmatched watch''), (stable lab
     (reverse (not_found lab <$> unmatched watch'') ++ LookForAll "fast-start" ans :: history s5)
     None).
  split; [done|].
  revert H. rewrite /cluster_stable /=.
  destruct (stable lab _ None); cbn; intros [= <- <-]; done.
Qed.

(** C2 (amended).  A quick [startall] on a non-empty list of N nodes (the
    list passed, or the configured nodes when none is passed), when it
    returns, has opened one session for all nodes, with the expressions
    of every node of the list, and has run at most one blocking command,
    the start command on the first node (none when that node was not down
    or was found running).  If the start of the first node failed it
    returns 0 and has done nothing more.  Otherwise it has sent the start
    command without waiting N times, once to every node of the list in
    order, the first node included, and has waited once on the session for
    all nodes.  And the run is this one: after the wait for the nodes that
    are down, the session for all nodes is opened and armed, and
    [StartaCM] is run on the first node, in that state.  When [StartaCM]
    returns None the result is 0 and the state is the one [StartaCM]
    left.  When it returns 1, the start command is sent without waiting
    to every node of the list from the state [StartaCM] left, the session
    is waited on, its unmatched expressions are logged, and the cluster is
    checked for having settled: the result is 1 if it has, and 0 if it
    has not. *)
Theorem startall_quick (lab : Lab) (nodelist : option (list string)) (first : string)
    (rest : list string) (verbose : bool) (r : option Z) (s s' : CM) :
  default_nodes lab nodelist = first :: rest ->
  startall lab nodelist verbose true s = (Ret r, s') ->
  quick_start_post lab (first :: rest) first s r s'
  ∧ quick_start_run lab (first :: rest) first verbose s r s'.
Proof.
  intros Hd H. split; [by eapply startall_quick_post|by eapply startall_quick_run].
Qed.

(** With two nodes, both down, the quick start sends the start command
    without waiting twice, to the first node as well, not once; and when
    the first node is found running, no blocking start command is run at
    all. *)
Lemma startall_quick_counterexample :
  let lab := ex_lab ["A"; "B"] false (fun _ _ _ => 0) (fun _ => true)
               (fun _ _ => false) (fun _ _ _ => []) in
  let running := ex_lab ["A"; "B"] false (fun _ _ _ => 0) (fun _ => true)
                   (fun _ _ => true) (fun _ _ _ => []) in
  let s := ex_cm [("A", "down"); ("B", "down")] in
  let r := startall lab (Some ["A"; "B"]) false true s in
  let r' := startall running (Some ["A"; "B"]) false true s in
  r.1 = Ret py_1
  ∧ rsh_calls (history r.2) = [("A", "start", 0)]
  ∧ noblock_calls (history r.2) = [("A", "start"); ("B", "start")]
  ∧ length (noblock_calls (history r.2)) ≠ (length ["A"; "B"] - 1)%nat
  ∧ r'.1 = Ret py_1
  ∧ rsh_calls (history r'.2) = [].
Proof. vm_compute. repeat split; done. Qed.

Lemma startall_quick_witness :
  let lab := ex_lab ["A"; "B"] false (fun _ _ _ => 0) (fun _ => true)
               (fun _ _ => false) (fun _ _ _ => []) in
  let s := ex_cm [("A", "down"); ("B", "down")] in
  (startall lab (Some ["A"; "B"]) false true s).1 = Ret py_1
  ∧ quick_start_post lab ["A"; "B"] "A" s py_1
      (startall lab (Some ["A"; "B"]) false true s).2
  ∧ quick_start_run lab ["A"; "B"] "A" false s py_1
      (startall lab (Some ["A"; "B"]) false true s).2.
Proof.
  split; [by vm_compute|].
  apply (startall_quick
           (ex_lab ["A"; "B"] false (fun _ _ _ => 0) (fun _ => true)
                   (fun _ _ => false) (fun _ _ _ => []))
           (Some ["A"; "B"]) "A" ["B"] false py_1 (ex_cm [("A", "down"); ("B", "down")])).
  - reflexivity.
  - vm_compute. reflexivity.
Defined.

(** * The remaining operations *)

Lemma upcount_loop_counts (nodes : list string) (count : Z) (s : CM) :
  upcount_loop nodes count s
  = match first_unknown (ShouldBeStatus s) nodes with
    | Some n => (Raise (KeyError n), s)
    | None => (Ret (count + Z.of_nat (length (nodes_in "up" (ShouldBeStatus s) nodes))), s)
    end.
Proof.
  revert count. induction nodes as [|n nodes IH]; intros count.
  { cbn. by rewrite Z.add_0_r. }
  cbn [upcount_loop]. unfold first_unknown, nodes_in in *.
  destruct (ShouldBeStatus s !! n) as [st|] eqn:Hst.
  - erewrite bind_Ret; [|unfold status_get; by rewrite Hst].
    rewrite IH. rewrite (filter_cons_False _ n); [|by rewrite Hst].
    destruct (head _); [done|].
    destruct (decide (st = "up")) as [->|Hne].
    + rewrite filter_cons_True; [|by rewrite Hst]. cbn [length]. do 2 f_equal. lia.
    + rewrite filter_cons_False; [|rewrite Hst; congruence]. done.
  - erewrite bind_Raise; [|unfold status_get; by rewrite Hst].
    rewrite filter_cons_True; [|by rewrite Hst]. done.
Qed.

(** X1.  [upcount] returns the number of configured nodes whose entry is
    up, counted as often as the node is configured, and leaves the object
    as it is.  When a configured node has no entry it raises KeyError for
    the first such node instead. *)
Theorem upcount_counts (lab : Lab) (s : CM) :
  upcount lab s
  = match first_unknown (ShouldBeStatus s) (Env_nodes lab) with
    | Some n => (Raise (KeyError n), s)
    | None => (Ret (Z.of_nat (length (nodes_in "up" (ShouldBeStatus s) (Env_nodes lab)))), s)
    end.
Proof. unfold upcount. by rewrite upcount_loop_counts. Qed.

Lemma first_unknown_None (table : gmap string string) (nodes : list string) :
  (∀ n, n ∈ nodes -> is_Some (table !! n)) -> first_unknown table nodes = None.
Proof.
  intros Hall. unfold first_unknown.
  induction nodes as [|n nodes IH]; [done|].
  rewrite filter_cons_False.
  - apply IH. intros k Hk. apply Hall. by right.
  - destruct (Hall n) as [st Hst]; [by left|]. by rewrite Hst.
Qed.

Lemma stonith_patterns_all (lab : Lab) (nodes pats : list string) (s : CM) :
  (∀ n, n ∈ nodes -> is_Some (ShouldBeStatus s !! n)) ->
  stonith_patterns lab nodes pats s
  = (Ret (pats ++ fencing_patterns_of lab (not_up (ShouldBeStatus s) nodes)), s).
Proof.
  revert pats. induction nodes as [|n nodes IH]; intros pats Hall.
  { cbn. by rewrite app_nil_r. }
  cbn [stonith_patterns]. unfold not_up in *.
  destruct (Hall n) as [st Hst]; [by left|].
  erewrite bind_Ret; [|unfold status_get; by rewrite Hst].
  destruct (decide (st ≠ "up")) as [Hne|Heq].
  - rewrite IH; [|intros k Hk; apply Hall; by right].
    rewrite filter_cons_True; [|rewrite Hst; congruence].
    cbn. by rewrite -app_assoc.
  - apply dec_stable in Heq as ->.
    rewrite IH; [|intros k Hk; apply Hall; by right].
    rewrite filter_cons_False; [|rewrite Hst; by intros []]. done.
Qed.

(** X2.  When every configured node has an entry, [prepare_fencing_watcher]
    returns and leaves the status table and the errors to ignore alone.
    With quorum, or with an empty start or ok template, it returns None and
    opens no session.  Otherwise it opens and arms one session, called
    StartupFencing whatever name was passed, with timeout 0, whose
    expressions are, for every configured node whose entry is not up, in
    the configured order, the ok expression of the node followed by its
    start expression. *)
Theorem prepare_fencing_watcher_session (lab : Lab) (name : string) (s : CM) :
  (∀ n, n ∈ Env_nodes lab -> is_Some (ShouldBeStatus s !! n)) ->
  let pats := fencing_patterns_of lab (not_up (ShouldBeStatus s) (Env_nodes lab)) in
  ∃ r s',
    prepare_fencing_watcher lab name s = (Ret r, s')
    ∧ ShouldBeStatus s' = ShouldBeStatus s
    ∧ instance_errorstoignore s' = instance_errorstoignore s
    ∧ if has_quorum lab (history s)
         || bool_decide (templates lab "Pat:Fencing_start" = "")
         || bool_decide (templates lab "Pat:Fencing_ok" = "")
      then r = None
           ∧ ∀ n, count_opened n (history s') = count_opened n (history s)
      else r = Some (mkLogWatcher "StartupFencing" pats 0 []
                       (watch_feed lab
                          (NewWatch "StartupFencing" pats 0 :: Quorum false :: history s)
                          "StartupFencing" pats))
           ∧ history s'
             = SetWatch "StartupFencing" :: NewWatch "StartupFencing" pats 0
               :: Quorum false :: history s.
Proof.
  intros Hall pats. unfold prepare_fencing_watcher.
  erewrite bind_Ret; [|reflexivity].
  destruct (has_quorum lab (history s)) eqn:Hq.
  { cbn. eexists _, _. split; [reflexivity|]. done. }
  cbn [orb].
  destruct (decide (templates lab "Pat:Fencing_start" = "")) as [Hs|Hs].
  { rewrite bool_decide_true //. cbn. eexists _, _. split; [reflexivity|]. done. }
  rewrite (bool_decide_false _ Hs). cbn [orb].
  destruct (decide (templates lab "Pat:Fencing_ok" = "")) as [Ho|Ho].
  { rewrite bool_decide_true //. cbn. eexists _, _. split; [reflexivity|]. done. }
  rewrite (bool_decide_false _ Ho).
  erewrite bind_Ret; [|by apply stonith_patterns_all].
  cbn. eexists _, _. split; [reflexivity|]. done.
Qed.

Lemma prepare_fencing_watcher_session_witness :
  let lab := ex_lab ["A"; "B"; "C"] false (fun _ _ _ => 0) (fun _ => false)
               (fun _ _ => false) (fun _ _ _ => []) in
  let s := ex_cm [("A", "any"); ("B", "up"); ("C", "down")] in
  ∃ w s',
    prepare_fencing_watcher lab "A" s = (Ret (Some w), s')
    ∧ regexes w = ["fenced A"; "fencing A"; "fenced C"; "fencing C"].
Proof.
  destruct (prepare_fencing_watcher_session
              (ex_lab ["A"; "B"; "C"] false (fun _ _ _ => 0) (fun _ => false)
                      (fun _ _ => false) (fun _ _ _ => []))
              "A" (ex_cm [("A", "any"); ("B", "up"); ("C", "down")]))
    as (r & s' & Hp & _ & _ & Hcase).
  - intros n Hn. vm_compute in Hn.
    apply elem_of_cons in Hn as [->|Hn]; [eexists; vm_compute; reflexivity|].
    apply elem_of_cons in Hn as [->|Hn]; [eexists; vm_compute; reflexivity|].
    apply elem_of_cons in Hn as [->|Hn]; [eexists; vm_compute; reflexivity|].
    by apply elem_of_nil in Hn.
  - vm_compute in Hcase. destruct Hcase as [-> _].
    eexists _, s'. split; [exact Hp|]. reflexivity.
Defined.

(** ** What fencing_cleanup never does *)

Lemma fc_events_sessions (new : list Event) (name : string) :
  Forall fc_event new -> count_opened name new = 0%nat ∧ count_waits name new = 0%nat.
Proof.
  induction 1 as [|e new He _ [IH1 IH2]]; [done|]. by destruct e.
Qed.

(** X3.  Whatever [fencing_cleanup] returns or raises, it has run no
    remote command, blocking or not, has opened no session and made no
    [lookforall] (it only polls the session it was given), and every entry
    of the status table is as before or is the status the at-boot flag
    selects for a fenced peer. *)
Theorem fencing_cleanup_frame (lab : Lab) (node : string) (stonith : option LogWatcher)
    (s : CM) :
  let s' := (fencing_cleanup lab node stonith s).2 in
  rsh_calls (history s') = rsh_calls (history s)
  ∧ noblock_calls (history s') = noblock_calls (history s)
  ∧ (∀ name, count_opened name (history s') = count_opened name (history s)
             ∧ count_waits name (history s') = count_waits name (history s))
  ∧ (∀ k, ShouldBeStatus s' !! k = ShouldBeStatus s !! k
          ∨ ShouldBeStatus s' !! k = Some (fenced_status lab)).
Proof.
  destruct (fencing_cleanup_preserves lab node stonith s) as [(new & Hh & Hnew) Hm].
  cbv zeta. rewrite Hh.
  assert (Forall calm_event new) as Hcalm.
  { eapply Forall_impl; [exact Hnew|]. apply fc_event_calm. }
  apply calm_events_calls in Hcalm as (H1 & H2 & _).
  rewrite rsh_calls_app noblock_calls_app H1 H2 !app_nil_r.
  split; [done|]. split; [done|]. split; [|exact Hm].
  intros name. rewrite count_opened_app count_waits_app.
  by destruct (fc_events_sessions new name Hnew) as [-> ->].
Qed.

(** ** The errors to ignore *)

#[global] Instance adds_preorder (P : string -> Prop) : PreOrder (adds P).
Proof.
  split.
  - intros s. exists []. by rewrite app_nil_r.
  - intros s1 s2 s3 (n1 & H1 & F1) (n2 & H2 & F2).
    exists (n1 ++ n2). rewrite H2 H1 app_assoc. split; [done|]. by apply Forall_app.
Qed.

Lemma adds_same (P : string -> Prop) (s s' : CM) :
  instance_errorstoignore s' = instance_errorstoignore s -> adds P s s'.
Proof. intros H. exists []. by rewrite app_nil_r. Qed.

#[global] Instance adds_calm_steps (P : string -> Prop) : CalmSteps (adds P).
Proof. split; [apply _|]. intros e s _. by apply adds_same. Qed.

Lemma adds_status_set (P : string -> Prop) (n st : string) :
  preserves (adds P) (status_set n st).
Proof. intros s. by apply adds_same. Qed.

Lemma adds_status_default (P : string -> Prop) (n st : string) :
  preserves (adds P) (status_default n st).
Proof. intros s. apply adds_same. unfold status_default. by destruct (decide _). Qed.

Lemma adds_rsh (P : string -> Prop) (lab : Lab) (n cmd : string) :
  preserves (adds P) (rsh lab n cmd).
Proof. intros s. by apply adds_same. Qed.

Lemma adds_ignore_append (P : string -> Prop) (pat : string) :
  P pat -> preserves (adds P) (ignore_append pat).
Proof. intros HP s. exists [pat]. split; [done|]. by constructor. Qed.

Ltac adds_step :=
  first
    [ apply preserves_getitem | apply preserves_del_at
    | apply adds_status_set | apply adds_status_default | apply adds_rsh
    | calm_step
    | match goal with
      | |- preserves _ (match ?c with _ => _ end) => destruct c
      end ].

Section ErrorsToIgnore.

Variable lab : Lab.

Lemma adds_match_peers (nodes : list string) (shot : string)
    (peer : option string) (peer_state : gmap string string) :
  (∀ n, n ∈ nodes -> n ∈ Env_nodes lab) ->
  preserves (adds (fencing_pattern lab)) (match_peers lab nodes shot peer peer_state).
Proof.
  revert peer peer_state. induction nodes as [|n nodes IH]; intros peer peer_state Hin;
    cbn [match_peers]; [apply preserves_ret|].
  assert (n ∈ Env_nodes lab) as Hn by (apply Hin; by left).
  assert (∀ k, k ∈ nodes -> k ∈ Env_nodes lab) as Hrest by (intros k Hk; apply Hin; by right).
  destruct (re_search lab _ shot).
  - apply preserves_bind; [|intros _; by apply IH].
    apply adds_ignore_append. exists n. split; [done|]. by left.
  - apply preserves_bind; [apply preserves_getitem|intros st].
    destruct (_ && _); [|by apply IH].
    apply preserves_bind; [|intros _; by apply IH].
    apply adds_ignore_append. exists n. split; [done|]. by right.
Qed.

Lemma adds_record_peer (line : string) (peer : option string) (peer_list : list string) :
  preserves (adds (fencing_pattern lab)) (record_peer lab line peer peer_list).
Proof. unfold record_peer, log, debug. repeat adds_step. Qed.

Lemma adds_scan_loop (timeout : Z) (feed : list (string * nat)) (stonith : LogWatcher)
    (peer : option string) (peer_list : list string) (peer_state : gmap string string) :
  preserves (adds (fencing_pattern lab))
    (scan_loop lab timeout feed stonith peer peer_list peer_state).
Proof.
  revert timeout stonith peer peer_list peer_state.
  induction feed as [|[shot which] feed IH]; intros timeout stonith peer peer_list peer_state;
    cbn [scan_loop]; unfold debug.
  - repeat adds_step.
  - repeat first [ apply adds_match_peers; done | apply adds_record_peer
                 | match goal with
                   | |- preserves _ (bind (match_peers _ _ _ _ _) _) =>
                       apply preserves_bind; [|intros [? ?]]
                   end
                 | adds_step ].
Qed.

Lemma adds_drain_loop (feed : list (string * nat)) (stonith : LogWatcher) :
  preserves (adds (fencing_pattern lab)) (drain_loop lab feed stonith).
Proof.
  revert stonith. induction feed as [|[shot which] feed IH]; intros stonith;
    cbn [drain_loop]; unfold debug; repeat adds_step.
Qed.

Lemma adds_settle_peers (node : string) (peers peer_list : list string)
    (peer_state : gmap string string) (stonith : LogWatcher) :
  preserves (adds (fencing_pattern lab))
    (settle_peers lab node peers peer_list peer_state stonith).
Proof.
  revert stonith. induction peers as [|peer peers IH]; intros stonith;
    cbn [settle_peers]; unfold debug, log;
    repeat first [apply adds_drain_loop | adds_step].
Qed.

Lemma adds_fencing_cleanup (node : string) (stonith : option LogWatcher) :
  preserves (adds (fencing_pattern lab)) (fencing_cleanup lab node stonith).
Proof.
  unfold fencing_cleanup, debug.
  repeat first [ apply adds_scan_loop | apply adds_settle_peers
               | match goal with
                 | |- preserves _ (bind (scan_loop _ _ _ _ _ _ _) _) =>
                     apply preserves_bind; [|intros [? [[? ?] ?]]]
                 | |- preserves _ (bind (settle_peers _ _ _ _ _ _) _) =>
                     apply preserves_bind; [|intros [? ?]]
                 end
               | adds_step ].
Qed.

End ErrorsToIgnore.

Lemma adds_StartaCM (lab : Lab) (node : string) (verbose : bool) :
  preserves (adds (fencing_pattern lab)) (StartaCM lab node verbose).
Proof.
  unfold StartaCM, log, debug, upcount, install_config.
  repeat first [ apply adds_fencing_cleanup
               | apply calm_upcount_loop | apply calm_prepare_fencing_watcher
               | apply calm_warn_unmatched | apply calm_and_then
               | adds_step ].
Qed.

(** X4.  Whatever [fencing_cleanup] returns or raises, the errors to
    ignore are those from before, in place, followed by additions that are
    all ok or start expressions of configured nodes. *)
Theorem fencing_cleanup_errorstoignore (lab : Lab) (node : string)
    (stonith : option LogWatcher) (s : CM) :
  ∃ new,
    instance_errorstoignore (fencing_cleanup lab node stonith s).2
    = instance_errorstoignore s ++ new
    ∧ Forall (fencing_pattern lab) new.
Proof. apply adds_fencing_cleanup. Qed.

(** X5.  After [instance_errorstoignore_clear], a [StartaCM] leaves in
    the list that [instance_errorstoignore] returns nothing but ok and
    start expressions of configured nodes. *)
Theorem errorstoignore_after_clear (lab : Lab) (node : string) (verbose : bool)
    (l : list string) (s s' : CM) :
  (instance_errorstoignore_clear;;
   StartaCM lab node verbose;;
   get_instance_errorstoignore) s = (Ret l, s') ->
  Forall (fencing_pattern lab) l.
Proof.
  intros H.
  apply bind_Ret_inv in H as ([] & s1 & H1 & H). injection H1 as <-.
  apply bind_Ret_inv in H as (r & s2 & H2 & H). injection H as <- <-.
  destruct (preserves_at (adds (fencing_pattern lab)) _ _ _ _
              (adds_StartaCM lab node verbose) H2) as (new & -> & Hnew).
  done.
Qed.

Lemma errorstoignore_after_clear_witness :
  let lab := ex_lab ["A"; "B"] false (fun _ _ _ => 0) (fun _ => false)
               (fun _ _ => false)
               (fun _ name _ => if String.eqb name "StartupFencing"
                                then [("fenced B", 2%nat)] else []) in
  let s := mkCM (list_to_map [("A", "down"); ("B", "down")]) ["stale"] [] in
  Forall (fencing_pattern lab) ["fenced B"]
  ∧ ((instance_errorstoignore_clear;;
      StartaCM lab "A" false;;
      get_instance_errorstoignore) s).1 = Ret ["fenced B"].
Proof.
  split; [|reflexivity].
  eapply (errorstoignore_after_clear
            (ex_lab ["A"; "B"] false (fun _ _ _ => 0) (fun _ => false)
                    (fun _ _ => false)
                    (fun _ name _ => if String.eqb name "StartupFencing"
                                     then [("fenced B", 2%nat)] else []))
            "A" false ["fenced B"]
            (mkCM (list_to_map [("A", "down"); ("B", "down")]) ["stale"] [])).
  vm_compute. reflexivity.
Defined.

(** ** A stop that fails *)

(** X6.  [StopaCM] returns 1 or None, never 0.  When it returns None, the
    entry was up or the call was forced, the stop command was run and its
    exit code was not 0, the error was logged after it, and the status
    table is unchanged. *)
Theorem StopaCM_failure (lab : Lab) (node : string) (verbose force : bool)
    (r : option Z) (s s' : CM) :
  StopaCM lab node verbose force s = (Ret r, s') ->
  r = py_1
  ∨ (r = None
     ∧ (ShouldBeStatus s !! node = Some "up" ∨ force = true)
     ∧ ShouldBeStatus s' = ShouldBeStatus s
     ∧ ∃ rc, rc ≠ 0
             ∧ history s'
               = [Log (fmt lab "ERROR: Could not stop %s on node %s" [Env_Name lab; node]);
                  Rsh node (templates lab "StopCmd") rc;
                  stopping lab node verbose] ++ history s).
Proof.
  unfold StopaCM. intros H.
  apply bind_Ret_inv in H as ([] & s1 & H1 & H). apply announce_inv in H1 as ->.
  apply bind_Ret_inv in H as (st & s2 & H2 & H). apply status_get_inv in H2 as [-> Hst].
  destruct (bool_decide (st ≠ "up") && negb force) eqn:Hskip.
  { injection H as <- <-. by left. }
  apply bind_Ret_inv in H as (rc & s3 & H3 & H). apply (rsh_inv lab) in H3 as ->.
  destruct (decide (rc = 0)) as [Hrc|Hrc].
  - apply bind_Ret_inv in H as ([] & s4 & _ & H).
    apply bind_Ret_inv in H as (b & s5 & _ & H). injection H as <- <-. by left.
  - apply bind_Ret_inv in H as ([] & s4 & H4 & H). apply emit_inv in H4 as ->.
    injection H as <- <-. right. split; [done|]. split.
    { apply andb_false_iff in Hskip as [Hup|Hf].
      - left. apply bool_decide_eq_false in Hup. apply dec_stable in Hup as ->.
        rewrite -Hst. by destruct verbose.
      - right. by destruct force. }
    split; [by destruct verbose|]. exists rc. split; [done|]. by destruct verbose.
Qed.

Lemma StopaCM_failure_witness :
  let lab := ex_lab ["A"; "B"] false (fun _ _ _ => 3) (fun _ => true)
               (fun _ _ => true) (fun _ _ _ => []) in
  let s := ex_cm [("A", "up"); ("B", "down")] in
  let r := StopaCM lab "A" false false s in
  r.1 = Ret None
  ∧ ShouldBeStatus r.2 = ShouldBeStatus s
  ∧ ∃ rc, rc ≠ 0
          ∧ history r.2
            = [Log "ERROR: Could not stop pacemaker on node A"; Rsh "A" "stop" rc;
               Debug "Stopping pacemaker on node A"].
Proof.
  split; [reflexivity|].
  destruct (StopaCM_failure
              (ex_lab ["A"; "B"] false (fun _ _ _ => 3) (fun _ => true)
                      (fun _ _ => true) (fun _ _ _ => []))
              "A" false false None (ex_cm [("A", "up"); ("B", "down")]) _ eq_refl)
    as [H|(_ & _ & Ht & rc & Hrc & Hh)]; [discriminate H|].
  split; [exact Ht|]. exists rc. split; [exact Hrc|exact Hh].
Defined.

(** ** A node without an entry *)

Lemma StopaCM_not_up (lab : Lab) (node st : string) (verbose : bool) (s : CM) :
  ShouldBeStatus s !! node = Some st -> st ≠ "up" ->
  StopaCM lab node verbose false s = (Ret py_1, push (stopping lab node verbose) s).
Proof.
  intros Hst Hne. unfold StopaCM, stopping, announce. destruct verbose.
  all: erewrite bind_Ret; [|reflexivity].
  all: erewrite bind_Ret; [|unfold status_get; cbn; rewrite Hst; reflexivity].
  all: rewrite bool_decide_true //.
Qed.

(** X7.  On a node without an entry, [StopaCM] raises KeyError after it
    announced itself, forced or not; [StartaCM] does what it does on a
    node whose entry is down. *)
Theorem missing_entry (lab : Lab) (node : string) (verbose force : bool) (s : CM) :
  ShouldBeStatus s !! node = None ->
  StopaCM lab node verbose force s
  = (Raise (KeyError node), push (stopping lab node verbose) s)
  ∧ StartaCM lab node verbose s
    = StartaCM lab node verbose
        (mkCM (<[node := "down"]> (ShouldBeStatus s)) (instance_errorstoignore s) (history s)).
Proof.
  intros Hnone. split.
  - unfold StopaCM, stopping, announce. destruct verbose.
    all: erewrite bind_Ret; [|reflexivity].
    all: erewrite bind_Raise; [reflexivity|].
    all: unfold status_get; cbn; by rewrite Hnone.
  - unfold StartaCM. destruct verbose.
    all: erewrite bind_Ret; [|reflexivity].
    all: symmetry; erewrite bind_Ret; [|reflexivity]; symmetry.
    all: erewrite bind_Ret;
      [|unfold status_default; cbn; rewrite Hnone;
        destruct (decide _) as [_|E]; [reflexivity|by destruct E]].
    all: symmetry.
    all: erewrite bind_Ret;
      [|unfold status_default; cbn; rewrite lookup_insert_eq;
        destruct (decide _) as [E|_]; [discriminate E|reflexivity]].
    all: reflexivity.
Qed.

Lemma missing_entry_witness :
  let lab := ex_lab ["A"; "B"] false (fun _ _ _ => 0) (fun _ => true)
               (fun _ _ => false) (fun _ _ _ => []) in
  let s := ex_cm [("B", "down")] in
  StopaCM lab "A" false true s = (Raise (KeyError "A"), push (stopping lab "A" false) s)
  ∧ StartaCM lab "A" false s = StartaCM lab "A" false (ex_cm [("A", "down"); ("B", "down")]).
Proof.
  destruct (missing_entry
              (ex_lab ["A"; "B"] false (fun _ _ _ => 0) (fun _ => true)
                      (fun _ _ => false) (fun _ _ _ => []))
              "A" false true (ex_cm [("B", "down")]) eq_refl) as [H1 H2].
  split; [exact H1|]. rewrite H2. reflexivity.
Defined.

(** ** A blocking call after the call that does not wait *)

(** X8.  [StartaCMnoBlock] and [StopaCMnoBlock] always return 1, send one
    command without waiting, and mark the node up, resp. down, whatever
    its entry was.  The blocking call that follows finds nothing to do:
    [StartaCM], and [StopaCM] without force, return 1 after announcing
    themselves, and run no command. *)
Theorem noblock_then_blocking (lab : Lab) (node : string) (v v' : bool) (s : CM) :
  (∃ s1,
     StartaCMnoBlock lab node v s = (Ret py_1, s1)
     ∧ ShouldBeStatus s1 !! node = Some "up"
     ∧ noblock_calls (history s1)
       = noblock_calls (history s) ++ [(node, templates lab "StartCmd")]
     ∧ StartaCM lab node v' s1 = (Ret py_1, announced lab node v' s1))
  ∧ (∃ s1,
       StopaCMnoBlock lab node s = (Ret py_1, s1)
       ∧ ShouldBeStatus s1 !! node = Some "down"
       ∧ noblock_calls (history s1)
         = noblock_calls (history s) ++ [(node, templates lab "StopCmd")]
       ∧ StopaCM lab node v' false s1 = (Ret py_1, push (stopping lab node v') s1)).
Proof.
  split.
  - destruct v.
    all: eexists; (split; [reflexivity|]).
    all: split; [cbn; by rewrite lookup_insert_eq|].
    all: split; [done|].
    all: apply StartaCM_not_down with "up"; [|done].
    all: cbn; by rewrite lookup_insert_eq.
  - eexists. split; [reflexivity|].
    split; [cbn; by rewrite lookup_insert_eq|].
    split; [done|].
    apply StopaCM_not_up with "down"; [|done].
    cbn. by rewrite lookup_insert_eq.
Qed.

(** ** A start that fails *)

Section StartFailure.

Variable lab : Lab.
Variable node : string.

(** The part of [StartaCM] after the start command succeeded (lines
    329-346), when it returns None: the entry of the node is up, no
    further command has been run, and the warning is the last event. *)
Lemma StartaCM_tail_None (stonith : option LogWatcher) (watch : LogWatcher)
    (s s' : CM) :
  w_name watch = "StartaCM" ->
  (status_set node "up";;
   '(watch_result, watch) ← lookforall lab watch;
   warn_unmatched lab (unmatched watch);;
   ok ← and_then (ret watch_result) (cluster_stable lab (Some (Env_DeadTime lab)));
   if ok then
     fencing_cleanup lab node stonith;;
     ret py_1
   else
     ok ← and_then (StataCM lab node) (cluster_stable lab (Some (Env_DeadTime lab)));
     if ok then
       fencing_cleanup lab node stonith;;
       ret py_1
     else
       log (fmt lab "Warn: Start failed for node %s" [node]);;
       ret None)%cm s = (Ret None, s') ->
  rsh_calls (history s') = rsh_calls (history s)
  ∧ ShouldBeStatus s' !! node = Some "up"
  ∧ ∃ h, history s' = Log (fmt lab "Warn: Start failed for node %s" [node]) :: h.
Proof.
  intros Hw H.
  apply bind_Ret_inv in H as ([] & s1 & H1 & H). apply status_set_inv in H1.
  apply bind_Ret_inv in H as ([wr w1] & s2 & H2 & H).
  assert (calm s1 s2) as C2.
  { eapply preserves_at; [|exact H2]. apply calm_lookforall; [apply _|by rewrite Hw]. }
  apply bind_Ret_inv in H as ([] & s3 & H3 & H).
  assert (calm s2 s3) as C3.
  { eapply preserves_at; [|exact H3]. apply calm_warn_unmatched. apply _. }
  apply bind_Ret_inv in H as (ok & s4 & H4 & H).
  assert (calm s3 s4) as C4.
  { eapply preserves_at; [|exact H4]. apply calm_and_then; repeat calm_step. }
  destruct ok.
  { apply bind_Ret_inv in H as (x & s5 & _ & H). discriminate H. }
  apply bind_Ret_inv in H as (ok2 & s5 & H5 & H).
  assert (calm s4 s5) as C5.
  { eapply preserves_at; [|exact H5]. apply calm_and_then; repeat calm_step. }
  destruct ok2.
  { apply bind_Ret_inv in H as (x & s6 & _ & H). discriminate H. }
  apply bind_Ret_inv in H as ([] & s6 & H6 & H). apply emit_inv in H6 as ->.
  injection H as <-.
  assert (calm s1 s5) as [E15 T15].
  { etrans; [exact C2|]. etrans; [exact C3|]. etrans; done. }
  cbn. rewrite (calm_rsh_calls s1 s5) // T15 H1. cbn. rewrite lookup_insert_eq.
  split; [done|]. split; [done|]. by eexists.
Qed.

(** The same part, with the events it leaves. *)
Lemma StartaCM_tail_unconfirmed (stonith : option LogWatcher) (watch : LogWatcher)
    (s s' : CM) :
  w_name watch = "StartaCM" ->
  (status_set node "up";;
   '(watch_result, watch) ← lookforall lab watch;
   warn_unmatched lab (unmatched watch);;
   ok ← and_then (ret watch_result) (cluster_stable lab (Some (Env_DeadTime lab)));
   if ok then
     fencing_cleanup lab node stonith;;
     ret py_1
   else
     ok ← and_then (StataCM lab node) (cluster_stable lab (Some (Env_DeadTime lab)));
     if ok then
       fencing_cleanup lab node stonith;;
       ret py_1
     else
       log (fmt lab "Warn: Start failed for node %s" [node]);;
       ret None)%cm s = (Ret None, s') ->
  ShouldBeStatus s' = <[node := "up"]> (ShouldBeStatus s)
  ∧ instance_errorstoignore s' = instance_errorstoignore s
  ∧ ∃ new, history s' = new ++ history s ∧ unconfirmed lab node new.
Proof.
  intros Hw H.
  apply bind_Ret_inv in H as ([] & s1 & H1 & H). apply status_set_inv in H1 as ->.
  apply bind_Ret_inv in H as ([wr w1] & s2 & H2 & H).
  apply lookforall_inv in H2 as ->. rewrite Hw in H.
  apply bind_Ret_inv in H as ([] & s3 & H3 & H).
  rewrite warn_unmatched_logs in H3. injection H3 as <-.
  apply bind_Ret_inv in H as (ok & s4 & H4 & H).
  assert (∃ first,
            history s4 = first ++ reverse (not_found lab <$> unmatched w1)
                         ++ LookForAll "StartaCM" wr :: history s
            ∧ first = (if wr then [Stable (Some (Env_DeadTime lab)) false] else [])
            ∧ ShouldBeStatus s4 = <[node := "up"]> (ShouldBeStatus s)
            ∧ instance_errorstoignore s4 = instance_errorstoignore s
            ∧ ok = false) as (first & Hh4 & Hfirst & Ht4 & He4 & ->).
  { unfold and_then in H4.
    apply bind_Ret_inv in H4 as (x & s4' & Hx & H4). injection Hx as <- <-.
    destruct wr.
    - injection H4 as <- <-. cbn [history push ShouldBeStatus instance_errorstoignore].
      destruct (stable lab _ _).
      + apply bind_Ret_inv in H as (y & s6 & _ & H). discriminate H.
      + by exists [Stable (Some (Env_DeadTime lab)) false].
    - injection H4 as <- <-. by exists []. }
  apply bind_Ret_inv in H as (ok2 & s5 & H5 & H).
  assert (∃ second,
            history s5 = second ++ history s4
            ∧ (second = [Stat node false]
               ∨ second = [Stable (Some (Env_DeadTime lab)) false; Stat node true])
            ∧ ShouldBeStatus s5 = ShouldBeStatus s4
            ∧ instance_errorstoignore s5 = instance_errorstoignore s4
            ∧ ok2 = false) as (second & Hh5 & Hsecond & Ht5 & He5 & ->).
  { unfold and_then in H5.
    apply bind_Ret_inv in H5 as (b & s5' & Hb & H5). injection Hb as <- <-.
    destruct (stat_cm lab (history s4) node).
    - injection H5 as <- <-. cbn [history push ShouldBeStatus instance_errorstoignore].
      destruct (stable lab _ _).
      + apply bind_Ret_inv in H as (y & s6 & _ & H). discriminate H.
      + exists [Stable (Some (Env_DeadTime lab)) false; Stat node true].
        split; [done|]. split; [by right|done].
    - injection H5 as <- <-. exists [Stat node false].
      split; [done|]. split; [by left|done]. }
  apply bind_Ret_inv in H as ([] & s6 & H6 & H). apply emit_inv in H6 as ->.
  injection H as <-. cbn [history push ShouldBeStatus instance_errorstoignore].
  rewrite Ht5 Ht4 He5 He4. split; [done|]. split; [done|].
  eexists (_ :: second ++ first ++ reverse (not_found lab <$> unmatched w1)
             ++ [LookForAll "StartaCM" wr]).
  split.
  - rewrite Hh5 Hh4. cbn. rewrite -!app_assoc. reflexivity.
  - by exists wr, (unmatched w1), first, second.
Qed.

Lemma StartaCM_outcome (verbose : bool) (r : option Z) (s s' : CM) :
  StartaCM lab node verbose s = (Ret r, s') ->
  r = py_1
  ∨ (r = None
     ∧ ∃ rc,
         rsh_calls (history s')
         = rsh_calls (history s) ++ [(node, templates lab "StartCmd", rc)]
         ∧ ((rc ≠ 0
             ∧ Log (fmt lab "Warn: Start command failed on node %s" [node]) ∈ history s'
             ∧ (ShouldBeStatus s' !! node = Some "any"
                ∨ ShouldBeStatus s' !! node = Some (fenced_status lab)))
            ∨ (rc = 0
               ∧ ShouldBeStatus s' !! node = Some "up"
               ∧ ∃ h new,
                   history s' = new ++ Rsh node (templates lab "StartCmd") 0 :: h
                   ∧ unconfirmed lab node new))).
Proof.
  unfold StartaCM. intros H.
  apply bind_Ret_inv in H as ([] & s1 & H1 & H). apply announce_inv in H1.
  apply bind_Ret_inv in H as ([] & s2 & H2 & H).
  apply status_default_inv in H2 as [Hh2 _].
  apply bind_Ret_inv in H as (st & s3 & H3 & H). apply status_get_inv in H3 as [-> _].
  destruct (decide (st ≠ "down")) as [Hne|Hdown].
  { injection H as <- <-. by left. }
  assert (rsh_calls (history s2) = rsh_calls (history s)) as Hc2.
  { rewrite Hh2 H1. by destruct verbose. }
  clear H1 Hh2 Hdown s1.
  apply bind_Ret_inv in H as (up & s3 & H3 & H).
  assert (calm s2 s3) as [E3 _].
  { eapply preserves_at; [|exact H3]. apply calm_upcount_loop; apply _. }
  apply bind_Ret_inv in H as (watch & s4 & H4 & H).
  assert (w_name watch = "StartaCM") as Hw by (by eapply returns_new_watch).
  assert (calm s3 s4) as [E4 _].
  { eapply preserves_at; [|exact H4]. apply calm_new_watch; first [apply _|done]. }
  apply bind_Ret_inv in H as ([] & s5 & H5 & H). apply emit_inv in H5 as ->.
  apply bind_Ret_inv in H as ([] & s6 & H6 & H). apply status_set_inv in H6.
  assert (rsh_calls (history s6) = rsh_calls (history s)) as Hc6.
  { rewrite H6. cbn. rewrite (calm_rsh_calls s3 s4) // (calm_rsh_calls s2 s3) //. }
  assert (ShouldBeStatus s6 !! node = Some "any") as Ht6.
  { rewrite H6. cbn. by rewrite lookup_insert_eq. }
  clear H6 E3 E4 H3 H4 Hc2.
  apply bind_Ret_inv in H as (started & s7 & H7 & H).
  assert (calm s6 s7) as [E7 T7].
  { eapply preserves_at; [|exact H7]. apply calm_and_then; repeat calm_step. }
  destruct started.
  { apply bind_Ret_inv in H as ([] & s8 & _ & H). injection H as <- <-. by left. }
  apply bind_Ret_inv in H as (stonith & s8 & H8 & H).
  assert (calm s7 s8) as [E8 T8].
  { eapply preserves_at; [|exact H8]. apply calm_prepare_fencing_watcher; apply _. }
  apply bind_Ret_inv in H as (watch' & s9 & H9 & H).
  assert (w_name watch' = "StartaCM") as Hw'.
  { rewrite -Hw. by eapply returns_setwatch. }
  assert (calm s8 s9) as [E9 T9].
  { eapply preserves_at; [|exact H9]. apply calm_setwatch; first [apply _|by rewrite Hw]. }
  apply bind_Ret_inv in H as (rc & s10 & H10 & H). apply rsh_inv in H10.
  assert (rsh_calls (history s10)
          = rsh_calls (history s) ++ [(node, templates lab "StartCmd", rc)]) as Hc10.
  { rewrite H10. cbn.
    rewrite (calm_rsh_calls s8 s9) // (calm_rsh_calls s7 s8) // (calm_rsh_calls s6 s7) //.
    by rewrite Hc6. }
  assert (ShouldBeStatus s10 !! node = Some "any") as Ht10.
  { rewrite H10. cbn. by rewrite T9 T8 T7. }
  destruct (decide (rc ≠ 0)) as [Hrc|Hrc].
  - apply bind_Ret_inv in H as ([] & s11 & H11 & H). apply emit_inv in H11 as ->.
    apply bind_Ret_inv in H as (x & s12 & H12 & H). injection H as <- <-.
    destruct (preserves_at (fc_rel lab) _ _ _ _ (fencing_cleanup_preserves lab node stonith) H12)
      as [E12 M12].
    right. split; [done|]. exists rc. split.
    { rewrite (calm_rsh_calls (push (Log (fmt lab "Warn: Start command failed on node %s" [node]))
                                    s10) s12).
      - done.
      - eapply extends_weaken; [apply fc_event_calm|done]. }
    left. split; [done|]. split.
    { eapply extends_elem; [exact E12|]. by left. }
    destruct (M12 node) as [-> | ->]; [by left|by right].
  - apply dec_stable in Hrc.
    destruct r as [z|].
    + left. 
      apply bind_Ret_inv in H as ([] & s11 & _ & H).
      apply bind_Ret_inv in H as ([wr w1] & s12 & _ & H).
      apply bind_Ret_inv in H as ([] & s13 & _ & H).
      apply bind_Ret_inv in H as (ok & s14 & _ & H).
      destruct ok.
      { apply bind_Ret_inv in H as (x & s15 & _ & H). by injection H as <- <-. }
      apply bind_Ret_inv in H as (ok2 & s15 & _ & H).
      destruct ok2.
      { apply bind_Ret_inv in H as (x & s16 & _ & H). by injection H as <- <-. }
      apply bind_Ret_inv in H as ([] & s16 & _ & H). discriminate H.
    + right. split; [done|]. exists rc.
      destruct (StartaCM_tail_None stonith watch' _ _ Hw' H) as (Hc & Ht & _).
      apply StartaCM_tail_unconfirmed in H as (_ & _ & new & Hh & Hun); [|done].
      split; [by rewrite Hc|]. right. split; [done|]. split; [done|].
      exists (history s9), new. split; [|done].
      rewrite Hh H10 Hrc. reflexivity.
Qed.

End StartFailure.

(** X9.  [StartaCM] returns 1 or None, never 0.  When it returns None the
    start command was run, once.  Either its exit code was not 0: the
    failure was logged, and the entry of the node is any, or the status of
    a fenced peer if the fencing cleanup found the node itself.  Or its
    exit code was 0 and the entry of the node is up; then the events after
    the start command are exactly these: the wait on the session StartaCM,
    a warning for every expression it left unmatched, the check that the
    cluster settled, answered no, if the session found all expressions,
    the liveness check of the node, answered no, or answered yes and
    followed by a check that the cluster settled, answered no, and last
    the warning that the start failed.  So neither the session nor the
    liveness check confirmed the start, and no fencing cleanup was
    made. *)
Theorem StartaCM_failure (lab : Lab) (node : string) (verbose : bool) (r : option Z)
    (s s' : CM) :
  StartaCM lab node verbose s = (Ret r, s') ->
  r = py_1
  ∨ (r = None
     ∧ ∃ rc,
         rsh_calls (history s')
         = rsh_calls (history s) ++ [(node, templates lab "StartCmd", rc)]
         ∧ ((rc ≠ 0
             ∧ Log (fmt lab "Warn: Start command failed on node %s" [node]) ∈ history s'
             ∧ (ShouldBeStatus s' !! node = Some "any"
                ∨ ShouldBeStatus s' !! node = Some (fenced_status lab)))
            ∨ (rc = 0
               ∧ ShouldBeStatus s' !! node = Some "up"
               ∧ ∃ h new,
                   history s' = new ++ Rsh node (templates lab "StartCmd") 0 :: h
                   ∧ unconfirmed lab node new))).
Proof. apply StartaCM_outcome. Qed.

Lemma StartaCM_failure_witness :
  let lab := mkLab ["A"; "B"] false 60 30 "pacemaker" ex_templates subst ex_repr
               ex_repr_list String.eqb (fun _ _ _ => 0) (fun _ => true)
               (fun _ _ => false) (fun _ _ => true) (fun _ _ _ => [])
               (fun _ _ => (false, ["x"])) in
  let r := StartaCM lab "A" false (ex_cm [("A", "down"); ("B", "up")]) in
  r.1 = Ret None
  ∧ ShouldBeStatus r.2 !! "A" = Some "up"
  ∧ ∃ h new, history r.2 = new ++ Rsh "A" (templates lab "StartCmd") 0 :: h
             ∧ unconfirmed lab "A" new.
Proof.
  cbv zeta. split; [by vm_compute|].
  split; [by vm_compute|].
  assert (StartaCM
            (mkLab ["A"; "B"] false 60 30 "pacemaker" ex_templates subst ex_repr
               ex_repr_list String.eqb (fun _ _ _ => 0) (fun _ => true)
               (fun _ _ => false) (fun _ _ => true) (fun _ _ _ => [])
               (fun _ _ => (false, ["x"])))
            "A" false (ex_cm [("A", "down"); ("B", "up")])
          = (Ret None,
             (StartaCM
                (mkLab ["A"; "B"] false 60 30 "pacemaker" ex_templates subst ex_repr
                   ex_repr_list String.eqb (fun _ _ _ => 0) (fun _ => true)
                   (fun _ _ => false) (fun _ _ => true) (fun _ _ _ => [])
                   (fun _ _ => (false, ["x"])))
                "A" false (ex_cm [("A", "down"); ("B", "up")])).2)) as E
    by (vm_compute; reflexivity).
  destruct (StartaCM_failure _ _ _ _ _ _ E)
    as [H|(_ & rc & Hc & [(Hrc & _)|(_ & _ & H)])]; [discriminate H| |exact H].
  vm_compute in Hc. injection Hc as <-. done.
Defined.

(** ** startall in its basic mode *)

Lemma wait_loop_all (lab : Lab) (nodelist rest : list string) (node : option string) (s : CM) :
  (∀ n, n ∈ rest -> is_Some (ShouldBeStatus s !! n)) ->
  wait_loop nodelist rest node s
  = (Ret (from_option Some node (last rest)),
     mkCM (ShouldBeStatus s) (instance_errorstoignore s)
          (replicate (length (nodes_in "down" (ShouldBeStatus s) rest)) (WaitAllUp nodelist 300)
           ++ history s)).
Proof.
  revert node s. induction rest as [|n rest IH]; intros node s Hall.
  { by destruct s. }
  cbn [wait_loop]. unfold nodes_in in *.
  destruct (Hall n) as [st Hst]; [by left|].
  erewrite bind_Ret; [|unfold status_get; by rewrite Hst].
  assert (from_option Some (Some n) (last rest) = from_option Some node (last (n :: rest)))
    as <- by (rewrite last_cons; by destruct (last rest)).
  destruct (decide (st = "down")) as [->|Hne].
  - erewrite bind_Ret; [|reflexivity].
    rewrite IH; [|intros k Hk; apply Hall; by right].
    rewrite filter_cons_True; [|done]. cbn [length replicate push ShouldBeStatus
      instance_errorstoignore history].
    by rewrite replicate_cons_app -app_assoc.
  - erewrite bind_Ret; [|reflexivity].
    rewrite IH; [|intros k Hk; apply Hall; by right].
    rewrite filter_cons_False; [|rewrite Hst; congruence]. done.
Qed.

(** X10.  Without [quick], [startall] on a non-empty list of nodes that
    all have entries waits for all nodes to come up, once for every node
    of the list whose entry is down, and then is [StartaCM] on the last
    node of the list, with 0 for a result that is not true and 1
    otherwise: no other node is started. *)
Theorem startall_basic_starts_last (lab : Lab) (nodelist : option (list string))
    (init : list string) (final : string) (verbose : bool) (s : CM) :
  default_nodes lab nodelist = init ++ [final] ->
  (∀ n, n ∈ init ++ [final] -> is_Some (ShouldBeStatus s !! n)) ->
  startall lab nodelist verbose false s
  = (r ← StartaCM lab final verbose;
     if negb (truthy r) then ret py_0 else ret py_1)
      (mkCM (ShouldBeStatus s) (instance_errorstoignore s)
            (replicate (length (nodes_in "down" (ShouldBeStatus s) (init ++ [final])))
                       (WaitAllUp (init ++ [final]) 300)
             ++ history s)).
Proof.
  intros Hdef Hall. unfold startall. rewrite Hdef.
  erewrite bind_Ret; [|by apply wait_loop_all].
  by rewrite last_snoc.
Qed.

Lemma startall_basic_starts_last_witness :
  let lab := ex_lab ["A"; "B"; "C"] false (fun _ _ _ => 0) (fun _ => true)
               (fun _ _ => false) (fun _ _ _ => []) in
  let s := ex_cm [("A", "down"); ("B", "up"); ("C", "down")] in
  let r := startall lab None false false s in
  r.1 = Ret py_1
  ∧ rsh_calls (history r.2) = [("C", "start", 0)]
  ∧ ShouldBeStatus r.2 !! "A" = Some "down".
Proof.
  cbv zeta.
  rewrite (startall_basic_starts_last
             (ex_lab ["A"; "B"; "C"] false (fun _ _ _ => 0) (fun _ => true)
                     (fun _ _ => false) (fun _ _ _ => []))
             None ["A"; "B"] "C" false (ex_cm [("A", "down"); ("B", "up"); ("C", "down")])).
  - vm_compute. done.
  - reflexivity.
  - intros n Hn. vm_compute in Hn.
    apply elem_of_cons in Hn as [->|Hn]; [eexists; vm_compute; reflexivity|].
    apply elem_of_cons in Hn as [->|Hn]; [eexists; vm_compute; reflexivity|].
    apply elem_of_cons in Hn as [->|Hn]; [eexists; vm_compute; reflexivity|].
    by apply elem_of_nil in Hn.
Defined.

(** X11.  With no node to go over (an empty list passed, or none, and no
    configured node), [startall] raises: UnboundLocalError for the loop
    variable without [quick], having done nothing; IndexError with
    [quick], after it opened and armed the session for all nodes, whose
    only expression is then the DC_IDLE template. *)
Theorem startall_empty (lab : Lab) (nodelist : option (list string)) (verbose : bool)
    (s : CM) :
  default_nodes lab nodelist = [] ->
  startall lab nodelist verbose false s = (Raise (UnboundLocalError "node"), s)
  ∧ startall lab nodelist verbose true s
    = (Raise IndexError,
       mkCM (ShouldBeStatus s) (instance_errorstoignore s)
            ([SetWatch "fast-start";
              NewWatch "fast-start" [templates lab "Pat:DC_IDLE"] (Env_DeadTime lab + 10)]
             ++ history s)).
Proof.
  intros Hdef. unfold startall. rewrite Hdef. by destruct s.
Qed.

Lemma startall_empty_witness :
  let lab := ex_lab [] false (fun _ _ _ => 0) (fun _ => true)
               (fun _ _ => false) (fun _ _ _ => []) in
  startall lab (Some []) false false (ex_cm []) = (Raise (UnboundLocalError "node"), ex_cm [])
  ∧ (startall lab None false true (ex_cm [])).1 = Raise IndexError.
Proof.
  split.
  - apply (startall_empty
             (ex_lab [] false (fun _ _ _ => 0) (fun _ => true)
                     (fun _ _ => false) (fun _ _ _ => []))
             (Some []) false (ex_cm [])). reflexivity.
  - reflexivity.
Defined.

(** ** What stopall returns *)

Section StopAll.

Variable lab : Lab.

Lemma nodes_in_ext (st : string) (t1 t2 : gmap string string) (l : list string) :
  (∀ k, k ∈ l -> t1 !! k = t2 !! k) -> nodes_in st t1 l = nodes_in st t2 l.
Proof.
  intros Heq. unfold nodes_in. induction l as [|k l IH]; [done|].
  assert (t1 !! k = t2 !! k) as Hk by (apply Heq; by left).
  assert (filter (fun n => t1 !! n = Some st) l = filter (fun n => t2 !! n = Some st) l) as Hl.
  { apply IH. intros j Hj. apply Heq. by right. }
  destruct (decide (t1 !! k = Some st)) as [H1|H1].
  - do 2 (rewrite filter_cons_True; [|first [done|by rewrite -Hk]]). by rewrite Hl.
  - do 2 (rewrite filter_cons_False; [|first [done|by rewrite -Hk]]). done.
Qed.

(** A stop that is forced, or of a node whose entry is up, runs the stop
    command; with exit code 0 the entry becomes down, otherwise the table
    is as before. *)
Lemma StopaCM_runs (node st : string) (verbose force : bool) (s : CM) :
  ShouldBeStatus s !! node = Some st -> st = "up" ∨ force = true ->
  ∃ r s1 rc,
    StopaCM lab node verbose force s = (Ret r, s1)
    ∧ rsh_calls (history s1) = rsh_calls (history s) ++ [(node, templates lab "StopCmd", rc)]
    ∧ (rc = 0 ∧ r = py_1 ∧ ShouldBeStatus s1 = <[node := "down"]> (ShouldBeStatus s)
       ∨ rc ≠ 0 ∧ r = None ∧ ShouldBeStatus s1 = ShouldBeStatus s).
Proof.
  intros Hst Hrun. unfold StopaCM.
  assert (bool_decide (st ≠ "up") && negb force = false) as Hguard.
  { destruct Hrun as [-> | ->]; [|by rewrite andb_false_r].
    rewrite bool_decide_false; [done|by intros []]. }
  destruct verbose; cbv iota.
  all: erewrite bind_Ret; [|reflexivity].
  all: erewrite bind_Ret; [|unfold status_get; cbn; by rewrite Hst].
  all: rewrite Hguard.
  all: erewrite bind_Ret; [|reflexivity].
  all: set (rc := rsh_rc lab _ node _).
  all: destruct (decide (rc = 0)) as [Hrc|Hrc].
  all: try (do 2 (erewrite bind_Ret; [|reflexivity])).
  all: try (erewrite bind_Ret; [|reflexivity]).
  all: eexists _, _, rc; (split; [reflexivity|]); (split; [done|]).
  all: first [left; done | right; done].
Qed.

Lemma stopall_loop_result (nodes : list string) (verbose force : bool) (ret_ : option Z)
    (s : CM) :
  NoDup nodes ->
  (∀ n, n ∈ nodes -> is_Some (ShouldBeStatus s !! n)) ->
  ∃ r s' calls,
    stopall_loop lab nodes verbose force ret_ s = (Ret r, s')
    ∧ rsh_calls (history s') = rsh_calls (history s) ++ calls
    ∧ calls.*1 = map (fun n => (n, templates lab "StopCmd"))
                     (to_stop force (ShouldBeStatus s) nodes)
    ∧ r = (if decide (Forall (fun c => c.2 = 0) calls) then ret_ else py_0)
    ∧ ∀ n, ShouldBeStatus s' !! n
           = if decide ((n, templates lab "StopCmd", 0) ∈ calls)
             then Some "down" else ShouldBeStatus s !! n.
Proof.
  revert ret_ s. induction nodes as [|n nodes IH]; intros ret_ s Hnd Hall; cbn [stopall_loop].
  { exists ret_, s, []. rewrite app_nil_r. unfold to_stop. destruct force; repeat split; done. }
  apply NoDup_cons in Hnd as [Hn Hnd].
  destruct (Hall n) as [st Hst]; [by left|].
  erewrite bind_Ret; [|unfold status_get; by rewrite Hst].
  destruct (bool_decide (st = "up") || force) eqn:Hguard.
  - assert (st = "up" ∨ force = true) as Hrun.
    { apply orb_true_iff in Hguard as [Hup|Hf]; [left|by right].
      by apply bool_decide_eq_true in Hup. }
    destruct (StopaCM_runs n st verbose force s Hst Hrun)
      as (r1 & s1 & rc & Hstop & Hcalls & Hcase).
    erewrite bind_Ret; [|exact Hstop].
    assert (∀ k, k ≠ n -> ShouldBeStatus s1 !! k = ShouldBeStatus s !! k) as Hother.
    { intros k Hk. destruct Hcase as [(_ & _ & ->)|(_ & _ & ->)]; [|done].
      by rewrite lookup_insert_ne. }
    edestruct (IH (if negb (truthy r1) then py_0 else ret_) s1)
      as (r & s' & calls & Hloop & Hrest & Hnames & Hr & Htab); [done| |].
    { intros k Hk. rewrite Hother; [|by intros ->]. apply Hall. by right. }
    exists r, s', ((n, templates lab "StopCmd", rc) :: calls).
    split; [exact Hloop|]. split; [by rewrite Hrest Hcalls -app_assoc|]. split.
    { rewrite fmap_cons Hnames. unfold to_stop. destruct force; [done|].
      destruct Hrun as [-> | ?]; [|done].
      unfold nodes_in at 2. rewrite filter_cons_True; [|done]. cbn. do 2 f_equal.
      apply nodes_in_ext. intros k Hk. apply Hother. by intros ->. }
    destruct Hcase as [(-> & -> & Ht1)|(Hrc & -> & Ht1)].
    + split.
      { rewrite Hr. cbn. apply decide_ext. rewrite Forall_cons.
        split; [by split|by intros [_ ?]]. }
      intros k. rewrite Htab Ht1.
      destruct (decide (k = n)) as [->|Hk].
      * rewrite lookup_insert_eq.
        repeat case_decide; try done.
        all: match goal with H : _ ∉ _ :: _ |- _ => destruct H; by left end.
      * rewrite lookup_insert_ne //. apply decide_ext. rewrite elem_of_cons.
        split; [by right|intros [E|?]; [congruence|done]].
    + split.
      { rewrite Hr. cbn. rewrite (decide_False (P := Forall _ (_ :: _))).
        - by case_match.
        - by intros [? ?]%Forall_cons_1. }
      intros k. rewrite Htab Ht1. apply decide_ext. rewrite elem_of_cons.
      split; [by right|intros [E|?]; [congruence|done]].
  - apply orb_false_iff in Hguard as [Hup ->]. apply bool_decide_eq_false in Hup.
    edestruct (IH ret_ s) as (r & s' & calls & Hloop & Hrest & Hnames & Hr & Htab); [done| |].
    { intros k Hk. apply Hall. by right. }
    exists r, s', calls. split; [exact Hloop|]. split; [done|]. split; [|done].
    unfold to_stop, nodes_in in *. rewrite filter_cons_False; [|rewrite Hst; congruence]. done.
Qed.

End StopAll.

(** X12.  When the configured nodes are pairwise distinct and all have
    entries, [stopall] returns, and has run the stop command on exactly
    the configured nodes it has to stop (all of them when forced, otherwise
    those whose entry was up), in the configured order, whatever the exit
    codes were.  It returns 1 when all exit codes were 0 and 0 otherwise.
    The entry of a node whose stop command returned 0 is down; every other
    entry is unchanged. *)
Theorem stopall_result (lab : Lab) (nodelist : option (list string)) (verbose force : bool)
    (s : CM) :
  NoDup (Env_nodes lab) ->
  (∀ n, n ∈ Env_nodes lab -> is_Some (ShouldBeStatus s !! n)) ->
  ∃ r s' calls,
    stopall lab nodelist verbose force s = (Ret r, s')
    ∧ rsh_calls (history s') = rsh_calls (history s) ++ calls
    ∧ calls.*1 = map (fun n => (n, templates lab "StopCmd"))
                     (to_stop force (ShouldBeStatus s) (Env_nodes lab))
    ∧ r = (if decide (Forall (fun c => c.2 = 0) calls) then py_1 else py_0)
    ∧ ∀ n, ShouldBeStatus s' !! n
           = if decide ((n, templates lab "StopCmd", 0) ∈ calls)
             then Some "down" else ShouldBeStatus s !! n.
Proof. intros Hnd Hall. by apply stopall_loop_result. Qed.

Lemma stopall_result_witness :
  let lab := ex_lab ["A"; "B"; "C"] false
               (fun _ n _ => if String.eqb n "A" then 1 else 0)
               (fun _ => true) (fun _ _ => true) (fun _ _ _ => []) in
  let s := ex_cm [("A", "up"); ("B", "down"); ("C", "up")] in
  ∃ s',
    stopall lab None false false s = (Ret py_0, s')
    ∧ rsh_calls (history s') = [("A", "stop", 1); ("C", "stop", 0)]
    ∧ ShouldBeStatus s' !! "A" = Some "up"
    ∧ ShouldBeStatus s' !! "C" = Some "down".
Proof.
  destruct (stopall_result
              (ex_lab ["A"; "B"; "C"] false
                      (fun _ n _ => if String.eqb n "A" then 1 else 0)
                      (fun _ => true) (fun _ _ => true) (fun _ _ _ => []))
              None false false (ex_cm [("A", "up"); ("B", "down"); ("C", "up")]))
    as (r & s' & calls & Hstop & _).
  - apply (bool_decide_unpack _). vm_compute. exact I.
  - intros n Hn. vm_compute in Hn.
    apply elem_of_cons in Hn as [->|Hn]; [eexists; vm_compute; reflexivity|].
    apply elem_of_cons in Hn as [->|Hn]; [eexists; vm_compute; reflexivity|].
    apply elem_of_cons in Hn as [->|Hn]; [eexists; vm_compute; reflexivity|].
    by apply elem_of_nil in Hn.
  - exists s'. vm_compute in Hstop. injection Hstop as <- <-. vm_compute. done.
Defined.

(** ** statall *)

Lemma statall_loop_probes (lab : Lab) (nodelist : list string) (result : gmap string string)
    (s : CM) :
  ∃ probes : list (string * bool),
    probes.*1 = nodelist
    ∧ statall_loop lab nodelist result s
      = (Ret (foldl (fun m p => <[p.1 := status_word p.2]> m) result probes),
         mkCM (ShouldBeStatus s) (instance_errorstoignore s)
              (reverse ((fun p => Stat p.1 p.2) <$> probes) ++ history s)).
Proof.
  revert result s. induction nodelist as [|n nodelist IH]; intros result s.
  { exists []. split; [done|]. by destruct s. }
  cbn [statall_loop]. erewrite bind_Ret; [|reflexivity].
  set (a := stat_cm lab (history s) n).
  destruct (IH (<[n := if a then "up" else "down"]> result) (push (Stat n a) s))
    as (probes & Hp & ->).
  exists ((n, a) :: probes). split; [cbn; by rewrite Hp|].
  rewrite fmap_cons reverse_cons -app_assoc. reflexivity.
Qed.

Lemma foldl_insert_list_to_map (probes : list (string * string)) (m : gmap string string) :
  foldl (fun m p => <[p.1 := p.2]> m) m probes = list_to_map (reverse probes) ∪ m.
Proof.
  revert m. induction probes as [|[k v] probes IH]; intros m.
  { cbn. by rewrite left_id_L. }
  cbn [foldl]. rewrite IH reverse_cons list_to_map_app.
  rewrite -assoc_L. f_equal. cbn. rewrite insert_empty.
  by rewrite -insert_union_singleton_l.
Qed.

(** X13.  [statall] makes one liveness check per node of its list (the
    list passed, or the configured nodes), in list order, and nothing
    else; it does not touch the status table.  Its result has a key
    exactly for the nodes of the list, with the value up or down; the
    value of a node is the word for the answer of the last check of that
    node. *)
Theorem statall_probes (lab : Lab) (nodelist : option (list string)) (s : CM) :
  ∃ (r : gmap string string) (probes : list (string * bool)),
    probes.*1 = default_nodes lab nodelist
    ∧ statall lab nodelist s
      = (Ret r,
         mkCM (ShouldBeStatus s) (instance_errorstoignore s)
              (reverse ((fun p => Stat p.1 p.2) <$> probes) ++ history s))
    ∧ r = list_to_map (reverse ((fun p => (p.1, status_word p.2)) <$> probes))
    ∧ (∀ n, is_Some (r !! n) ↔ n ∈ default_nodes lab nodelist)
    ∧ (∀ n st, r !! n = Some st -> st = "up" ∨ st = "down").
Proof.
  unfold statall.
  destruct (statall_loop_probes lab (default_nodes lab nodelist) ∅ s) as (probes & Hp & ->).
  eexists _, probes. split; [done|]. split; [reflexivity|].
  assert (foldl (fun m p => <[p.1 := status_word p.2]> m) (∅ : gmap string string) probes
          = list_to_map (reverse ((fun p => (p.1, status_word p.2)) <$> probes))) as ->.
  { rewrite -(right_id_L ∅ (∪) (list_to_map _)) -foldl_insert_list_to_map.
    generalize (∅ : gmap string string). clear Hp.
    induction probes as [|p probes IH]; intros m; [done|]. cbn. apply IH. }
  split; [done|]. split.
  - intros n. rewrite -Hp -not_eq_None_Some.
    rewrite -(not_elem_of_list_to_map (M := gmap string)).
    rewrite -fmap_reverse -list_fmap_compose. cbn.
    rewrite fmap_reverse elem_of_reverse.
    split; [apply dec_stable|by intros ? ?].
  - intros n st Hst. apply elem_of_list_to_map_2 in Hst.
    apply elem_of_reverse, list_elem_of_fmap in Hst as ([k a] & [= _ ->] & _).
    destruct a; [by left|by right].
Qed.

(** ** unisolate_node *)

Lemma unisolate_loop_calls (lab : Lab) (target : string) (nodes : list string) (s : CM) :
  ∃ new,
    unisolate_loop lab target nodes s
    = (Ret (), mkCM (ShouldBeStatus s) (instance_errorstoignore s) (new ++ history s))
    ∧ rsh_calls new = []
    ∧ noblock_calls new = fix_calls lab target (filter (.≠ target) nodes).
Proof.
  revert s. induction nodes as [|n nodes IH]; intros s.
  { exists []. by destruct s. }
  cbn [unisolate_loop]. destruct (decide (n ≠ target)) as [Hn|Hn].
  - erewrite bind_Ret; [|reflexivity].
    match goal with
    | |- context [unisolate_loop lab target nodes ?s1] =>
        destruct (IH s1) as (new & -> & Hr & Hn')
    end.
    cbn. eexists (new ++ [_; _; _]). rewrite -app_assoc. split; [reflexivity|].
    rewrite rsh_calls_app noblock_calls_app Hr Hn'. split; [done|].
    rewrite decide_True; [|done]. reflexivity.
  - erewrite bind_Ret; [|reflexivity].
    edestruct (IH s) as (new & -> & Hr & Hn').
    exists new. split; [done|]. split; [done|].
    rewrite filter_cons_False //.
Qed.

(** X14.  [unisolate_node] returns, runs no blocking command and leaves
    the status table alone.  For every node of the list other than the
    target, in list order, it sends without waiting the command that
    restores the link to the node, on the target, and then the command
    that restores the link to the target, on the node. *)
Theorem unisolate_node_commands (lab : Lab) (target : string) (nodes : option (list string))
    (s : CM) :
  ∃ new,
    unisolate_node lab target nodes s
    = (Ret (), mkCM (ShouldBeStatus s) (instance_errorstoignore s) (new ++ history s))
    ∧ rsh_calls new = []
    ∧ noblock_calls new
      = fix_calls lab target (filter (.≠ target) (default_nodes lab nodes)).
Proof. apply unisolate_loop_calls. Qed.

Lemma isolate_loop_noblock (lab : Lab) (target : string) (nodes : list string) (s : CM) :
  noblock_calls (history (isolate_loop lab target nodes s).2) = noblock_calls (history s).
Proof.
  revert s. induction nodes as [|n nodes IH]; intros s; cbn [isolate_loop]; [done|].
  destruct (decide (n ≠ target)); [|apply IH].
  unfold bind at 1, rsh. cbn.
  destruct (decide (_ ≠ 0)); [done|].
  unfold bind at 1, debug, emit. by rewrite IH.
Qed.

(** X15.  [isolate_node] followed by [unisolate_node] with the same
    arguments: the links that were cut on the target are those to a prefix
    of the peers (all of them when [isolate_node] returned 1), and the
    links restored are those to all the peers, on both sides. *)
Theorem isolate_then_unisolate (lab : Lab) (target : string) (nodes : option (list string))
    (s : CM) :
  ∃ r s1 s2 cut,
    isolate_node lab target nodes s = (Ret r, s1)
    ∧ unisolate_node lab target nodes s1 = (Ret (), s2)
    ∧ cut `prefix_of` filter (.≠ target) (default_nodes lab nodes)
    ∧ (r = py_1 ∧ cut = filter (.≠ target) (default_nodes lab nodes) ∨ r = None)
    ∧ (rsh_calls (history s2)).*1
      = (rsh_calls (history s)).*1 ++ map (fun p => (target, break_cmd lab p)) cut
    ∧ noblock_calls (history s2)
      = noblock_calls (history s)
        ++ fix_calls lab target (filter (.≠ target) (default_nodes lab nodes)).
Proof.
  destruct (isolate_loop_calls lab target (default_nodes lab nodes) s)
    as (r & new1 & Hiso & Hcase).
  destruct (unisolate_loop_calls lab target (default_nodes lab nodes)
              (mkCM (ShouldBeStatus s) (instance_errorstoignore s) (new1 ++ history s)))
    as (new2 & Hun & Hr2 & Hn2).
  assert (noblock_calls new1 = []) as Hn1.
  { pose proof (isolate_loop_noblock lab target (default_nodes lab nodes) s) as Hnb.
    unfold isolate_node in Hiso. rewrite Hiso in Hnb. cbn in Hnb.
    rewrite noblock_calls_app in Hnb.
    apply (app_inv_head (noblock_calls (history s))). by rewrite app_nil_r. }
  exists r, (mkCM (ShouldBeStatus s) (instance_errorstoignore s) (new1 ++ history s)).
  destruct Hcase as [[-> Hc]|(done & p & rest & rc & Hf & Hne & -> & Hc)].
  - eexists _, (filter (.≠ target) (default_nodes lab nodes)).
    split; [exact Hiso|]. split; [exact Hun|].
    cbn [history]. rewrite !rsh_calls_app !noblock_calls_app Hr2 Hn2 Hn1 !app_nil_r fmap_app.
    split; [done|]. split; [by left|]. split; [|done].
    rewrite Hc. f_equal. rewrite -list_fmap_compose. done.
  - eexists _, (done ++ [p]).
    split; [exact Hiso|]. split; [exact Hun|].
    cbn [history]. rewrite !rsh_calls_app !noblock_calls_app Hr2 Hn2 Hn1 !app_nil_r fmap_app.
    split; [rewrite Hf; exists rest; by rewrite -app_assoc|].
    split; [by right|]. split; [|done].
    rewrite Hc. f_equal. rewrite fmap_app map_app -list_fmap_compose. done.
Qed.

(** ** install_support *)

(** X16.  [install_support] runs the cts-support command of the daemon
    directory, with the given sub-command or with install, as a blocking
    command on every configured node, in the configured order, one command
    per node whatever the exit codes are, and does nothing else. *)
Theorem install_support_commands (lab : Lab) (CRM_DAEMON_DIR : string)
    (command : option string) (s : CM) :
  ∃ new,
    install_support lab CRM_DAEMON_DIR command s
    = (Ret (), mkCM (ShouldBeStatus s) (instance_errorstoignore s) (new ++ history s))
    ∧ (rsh_calls new).*1
      = map (fun n => (n, CRM_DAEMON_DIR +:+ "/cts-support " +:+ default "install" command))
            (Env_nodes lab)
    ∧ noblock_calls new = []
    ∧ length new = length (Env_nodes lab).
Proof.
  unfold install_support. generalize (default "install" command) as cmd. intros cmd.
  revert s. induction (Env_nodes lab) as [|n nodes IH]; intros s.
  { exists []. by destruct s. }
  cbn [install_support_loop]. erewrite bind_Ret; [|reflexivity].
  match goal with
  | |- context [install_support_loop lab CRM_DAEMON_DIR nodes cmd ?s1] =>
      destruct (IH s1) as (new & -> & Hr & Hn & Hl)
  end.
  cbn. eexists (new ++ [_]). rewrite -app_assoc. split; [reflexivity|].
  rewrite rsh_calls_app noblock_calls_app Hn length_app Hl. cbn. rewrite Hr.
  split; [done|]. split; [done|]. lia.
Qed.

(** ** oprofile *)

Section Oprofile.

Variable lab : Lab.
Variable Env_oprofile : list string.

Lemma for_each_runs (f : string -> M (option unit)) (cmds : list string) (l : list string)
    (s : CM) :
  (∀ n s, n ∈ l -> runs cmds [n] (f n s) s) ->
  runs cmds l (for_each f l s) s.
Proof.
  revert s. induction l as [|n l IH]; intros s Hf.
  { cbn. unfold runs. cbn. by rewrite app_nil_r. }
  cbn [for_each]. unfold bind.
  destruct (Hf n s) as (Hr & Ht & Hc & Hn); [by left|].
  destruct (f n s) as [o s1]. cbn in Hr, Ht, Hc, Hn. subst o.
  destruct (IH s1) as (Hr' & Ht' & Hc' & Hn').
  { intros k s2 Hk. apply Hf. by right. }
  unfold runs. rewrite Hr' Ht' Hc' Hn' Ht Hc Hn. cbn. rewrite ?app_nil_r -?app_assoc. done.
Qed.

Lemma oprofileStart_named (depth : nat) (n : string) (s : CM) :
  n ≠ "" -> n ∈ Env_oprofile ->
  runs start_cmds [n] (oprofileStart lab Env_oprofile (S depth) (Some n) s) s.
Proof.
  intros Hne Hin. cbn [oprofileStart no_node default].
  rewrite bool_decide_false // decide_True //.
  unfold runs, bind, debug, emit, rsh, ret. cbn.
  rewrite ?fmap_app ?app_nil_r -?app_assoc. done.
Qed.

Lemma oprofileStop_named (depth : nat) (n : string) (s : CM) :
  n ≠ "" -> n ∈ Env_oprofile ->
  runs stop_cmds [n] (oprofileStop lab Env_oprofile (S depth) (Some n) s) s.
Proof.
  intros Hne Hin. cbn [oprofileStop no_node default].
  rewrite bool_decide_false // decide_True //.
  unfold runs, bind, debug, emit, rsh, ret. cbn.
  rewrite ?fmap_app ?app_nil_r -?app_assoc. done.
Qed.

Lemma oprofileSave_named (depth : nat) (test : Z) (n : string) (s : CM) :
  n ≠ "" -> n ∈ Env_oprofile ->
  runs (save_cmds lab test) [n]
    (oprofileSave lab Env_oprofile (S (S depth)) test (Some n) s) s.
Proof.
  intros Hne Hin. cbn [oprofileSave no_node default].
  rewrite bool_decide_false // decide_True //.
  do 2 (erewrite bind_Ret; [|reflexivity]).
  unfold bind at 1.
  match goal with |- context [oprofileStop _ _ _ _ ?s1] =>
    destruct (oprofileStop_named depth n s1 Hne Hin) as (Hr & Ht & Hc & Hn);
    destruct (oprofileStop lab Env_oprofile (S depth) (Some n) s1) as [o s2]
  end.
  cbn in Hr, Ht, Hc, Hn. subst o.
  destruct (oprofileStart_named depth n s2 Hne Hin) as (Hr' & Ht' & Hc' & Hn').
  unfold runs. rewrite Hr' Ht' Hc' Hn' Ht Hc Hn. cbn.
  rewrite ?app_nil_r ?fmap_app -?app_assoc. done.
Qed.

Lemma not_named (n : string) : "" ∉ Env_oprofile -> n ∈ Env_oprofile -> n ≠ "".
Proof. by intros Hno Hin ->. Qed.

End Oprofile.

(** X17.  When no node of [Env["oprofile"]] has an empty name,
    [oprofileStart], [oprofileStop] and [oprofileSave] without a node
    return, given two (for [oprofileSave]: three) nested calls, and have
    run their commands on every node of [Env["oprofile"]], node after
    node in the order of that list. *)
Theorem oprofile_all_nodes (lab : Lab) (Env_oprofile : list string) (depth : nat) (test : Z)
    (s : CM) :
  "" ∉ Env_oprofile ->
  runs start_cmds Env_oprofile (oprofileStart lab Env_oprofile (2 + depth) None s) s
  ∧ runs stop_cmds Env_oprofile (oprofileStop lab Env_oprofile (2 + depth) None s) s
  ∧ runs (save_cmds lab test) Env_oprofile
      (oprofileSave lab Env_oprofile (3 + depth) test None s) s.
Proof.
  intros Hno. split; [|split].
  - cbn [Nat.add oprofileStart no_node]. apply for_each_runs.
    intros n s1 Hn. apply oprofileStart_named; [by eapply not_named|done].
  - cbn [Nat.add oprofileStop no_node]. apply for_each_runs.
    intros n s1 Hn. apply oprofileStop_named; [by eapply not_named|done].
  - cbn [Nat.add oprofileSave no_node]. apply for_each_runs.
    intros n s1 Hn. apply oprofileSave_named; [by eapply not_named|done].
Qed.

Lemma oprofile_all_nodes_witness :
  let lab := ex_lab ["A"; "B"] false (fun _ _ _ => 0) (fun _ => true)
               (fun _ _ => true) (fun _ _ _ => []) in
  let r := oprofileStop lab ["A"; "B"] 2 None (ex_cm []) in
  r.1 = Ret (Some ())
  ∧ (rsh_calls (history r.2)).*1
    = [("A", "opcontrol --reset"); ("A", "opcontrol --shutdown 2>&1 > /dev/null");
       ("B", "opcontrol --reset"); ("B", "opcontrol --shutdown 2>&1 > /dev/null")].
Proof.
  destruct (oprofile_all_nodes
              (ex_lab ["A"; "B"] false (fun _ _ _ => 0) (fun _ => true)
                      (fun _ _ => true) (fun _ _ _ => []))
              ["A"; "B"] 0 0 (ex_cm [])) as (_ & (Hr & _ & Hc & _) & _).
  - apply (bool_decide_unpack _). vm_compute. exact I.
  - split; [exact Hr|]. rewrite Hc. reflexivity.
Defined.

(** X18.  On a node with a name: if the node is in [Env["oprofile"]],
    [oprofileStart] runs its four commands on it, [oprofileStop] its two,
    and [oprofileSave] dumps and saves and then runs the commands of
    [oprofileStop] and of [oprofileStart], in this order; if it is not,
    the three do nothing. *)
Theorem oprofile_named_node (lab : Lab) (Env_oprofile : list string) (depth : nat) (test : Z)
    (node : string) (s : CM) :
  node ≠ "" ->
  if decide (node ∈ Env_oprofile) then
    runs start_cmds [node] (oprofileStart lab Env_oprofile (1 + depth) (Some node) s) s
    ∧ runs stop_cmds [node] (oprofileStop lab Env_oprofile (1 + depth) (Some node) s) s
    ∧ runs (save_cmds lab test) [node]
        (oprofileSave lab Env_oprofile (2 + depth) test (Some node) s) s
  else
    oprofileStart lab Env_oprofile (1 + depth) (Some node) s = (Ret (Some ()), s)
    ∧ oprofileStop lab Env_oprofile (1 + depth) (Some node) s = (Ret (Some ()), s)
    ∧ oprofileSave lab Env_oprofile (1 + depth) test (Some node) s = (Ret (Some ()), s).
Proof.
  intros Hne. destruct (decide (node ∈ Env_oprofile)) as [Hin|Hout].
  - split; [by apply oprofileStart_named|]. split; [by apply oprofileStop_named|].
    by apply oprofileSave_named.
  - cbn [Nat.add oprofileStart oprofileStop oprofileSave no_node default from_option id].
    rewrite bool_decide_false // !decide_False //.
Qed.

Lemma oprofile_named_node_witness :
  let lab := ex_lab ["A"; "B"] false (fun _ _ _ => 0) (fun _ => true)
               (fun _ _ => true) (fun _ _ _ => []) in
  let r := oprofileSave lab ["A"] 2 7 (Some "A") (ex_cm []) in
  r.1 = Ret (Some ())
  ∧ (rsh_calls (history r.2)).*1
    = [("A", "opcontrol --dump"); ("A", "opcontrol --save=cts.7");
       ("A", "opcontrol --reset"); ("A", "opcontrol --shutdown 2>&1 > /dev/null");
       ("A", "opcontrol --init");
       ("A", "opcontrol --setup --no-vmlinux --separate=lib --callgraph=20 --image=all");
       ("A", "opcontrol --start"); ("A", "opcontrol --reset")].
Proof.
  pose proof (oprofile_named_node
                (ex_lab ["A"; "B"] false (fun _ _ _ => 0) (fun _ => true)
                        (fun _ _ => true) (fun _ _ _ => []))
                ["A"] 0 7 "A" (ex_cm [])) as H.
  cbv zeta. specialize (H ltac:(done)).
  case_decide as Hin; [|destruct Hin; by left].
  destruct H as (_ & _ & Hr & _ & Hc & _).
  split; [exact Hr|]. rewrite Hc. vm_compute. reflexivity.
Defined.

(** ** A node without a name among the nodes to profile *)

Section OprofileDepth.

Variable lab : Lab.
Variable Env_oprofile : list string.

Lemma for_each_returns (f : string -> M (option unit)) (l : list string) :
  (∀ n, returns_some (f n)) -> returns_some (for_each f l).
Proof.
  intros Hf. induction l as [|n l IH]; intros s; cbn [for_each]; [by eexists|].
  unfold bind. destruct (Hf n s) as [r Hr]. destruct (f n s) as [o s1]. cbn in Hr. subst o.
  destruct r; [apply IH|by eexists].
Qed.

Lemma for_each_exceeds (f : string -> M (option unit)) (l : list string) (x : string) :
  (∀ n, returns_some (f n)) -> x ∈ l -> (∀ s, (f x s).1 = Ret None) ->
  ∀ s, (for_each f l s).1 = Ret None.
Proof.
  intros Hf Hx Hnone. induction l as [|n l IH]; intros s; [by apply elem_of_nil in Hx|].
  cbn [for_each]. unfold bind.
  destruct (Hf n s) as [r Hr]. pose proof (Hnone s) as Hxs.
  destruct (f n s) as [o s1] eqn:Hfn. cbn in Hr. subst o.
  destruct r as [[]|]; [|done].
  apply IH. apply elem_of_cons in Hx as [->|Hx]; [|done].
  rewrite Hfn in Hxs. discriminate Hxs.
Qed.

Lemma oprofileStart_returns (depth : nat) (node : option string) :
  returns_some (oprofileStart lab Env_oprofile depth node).
Proof.
  revert node. induction depth as [|depth IH]; intros node s; cbn [oprofileStart];
    [by eexists|].
  destruct (no_node node); [by apply for_each_returns|].
  destruct (decide _); by eexists.
Qed.

Lemma oprofileStop_returns (depth : nat) (node : option string) :
  returns_some (oprofileStop lab Env_oprofile depth node).
Proof.
  revert node. induction depth as [|depth IH]; intros node s; cbn [oprofileStop];
    [by eexists|].
  destruct (no_node node); [by apply for_each_returns|].
  destruct (decide _); by eexists.
Qed.

Lemma oprofileSave_returns (depth : nat) (test : Z) (node : option string) :
  returns_some (oprofileSave lab Env_oprofile depth test node).
Proof.
  revert node. induction depth as [|depth IH]; intros node s; cbn [oprofileSave];
    [by eexists|].
  destruct (no_node node); [by apply for_each_returns|].
  destruct (decide _); [|by eexists].
  do 2 (erewrite bind_Ret; [|reflexivity]). unfold bind.
  match goal with |- context [oprofileStop _ _ _ _ ?s1] =>
    destruct (oprofileStop_returns depth node s1) as [r Hr];
    destruct (oprofileStop lab Env_oprofile depth node s1) as [o s2]
  end.
  cbn in Hr. subst o. destruct r; [apply oprofileStart_returns|by eexists].
Qed.

End OprofileDepth.

(** X19.  When [Env["oprofile"]] has a node with the empty name, a call of
    [oprofileStart], [oprofileStop] or [oprofileSave] without a node (or
    for the empty name) does not return normally: whatever depth of nested
    calls is allowed, the calls exceed it. *)
Theorem oprofile_unnamed_node (lab : Lab) (Env_oprofile : list string) (depth : nat)
    (test : Z) (node : option string) (s : CM) :
  "" ∈ Env_oprofile -> no_node node = true ->
  (oprofileStart lab Env_oprofile depth node s).1 = Ret None
  ∧ (oprofileStop lab Env_oprofile depth node s).1 = Ret None
  ∧ (oprofileSave lab Env_oprofile depth test node s).1 = Ret None.
Proof.
  intros Hin. revert node s. induction depth as [|depth IH]; intros node s Hno; [done|].
  cbn [oprofileStart oprofileStop oprofileSave]. rewrite Hno.
  split; [|split].
  - apply for_each_exceeds with ""; [intros n; apply oprofileStart_returns|done|].
    intros s1. by apply IH.
  - apply for_each_exceeds with ""; [intros n; apply oprofileStop_returns|done|].
    intros s1. by apply IH.
  - apply for_each_exceeds with ""; [intros n; apply oprofileSave_returns|done|].
    intros s1. by apply IH.
Qed.

Lemma oprofile_unnamed_node_witness :
  let lab := ex_lab ["A"; "B"] false (fun _ _ _ => 0) (fun _ => true)
               (fun _ _ => true) (fun _ _ _ => []) in
  (oprofileStart lab ["A"; ""] 1000 None (ex_cm [])).1 = Ret None.
Proof.
  apply (oprofile_unnamed_node
           (ex_lab ["A"; "B"] false (fun _ _ _ => 0) (fun _ => true)
                   (fun _ _ => true) (fun _ _ _ => []))
           ["A"; ""] 1000 0 None (ex_cm [])).
  - apply elem_of_cons. right. apply elem_of_cons. by left.
  - reflexivity.
Defined.

(** ** The object as a dictionary *)

Section UserDictFacts.

Variable lab : Lab.
Variable V : Type.
Variable of_str : string -> V.
Variable str_value : option V -> string.
Variable repr_self : list (string * option V) -> string.
Variable get_patterns : string -> string -> option V.

Lemma dict_get_set {A : Type} (d : list (string * A)) (key other : string) (value : A) :
  dict_get (dict_set d key value) other
  = if decide (key = other) then Some value else dict_get d other.
Proof.
  induction d as [|[k v] d IH]; cbn.
  - by destruct (decide (key = other)).
  - destruct (decide (k = key)) as [->|Hk]; cbn.
    + by destruct (decide (key = other)).
    + destruct (decide (k = other)) as [->|Ho]; [|done].
      by rewrite decide_False.
Qed.

Lemma dict_set_keys {A : Type} (d : list (string * A)) (key : string) (value : A) :
  (dict_set d key value).*1 = if decide (key ∈ d.*1) then d.*1 else d.*1 ++ [key].
Proof.
  induction d as [|[k v] d IH].
  - destruct (decide (key ∈ _)) as [Hin|_]; [by apply elem_of_nil in Hin|done].
  - cbn [dict_set]. destruct (decide (k = key)) as [->|Hk].
    + rewrite !fmap_cons. cbn [fst]. rewrite decide_True; [done|by left].
    + rewrite !fmap_cons IH. cbn [fst].
      destruct (decide (key ∈ d.*1)) as [Hin|Hin].
      * rewrite decide_True; [done|by right].
      * rewrite decide_False; [done|]. intros [?|?]%elem_of_cons; [congruence|done].
Qed.

Lemma dict_get_is_Some {A : Type} (d : list (string * A)) (key : string) :
  key ∈ d.*1 -> is_Some (dict_get d key).
Proof.
  induction d as [|[k v] d IH]; cbn; [by intros ?%elem_of_nil|].
  intros Hin. destruct (decide (k = key)); [by eexists|].
  apply IH. apply elem_of_cons in Hin as [?|?]; [congruence|done].
Qed.

(** X20.  After [self[key] = value], the keys are as before, with [key]
    added at the end if it was not a key; [self[key]] is [value], except
    for the key ["Name"], for which it is the name of the cluster
    manager, whatever was stored; and for every other key [self[key]] is
    as before. *)
Theorem setitem_getitem (data : list (string * option V)) (key : string)
    (value : option V) (s : CM) :
  ∃ data' s1,
    __setitem__ lab V str_value repr_self data key value s = (Ret data', s1)
    ∧ data'.*1 = (if decide (key ∈ data.*1) then data.*1 else data.*1 ++ [key])
    ∧ (∀ s2, (__getitem__ lab V of_str repr_self get_patterns data' key s2).1
             = Ret (if decide (key = "Name") then Some (of_str (Env_Name lab)) else value))
    ∧ (∀ other s2, other ≠ key ->
         (__getitem__ lab V of_str repr_self get_patterns data' other s2).1
         = (__getitem__ lab V of_str repr_self get_patterns data other s2).1).
Proof.
  eexists _, _. split; [reflexivity|]. split; [apply dict_set_keys|]. split.
  - intros s2. unfold __getitem__. destruct (decide (key = "Name")); [done|].
    unfold bind, emit. cbn. rewrite dict_get_set decide_True //.
  - intros other s2 Hne. unfold __getitem__. destruct (decide (other = "Name")); [done|].
    unfold bind, emit. cbn. rewrite dict_get_set decide_False //.
    by destruct (dict_get data other).
Qed.

Lemma finalConditions_loop_first (data : list (string * option V)) (keys : list string)
    (s : CM) :
  (∀ k, k ∈ keys -> k ∈ data.*1) ->
  ∃ s',
    finalConditions_loop lab V of_str repr_self get_patterns data keys s
    = (Ret (match head (filter (unset data) keys) with
            | Some key =>
                ValueError ("Improper derivation: self[" +:+ key
                            +:+ "] must be overridden by subclass.")
            | None => Conforms
            end), s')
    ∧ extends prints s s'
    ∧ ShouldBeStatus s' = ShouldBeStatus s.
Proof.
  revert s. induction keys as [|key keys IH]; intros s Hin.
  { exists s. split; [done|]. split; [reflexivity|done]. }
  cbn [finalConditions_loop]. unfold __getitem__ at 1.
  assert (∀ k, k ∈ keys -> k ∈ data.*1) as Hrest by (intros k Hk; apply Hin; by right).
  destruct (decide (key = "Name")) as [->|Hname].
  - erewrite bind_Ret; [|reflexivity].
    rewrite filter_cons_False;
      [|unfold unset; rewrite bool_decide_false; [by intros []|intros H; by apply H]].
    by apply IH.
  - destruct (dict_get_is_Some data key) as [v Hv]; [apply Hin; by left|].
    rewrite Hv. erewrite bind_Ret; [|reflexivity].
    destruct v as [v|].
    + rewrite filter_cons_False; [|unfold unset; rewrite Hv andb_false_r; by intros []].
      edestruct IH as (s' & -> & He & Ht); [done|].
      exists s'. split; [done|]. split; [|by rewrite Ht].
      etrans; [|exact He]. by apply extends_push.
    + rewrite filter_cons_True; [|unfold unset; by rewrite Hv bool_decide_true].
      eexists. split; [reflexivity|]. split; [by apply extends_push|done].
Qed.

(** X21.  [_finalConditions] only prints.  It raises ValueError, naming
    the key, for the first key in the order of the dictionary, other than
    ["Name"], that holds [None], and returns when there is none: a [None]
    stored for ["Name"] is not found. *)
Theorem finalConditions_first_None (data : list (string * option V)) (s : CM) :
  ∃ s',
    _finalConditions lab V of_str repr_self get_patterns data s
    = (Ret (match first_None data with
            | Some key =>
                ValueError ("Improper derivation: self[" +:+ key
                            +:+ "] must be overridden by subclass.")
            | None => Conforms
            end), s')
    ∧ extends prints s s'
    ∧ ShouldBeStatus s' = ShouldBeStatus s.
Proof. by apply finalConditions_loop_first. Qed.

End UserDictFacts.

(** ** The entries of the other nodes *)

#[global] Instance others_marked_preorder (lab : Lab) (node : string) :
  PreOrder (others_marked lab node).
Proof.
  split.
  - intros s k _. by left.
  - intros s1 s2 s3 H1 H2 k Hk.
    destruct (H2 k Hk) as [->| ->]; [by apply H1|by right].
Qed.

#[global] Instance others_marked_calm_steps (lab : Lab) (node : string) :
  CalmSteps (others_marked lab node).
Proof. split; [apply _|]. intros e s _ k _. by left. Qed.

Section OtherEntries.

Variable lab : Lab.
Variable node : string.

Lemma others_status_set (st : string) :
  preserves (others_marked lab node) (status_set node st).
Proof. intros s k Hk. left. cbn. by rewrite lookup_insert_ne. Qed.

Lemma others_status_default (st : string) :
  preserves (others_marked lab node) (status_default node st).
Proof.
  intros s k Hk. left. unfold status_default.
  destruct (decide _); [|done]. cbn. by rewrite lookup_insert_ne.
Qed.

Lemma others_rsh (n cmd : string) : preserves (others_marked lab node) (rsh lab n cmd).
Proof. intros s k _. by left. Qed.

Lemma others_fencing_cleanup (n : string) (stonith : option LogWatcher) :
  preserves (others_marked lab node) (fencing_cleanup lab n stonith).
Proof.
  intros s k _. destruct (fencing_cleanup_preserves lab n stonith s) as [_ Hm].
  apply Hm.
Qed.

Lemma others_StartaCM (verbose : bool) :
  preserves (others_marked lab node) (StartaCM lab node verbose).
Proof.
  unfold StartaCM, log, debug, upcount, install_config.
  repeat first [ apply others_fencing_cleanup | apply others_status_set
               | apply others_status_default | apply others_rsh
               | apply calm_upcount_loop | apply calm_prepare_fencing_watcher
               | apply calm_warn_unmatched | apply calm_and_then
               | calm_step ].
Qed.

End OtherEntries.

(** X22.  Whatever [StartaCM] returns or raises, the entry of every other
    node is as before, or is the status the at-boot flag selects for a
    fenced peer. *)
Theorem StartaCM_other_entries (lab : Lab) (node other : string) (verbose : bool) (s : CM) :
  other ≠ node ->
  ShouldBeStatus (StartaCM lab node verbose s).2 !! other = ShouldBeStatus s !! other
  ∨ ShouldBeStatus (StartaCM lab node verbose s).2 !! other = Some (fenced_status lab).
Proof. intros Hne. by apply others_StartaCM. Qed.

Lemma StartaCM_other_entries_witness :
  let lab := ex_lab ["A"; "B"; "C"] false (fun _ _ _ => 0)
               (fun h => bool_decide (rsh_count h ≠ 0%nat))
               (fun _ _ => false)
               (fun _ name _ => if String.eqb name "StartupFencing"
                                then [("fenced B", 0%nat)] else []) in
  let s := ex_cm [("A", "down"); ("B", "unknown"); ("C", "up")] in
  let s' := (StartaCM lab "A" false s).2 in
  (ShouldBeStatus s' !! "B" = Some "unknown" ∨ ShouldBeStatus s' !! "B" = Some "down")
  ∧ ShouldBeStatus s' !! "B" = Some "down"
  ∧ ShouldBeStatus s' !! "C" = Some "up".
Proof.
  split; [|split; reflexivity].
  apply (StartaCM_other_entries
           (ex_lab ["A"; "B"; "C"] false (fun _ _ _ => 0)
               (fun h => bool_decide (rsh_count h ≠ 0%nat))
                   (fun _ _ => false)
                   (fun _ name _ => if String.eqb name "StartupFencing"
                                    then [("fenced B", 0%nat)] else []))
           "A" "B" false (ex_cm [("A", "down"); ("B", "unknown"); ("C", "up")])).
  done.
Defined.

(** ** The status table after a quick start *)

Section QuickTable.

Variable lab : Lab.

Lemma noblock_loop_table (nodelist : list string) (verbose : bool) (s : CM) :
  ∃ s',
    noblock_loop lab nodelist verbose s = (Ret (), s')
    ∧ ∀ k, ShouldBeStatus s' !! k
           = if decide (k ∈ nodelist) then Some "up" else ShouldBeStatus s !! k.
Proof.
  revert s. induction nodelist as [|n nodelist IH]; intros s; cbn [noblock_loop].
  { exists s. split; [done|]. intros k.
    by destruct (decide (k ∈ [])) as [?%elem_of_nil|]. }
  unfold StartaCMnoBlock, install_config, rsh_noblock.
  destruct verbose.
  all: erewrite bind_Ret; [|reflexivity].
  all: edestruct IH as (s' & -> & Htab).
  all: exists s'; split; [done|].
  all: intros k; rewrite Htab; cbn.
  all: destruct (decide (k ∈ nodelist)) as [Hin|Hin];
    [rewrite decide_True; [done|by right]|].
  all: destruct (decide (k = n)) as [->|Hk];
    [rewrite lookup_insert_eq decide_True; [done|by left]|].
  all: rewrite lookup_insert_ne; [|done].
  all: rewrite decide_False; [done|].
  all: intros [?|?]%elem_of_cons; done.
Qed.

Lemma startall_quick_table (nodelist : option (list string)) (verbose : bool)
    (s s' : CM) :
  startall lab nodelist verbose true s = (Ret py_1, s') ->
  ∀ n, n ∈ default_nodes lab nodelist -> ShouldBeStatus s' !! n = Some "up".
Proof.
  unfold startall. intros H n Hn. cbn [negb] in H.
  apply bind_Ret_inv in H as (node & s1 & _ & H).
  apply bind_Ret_inv in H as (watch & s2 & H2 & H).
  assert (w_name watch = "fast-start") as Hw by (by eapply returns_new_watch).
  apply bind_Ret_inv in H as (watch' & s3 & H3 & H).
  assert (w_name watch' = "fast-start") as Hw'.
  { rewrite -Hw. by eapply returns_setwatch. }
  destruct (default_nodes lab nodelist) as [|first rest] eqn:Hdef; [done|].
  apply bind_Ret_inv in H as (r1 & s4 & _ & H).
  destruct (truthy r1); cbn [negb] in H; [|discriminate H].
  apply bind_Ret_inv in H as ([] & s5 & H5 & H).
  destruct (noblock_loop_table (first :: rest) verbose s4) as (s5' & H5' & Htab).
  rewrite H5 in H5'. injection H5' as <-.
  apply bind_Ret_inv in H as ([ans watch''] & s6 & H6 & H).
  apply lookforall_inv in H6 as ->.
  apply bind_Ret_inv in H as ([] & s7 & H7 & H).
  assert (calm (push (LookForAll (w_name watch') ans) s5) s7) as [_ T7].
  { eapply preserves_at; [|exact H7]. apply calm_warn_unmatched; apply _. }
  apply bind_Ret_inv in H as (settled & s8 & H8 & H). injection H8 as <- <-.
  destruct (stable lab (history s7) None); cbn [negb] in H.
  - injection H as <-. cbn. rewrite T7. cbn. rewrite Htab decide_True //.
  - apply bind_Ret_inv in H as ([] & s9 & _ & H). discriminate H.
Qed.

End QuickTable.

(** X23.  When a quick [startall] returns 1, the entry of every node of
    its list is up. *)
Theorem startall_quick_marks_up (lab : Lab) (nodelist : option (list string))
    (verbose : bool) (s s' : CM) :
  startall lab nodelist verbose true s = (Ret py_1, s') ->
  ∀ n, n ∈ default_nodes lab nodelist -> ShouldBeStatus s' !! n = Some "up".
Proof. apply startall_quick_table. Qed.

Lemma startall_quick_marks_up_witness :
  let lab := ex_lab ["A"; "B"] false (fun _ _ _ => 0) (fun _ => true)
               (fun _ _ => false) (fun _ _ _ => []) in
  let s := ex_cm [("A", "down"); ("B", "unknown")] in
  let r := startall lab None false true s in
  r.1 = Ret py_1
  ∧ ShouldBeStatus r.2 !! "A" = Some "up"
  ∧ ShouldBeStatus r.2 !! "B" = Some "up".
Proof.
  pose proof (startall_quick_marks_up
                (ex_lab ["A"; "B"] false (fun _ _ _ => 0) (fun _ => true)
                        (fun _ _ => false) (fun _ _ _ => []))
                None false (ex_cm [("A", "down"); ("B", "unknown")]) _ eq_refl) as H.
  split; [reflexivity|]. split; apply H.
  - by left.
  - right. by left.
Defined.

(** ** The session a start watches *)

#[global] Instance grows_preorder : PreOrder grows.
Proof. unfold grows. apply _. Qed.

#[global] Instance grows_calm_steps : CalmSteps grows.
Proof. split; [apply _|]. intros e s _. by apply extends_push. Qed.

Section StartSession.

Variable lab : Lab.
Variable node : string.

Lemma grows_status_set (n st : string) : preserves grows (status_set n st).
Proof. intros s. by exists []. Qed.

Lemma grows_rsh (n cmd : string) : preserves grows (rsh lab n cmd).
Proof. intros s. by apply extends_push. Qed.

Lemma grows_fencing_cleanup (n : string) (stonith : option LogWatcher) :
  preserves grows (fencing_cleanup lab n stonith).
Proof.
  intros s. destruct (fencing_cleanup_preserves lab n stonith s) as [E _].
  eapply extends_weaken; [|exact E]. done.
Qed.

Lemma nodes_in_up_default (table : gmap string string) (l : list string) :
  table !! node = None ∨ table !! node = Some "down" ->
  nodes_in "up" (<[node := "down"]> table) l = nodes_in "up" table l.
Proof.
  intros Hnode. unfold nodes_in. induction l as [|k l IH]; [done|].
  destruct (decide (k = node)) as [->|Hk].
  - do 2 (rewrite filter_cons_False;
            [|first [rewrite lookup_insert_eq; congruence
                    |destruct Hnode as [-> | ->]; congruence]]).
    done.
  - destruct (decide (table !! k = Some "up")) as [Hup|Hup].
    + do 2 (rewrite filter_cons_True; [|first [done|by rewrite lookup_insert_ne]]).
      by rewrite IH.
    + do 2 (rewrite filter_cons_False; [|first [done|by rewrite lookup_insert_ne]]).
      done.
Qed.

Lemma StartaCM_session (verbose : bool) (r : option Z) (s s' : CM) :
  ShouldBeStatus s !! node = None ∨ ShouldBeStatus s !! node = Some "down" ->
  StartaCM lab node verbose s = (Ret r, s') ->
  NewWatch "StartaCM" (start_patterns lab node (ShouldBeStatus s)) (Env_StartTime lab + 10)
  ∈ history s'.
Proof.
  unfold StartaCM. intros Hnode H.
  apply bind_Ret_inv in H as ([] & s1 & H1 & H). apply announce_inv in H1.
  apply bind_Ret_inv in H as ([] & s2 & H2 & H).
  assert (ShouldBeStatus s2 = <[node := "down"]> (ShouldBeStatus s)) as Ht2.
  { unfold status_default in H2. rewrite H1 in H2.
    destruct (decide _) as [Hn|Hn].
    - apply status_set_inv in H2 as ->. by destruct verbose.
    - injection H2 as <-. destruct Hnode as [Hnone|Hdown].
      + destruct Hn. by destruct verbose.
      + rewrite insert_id; [done|by destruct verbose]. }
  apply bind_Ret_inv in H as (st & s3 & H3 & H). apply status_get_inv in H3 as [-> Hst].
  rewrite Ht2 lookup_insert_eq in Hst. injection Hst as <-.
  destruct (decide ("down" ≠ "down")) as [E|_]; [by destruct E|].
  apply bind_Ret_inv in H as (up & s3 & H3 & H).
  unfold upcount in H3. rewrite upcount_loop_counts in H3.
  destruct (first_unknown _ _); [discriminate H3|]. injection H3 as <- <-.
  rewrite Ht2 nodes_in_up_default // Z.add_0_l in H.
  apply bind_Ret_inv in H as (watch & s4 & H4 & H).
  assert (w_name watch = "StartaCM") as Hw by (by eapply returns_new_watch).
  unfold new_watch in H4. apply bind_Ret_inv in H4 as ([] & s4' & H4 & H4').
  apply emit_inv in H4 as ->. injection H4' as _ <-.
  assert (grows (push (NewWatch "StartaCM" (start_patterns lab node (ShouldBeStatus s))
                         (Env_StartTime lab + 10)) s2) s') as G.
  { unfold start_patterns. revert H.
    destruct (decide (Z.of_nat (length (nodes_in "up" (ShouldBeStatus s) (Env_nodes lab))) = 0))
      as [E|E];
      destruct (decide (nodes_in "up" (ShouldBeStatus s) (Env_nodes lab) = [])) as [Hz|Hz];
      intros H.
    2:{ destruct Hz. apply length_zero_iff_nil. lia. }
    2:{ destruct E. by rewrite Hz. }
    all: eapply preserves_at; [|exact H].
    all: unfold log, debug, install_config.
    all: repeat first [ apply grows_fencing_cleanup | apply grows_status_set | apply grows_rsh
                      | apply calm_prepare_fencing_watcher
                      | apply calm_warn_unmatched | apply calm_and_then
                      | calm_step ]. }
  eapply extends_elem; [exact G|]. by left.
Qed.

End StartSession.

(** X24.  When [StartaCM] is called on a node whose entry is down or
    missing, and returns, it has opened a session StartaCM with timeout
    StartTime + 10 that watches for the local start of the node and for
    its start as DC, when no configured node was up at the call, or as
    non-DC otherwise. *)
Theorem StartaCM_watches (lab : Lab) (node : string) (verbose : bool) (r : option Z)
    (s s' : CM) :
  ShouldBeStatus s !! node = None ∨ ShouldBeStatus s !! node = Some "down" ->
  StartaCM lab node verbose s = (Ret r, s') ->
  NewWatch "StartaCM" (start_patterns lab node (ShouldBeStatus s)) (Env_StartTime lab + 10)
  ∈ history s'.
Proof. apply StartaCM_session. Qed.

Lemma StartaCM_watches_witness :
  let lab := ex_lab ["A"; "B"] false (fun _ _ _ => 0) (fun _ => true)
               (fun _ _ => false) (fun _ _ _ => []) in
  NewWatch "StartaCM" ["Pat:Local_started A"; "Pat:NonDC_started A"] 70
  ∈ history (StartaCM lab "A" false (ex_cm [("A", "down"); ("B", "up")])).2.
Proof.
  apply (StartaCM_watches
           (ex_lab ["A"; "B"] false (fun _ _ _ => 0) (fun _ => true)
                   (fun _ _ => false) (fun _ _ _ => []))
           "A" false py_1 (ex_cm [("A", "down"); ("B", "up")])).
  - right. reflexivity.
  - vm_compute. reflexivity.
Defined.

(** ** The peers fencing_cleanup reports *)

Section Peers.

Variable lab : Lab.

Lemma match_peers_peer (nodes : list string) (shot : string) (peer peer' : option string)
    (peer_state ps' : gmap string string) (s s' : CM) :
  match_peers lab nodes shot peer peer_state s = (Ret (peer', ps'), s') ->
  peer' = peer ∨ ∃ n, n ∈ nodes ∧ peer' = Some n.
Proof.
  revert peer peer_state s. induction nodes as [|n nodes IH]; intros peer peer_state s;
    cbn [match_peers].
  { intros [= <- _ _]. by left. }
  intros H.
  assert (∀ st s0,
            match_peers lab nodes shot (Some n) st s0 = (Ret (peer', ps'), s') ->
            peer' = peer ∨ ∃ k, k ∈ n :: nodes ∧ peer' = Some k) as Hset.
  { intros st s0 H0. apply IH in H0 as [->|(k & Hk & ->)]; right.
    - exists n. split; [by left|done].
    - exists k. split; [by right|done]. }
  destruct (re_search lab _ shot).
  - apply bind_Ret_inv in H as ([] & s1 & _ & H). by eapply Hset.
  - apply bind_Ret_inv in H as (st & s1 & _ & H).
    destruct (_ && _).
    + apply bind_Ret_inv in H as ([] & s2 & _ & H). by eapply Hset.
    + apply IH in H as [->|(k & Hk & ->)]; [by left|right].
      exists k. split; [by right|done].
Qed.

Lemma record_peer_named (line : string) (peer : option string) (peer_list l : list string)
    (s s' : CM) :
  record_peer lab line peer peer_list s = (Ret l, s') ->
  l = peer_list ∨ ∃ p, peer = Some p ∧ p ≠ "" ∧ l = peer_list ++ [p].
Proof.
  unfold record_peer. destruct peer as [p|]; [|done].
  unfold bind, log, debug, emit, ret.
  repeat case_decide; intros [= <- <-]; try (by left).
  right. by exists p.
Qed.

Lemma scan_loop_listed (timeout : Z) (feed : list (string * nat)) (stonith w' : LogWatcher)
    (peer peer' : option string) (peer_list l : list string)
    (peer_state ps' : gmap string string) (s s' : CM) :
  (∀ p, peer = Some p -> p ∈ Env_nodes lab) ->
  listed lab peer_list ->
  scan_loop lab timeout feed stonith peer peer_list peer_state s
    = (Ret (w', (peer', l, ps')), s') ->
  listed lab l.
Proof.
  revert timeout stonith peer peer_list peer_state s.
  induction feed as [|[shot which] feed IH];
    intros timeout stonith peer peer_list peer_state s Hpeer Hl; cbn [scan_loop].
  - unfold bind, emit, ret. by intros [= <- <- <- <- <-].
  - intros H. apply bind_Ret_inv in H as ([] & s1 & _ & H).
    case_decide; [by injection H as <- <- <- <- <-|].
    apply bind_Ret_inv in H as ([] & s2 & _ & H).
    apply bind_Ret_inv in H as (regs & s3 & _ & H).
    apply bind_Ret_inv in H as ([peer1 ps1] & s4 & Hm & H).
    apply bind_Ret_inv in H as (pl1 & s5 & Hrec & H).
    assert (∀ p, peer1 = Some p -> p ∈ Env_nodes lab) as Hpeer1.
    { intros p ->. apply match_peers_peer in Hm as [<-|(n & Hn & [= ->])]; [|done].
      by apply Hpeer. }
    eapply IH; [exact Hpeer1| |exact H].
    apply record_peer_named in Hrec as [->|(p & -> & Hp & ->)]; [done|].
    apply Forall_app. split; [done|]. apply Forall_singleton. split; [by apply Hpeer1|done].
Qed.

End Peers.

(** X25.  The peers in the list [fencing_cleanup] returns are configured
    nodes, and none has the empty name. *)
Theorem fencing_cleanup_peers_configured (lab : Lab) (node : string)
    (stonith : option LogWatcher) (l : list string) (w' : option LogWatcher) (s s' : CM) :
  fencing_cleanup lab node stonith s = (Ret (Some l, w'), s') ->
  Forall (fun p => p ∈ Env_nodes lab ∧ p ≠ "") l.
Proof.
  destruct stonith as [stonith|].
  - intros H. apply fencing_cleanup_Ret_inv in H
      as [[[= ->] _]|(s0 & w1 & peer & pl & ps & s1 & w2 & Hscan & _ & Hsettle & _)]; [done|].
    apply settle_peers_result in Hsettle as ->.
    eapply (scan_loop_listed lab); [| |exact Hscan]; [done|by constructor].
  - unfold fencing_cleanup, bind, debug, emit, ret. by intros [= <- _ _].
Qed.

Lemma fencing_cleanup_peers_configured_witness :
  let lab := ex_lab ["A"; "B"] false (fun _ _ _ => 0) (fun _ => false)
               (fun _ _ => true) (fun _ _ _ => []) in
  let w := mkLogWatcher "StartupFencing" ["fenced B"; "fencing B"] 0 []
             [("fencing B", 1%nat); ("fenced B", 0%nat)] in
  ∃ w' s',
    fencing_cleanup lab "A" (Some w) (ex_cm [("A", "up"); ("B", "down")])
    = (Ret (Some ["B"], w'), s')
    ∧ Forall (fun p => p ∈ Env_nodes lab ∧ p ≠ "") ["B"].
Proof.
  eexists _, _. split; [vm_compute; reflexivity|].
  eapply (fencing_cleanup_peers_configured
            (ex_lab ["A"; "B"] false (fun _ _ _ => 0) (fun _ => false)
                    (fun _ _ => true) (fun _ _ _ => []))
            "A"
            (Some (mkLogWatcher "StartupFencing" ["fenced B"; "fencing B"] 0 []
                     [("fencing B", 1%nat); ("fenced B", 0%nat)]))
            ["B"] _ (ex_cm [("A", "up"); ("B", "down")])).
  vm_compute. reflexivity.
Defined.

(** ** The quality of the links *)

(** X26.  When both configured loss rates convert to zero,
    [reducecomm_node] still runs its command, with the two rates, and
    returns 1 when the exit code is 0 and None otherwise; the
    [restorecomm_node] that follows runs no command, changes nothing and
    returns 1. *)
Theorem reduce_then_restore (lab : Lab) (Env_XmitLoss Env_RecvLoss : string)
    (float_ne0 : string -> option bool) (node : string) (s : CM) :
  float_ne0 Env_XmitLoss = Some false ->
  float_ne0 Env_RecvLoss = Some false ->
  ∃ r s1 rc,
    reducecomm_node lab Env_XmitLoss Env_RecvLoss node s = (Ret r, s1)
    ∧ rsh_calls (history s1)
      = rsh_calls (history s)
        ++ [(node, fmt lab (templates lab "ReduceCommCmd") [Env_XmitLoss; Env_RecvLoss], rc)]
    ∧ r = (if decide (rc = 0) then py_1 else None)
    ∧ restorecomm_node lab Env_XmitLoss Env_RecvLoss float_ne0 node s1
      = (Ret (Converted py_1), s1).
Proof.
  intros Hx Hr. unfold reducecomm_node, restorecomm_node. rewrite Hx Hr.
  erewrite bind_Ret; [|reflexivity].
  set (rc := rsh_rc lab _ node _).
  destruct (decide (rc = 0)) as [Hrc|Hrc].
  - eexists _, _, rc. split; [reflexivity|]. split; [done|].
    rewrite decide_True //.
  - erewrite bind_Ret; [|reflexivity].
    eexists _, _, rc. split; [reflexivity|]. split; [done|].
    rewrite decide_False //.
Qed.

Lemma reduce_then_restore_witness :
  let lab := mkLab ["A"; "B"] false 60 30 "pacemaker"
               (fun key => if String.eqb key "ReduceCommCmd" then "reduce %s %s" else "restore")
               subst ex_repr ex_repr_list String.eqb
               (fun _ _ _ => 0) (fun _ => true) (fun _ _ => true) (fun _ _ => true)
               (fun _ _ _ => []) (fun _ _ => (true, [])) in
  let zero := fun x : string => if String.eqb x "0.0" then Some false else Some true in
  let reduced := reducecomm_node lab "0.0" "0.0" "A" (ex_cm []) in
  let restored := restorecomm_node lab "0.0" "0.0" zero "A" reduced.2 in
  reduced.1 = Ret py_1
  ∧ rsh_calls (history reduced.2) = [("A", "reduce 0.0 0.0", 0)]
  ∧ restored = (Ret (Converted py_1), reduced.2).
Proof.
  destruct (reduce_then_restore
              (mkLab ["A"; "B"] false 60 30 "pacemaker"
                 (fun key => if String.eqb key "ReduceCommCmd" then "reduce %s %s" else "restore")
                 subst ex_repr ex_repr_list String.eqb
                 (fun _ _ _ => 0) (fun _ => true) (fun _ _ => true) (fun _ _ => true)
                 (fun _ _ _ => []) (fun _ _ => (true, [])))
              "0.0" "0.0"
              (fun x : string => if String.eqb x "0.0" then Some false else Some true)
              "A" (ex_cm []) eq_refl eq_refl) as (r & s1 & rc & Hred & _ & _ & Hres).
  cbv zeta. rewrite Hred. cbn [fst snd]. rewrite Hres.
  vm_compute in Hred. injection Hred as <- <-. done.
Defined.
